(** * fm-cp: plain text <-> FileMaker XML clipboard snippets

    A shallow embedding of [src/fm_cp/__main__.py]: the line recognizer
    ([parse_line]), the parameter splitter and delimiter balancer, the
    logical-line accumulator ([parse_text]), the comment coalescer, the
    structural validator, the XML generator and the decompiler, followed
    by the properties established about them.

    Text is modelled by [string]: a Python [str] restricted to code points
    below 128 (bytes of a UTF-8 encoded non-ASCII character are carried
    through unchanged and are neither whitespace nor word characters).
    A Python [dict] of parameters is a [gmap string pyval]. *)

From Stdlib Require Import String Ascii List NArith ZArith Lia Bool DecimalString.
From stdpp Require Import gmap strings option.

Open Scope string_scope.
Open Scope list_scope.

(** ** Python string primitives *)

Module PyStr.

Definition code (c : ascii) : N := N_of_ascii c.

(** [str.isspace] on one character. *)
Definition is_space (c : ascii) : bool :=
  let n := code c in
  ((9 <=? n) && (n <=? 13) || (28 <=? n) && (n <=? 32))%N.

Definition is_upper (c : ascii) : bool := ((65 <=? code c) && (code c <=? 90))%N.
Definition is_lower (c : ascii) : bool := ((97 <=? code c) && (code c <=? 122))%N.
Definition is_alpha (c : ascii) : bool := is_upper c || is_lower c.
Definition is_digit (c : ascii) : bool := ((48 <=? code c) && (code c <=? 57))%N.

Definition lower_char (c : ascii) : ascii :=
  if is_upper c then ascii_of_N (code c + 32) else c.
Definition upper_char (c : ascii) : ascii :=
  if is_lower c then ascii_of_N (code c - 32) else c.

(** [s.lower()] *)
Fixpoint lower (s : string) : string :=
  match s with
  | "" => ""
  | String c s' => String (lower_char c) (lower s')
  end.

(** [s.capitalize()] *)
Definition capitalize (s : string) : string :=
  match s with
  | "" => ""
  | String c s' => String (upper_char c) (lower s')
  end.

(** [s.title()]: a letter that follows a non-letter is upper-cased,
    every other letter is lower-cased. *)
Fixpoint title_from (prev_cased : bool) (s : string) : string :=
  match s with
  | "" => ""
  | String c s' =>
      String (if prev_cased then lower_char c else upper_char c)
             (title_from (is_alpha c) s')
  end.
Definition title (s : string) : string := title_from false s.

(** [s.lstrip()], [s.rstrip()], [s.strip()] *)
Fixpoint lstrip (s : string) : string :=
  match s with
  | "" => ""
  | String c s' => if is_space c then lstrip s' else s
  end.

Fixpoint rstrip (s : string) : string :=
  match s with
  | "" => ""
  | String c s' =>
      match rstrip s' with
      | "" => if is_space c then "" else String c ""
      | r => String c r
      end
  end.

Definition strip (s : string) : string := rstrip (lstrip s).

(** [s.startswith(p)] *)
Fixpoint startswith (s p : string) {struct p} : bool :=
  match p with
  | "" => true
  | String a p' =>
      match s with
      | String b s' => Ascii.eqb a b && startswith s' p'
      | "" => false
      end
  end.

(** [s[n:]] and [s[:n]] for [n >= 0] *)
Fixpoint drop (n : nat) (s : string) : string :=
  match n, s with
  | O, _ => s
  | S n', String _ s' => drop n' s'
  | S _, "" => ""
  end.

Fixpoint take (n : nat) (s : string) : string :=
  match n, s with
  | S n', String c s' => String c (take n' s')
  | _, _ => ""
  end.

(** [sub in s] *)
Fixpoint contains (sub s : string) : bool :=
  startswith s sub ||
  match s with
  | "" => false
  | String _ s' => contains sub s'
  end.

(** [s.split(sep)] for a one-character separator *)
Fixpoint split_char (sep : ascii) (s : string) : list string :=
  match s with
  | "" => [""]
  | String c s' =>
      if Ascii.eqb c sep then "" :: split_char sep s'
      else match split_char sep s' with
           | [] => [String c ""]
           | w :: ws => String c w :: ws
           end
  end.

(** [s.split(sep, 1)[1]] for a one-character separator occurring in [s] *)
Fixpoint after_first (sep : ascii) (s : string) : string :=
  match s with
  | "" => ""
  | String c s' => if Ascii.eqb c sep then s' else after_first sep s'
  end.

(** [sep.join(parts)] *)
Fixpoint join (sep : string) (parts : list string) : string :=
  match parts with
  | [] => ""
  | [p] => p
  | p :: ps => p ++ sep ++ join sep ps
  end.

(** [''.join(parts)] *)
Fixpoint concat (parts : list string) : string :=
  match parts with
  | [] => ""
  | p :: ps => p ++ concat ps
  end.

(** [s.replace(old, new)] for a one-character [old] *)
Fixpoint replace_char (old : ascii) (new : string) (s : string) : string :=
  match s with
  | "" => ""
  | String c s' =>
      if Ascii.eqb c old then new ++ replace_char old new s'
      else String c (replace_char old new s')
  end.

(** [s.replace(old, new, 1)] for a non-empty [old]: only the leftmost
    occurrence is replaced. *)
Fixpoint replace_first (old new : string) (s : string) : string :=
  if startswith s old then new ++ drop (String.length old) s
  else match s with
       | "" => ""
       | String c s' => String c (replace_first old new s')
       end.

(** [pad * n] *)
Fixpoint repeat_str (pad : string) (n : nat) : string :=
  match n with
  | O => ""
  | S n' => pad ++ repeat_str pad n'
  end.

(** The double-quote character, and string literals that contain it: in
    [qq] an apostrophe of the literal stands for a double quote (no
    literal of the source contains an apostrophe). *)
Definition dquote : ascii := "034"%char.

Fixpoint qq (s : string) : string :=
  match s with
  | "" => ""
  | String c s' => String (if Ascii.eqb c "'" then dquote else c) (qq s')
  end.

(** [str(n)] for a non-negative integer *)
Definition of_nat (n : nat) : string := NilEmpty.string_of_uint (Nat.to_uint n).

End PyStr.

(** ** A backtracking matcher for the [re] patterns of the recognizer

    The patterns of [parse_line] only repeat single-character classes, so
    repetition is structural on the subject string.  Alternatives are tried
    in Python's priority order, with the continuation deciding success, as
    the backtracking engine of [re] does. *)

Module Regex.

Inductive cls : Type :=
| c_space                (* \s *)
| c_dot                  (* .   (anything but a newline) *)
| c_word_dot             (* [\w.] *)
| c_chr (c : ascii).     (* one literal character *)

Definition in_cls (k : cls) (c : ascii) : bool :=
  match k with
  | c_space => PyStr.is_space c
  | c_dot => negb (Ascii.eqb c "010")
  | c_word_dot =>
      PyStr.is_alpha c || PyStr.is_digit c || Ascii.eqb c "_" || Ascii.eqb c "."
  | c_chr d => Ascii.eqb c d
  end.

Inductive re : Type :=
| Lit (s : string)                                     (* literal, IGNORECASE *)
| Rep (k : cls) (lo : nat) (hi : option nat) (greedy : bool)
| Cat (r1 r2 : re)
| Alt (r1 r2 : re)
| Grp (n : nat) (r : re)                               (* capturing group *)
| Opt (r : re)                                         (* (?: r )? *)
| Eos.                                                 (* $ *)

Definition caps : Type := list (nat * string).

Definition group (n : nat) (cs : caps) : option string :=
  snd <$> List.find (fun p => Nat.eqb (fst p) n) cs.

(** Case-insensitive literal prefix; returns what follows it. *)
Fixpoint lit_match (l s : string) : option string :=
  match l, s with
  | "", _ => Some s
  | String a l', String b s' =>
      if Ascii.eqb (PyStr.lower_char a) (PyStr.lower_char b)
      then lit_match l' s' else None
  | String _ _, "" => None
  end.

Definition may_take (hi : option nat) : bool :=
  match hi with Some O => false | _ => true end.

Fixpoint rep_match {A : Type} (k : cls) (greedy : bool) (cont : string -> option A)
         (lo : nat) (hi : option nat) (s : string) {struct s} : option A :=
  match s with
  | String c s' =>
      if in_cls k c && may_take hi then
        if greedy then
          match rep_match k greedy cont (Nat.pred lo) (Nat.pred <$> hi) s' with
          | Some r => Some r
          | None => match lo with O => cont s | S _ => None end
          end
        else
          match (match lo with O => cont s | S _ => None end) with
          | Some r => Some r
          | None => rep_match k greedy cont (Nat.pred lo) (Nat.pred <$> hi) s'
          end
      else match lo with O => cont s | S _ => None end
  | "" => match lo with O => cont s | S _ => None end
  end.

(** The text consumed between subject [s] and its suffix [rest]. *)
Definition consumed (s rest : string) : string :=
  PyStr.take (String.length s - String.length rest) s.

Fixpoint rmatch (r : re) (s : string) (cs : caps)
         (cont : string -> caps -> option caps) {struct r} : option caps :=
  match r with
  | Lit l =>
      match lit_match l s with
      | Some rest => cont rest cs
      | None => None
      end
  | Rep k lo hi g => rep_match k g (fun rest => cont rest cs) lo hi s
  | Cat r1 r2 => rmatch r1 s cs (fun rest cs' => rmatch r2 rest cs' cont)
  | Alt r1 r2 =>
      match rmatch r1 s cs cont with
      | Some m => Some m
      | None => rmatch r2 s cs cont
      end
  | Grp n r1 =>
      rmatch r1 s cs (fun rest cs' => cont rest ((n, consumed s rest) :: cs'))
  | Opt r1 =>
      match rmatch r1 s cs cont with
      | Some m => Some m
      | None => cont s cs
      end
  | Eos =>
      match s with
      | "" => cont s cs
      | String c "" => if Ascii.eqb c "010" then cont s cs else None
      | _ => None
      end
  end.

(** [re.match(pattern, s, re.IGNORECASE)] *)
Definition re_match (r : re) (s : string) : option caps :=
  rmatch r s [] (fun _ cs => Some cs).

(** Pattern fragments *)
Definition ws : re := Rep c_space 0 None true.          (* \s* *)
Definition some_lazy : re := Rep c_dot 1 None false.    (* .+? *)
Definition any_lazy : re := Rep c_dot 0 None false.     (* .*? *)

Fixpoint seq (rs : list re) : re :=
  match rs with
  | [] => Lit ""
  | [r] => r
  | r :: rs' => Cat r (seq rs')
  end.

End Regex.


(** ** Stage 1: the parser *)

(** Values stored in a step's parameter dictionary: the recognizer stores
    strings, booleans ([no_dialog], [pause]) and one list of strings
    ([buttons]). *)
Inductive pyval : Type :=
| VStr (s : string)
| VBool (b : bool)
| VList (l : list string).

(** [class ParsedStep] *)
Record ParsedStep : Type := mkStep {
  step_type : string;
  step_params : gmap string pyval;
  line_num : nat;
  raw_text : string;
  enabled : bool
}.

(** What [parse_line] returns: [None], a [ParsedStep], or an error string. *)
Inductive parse_result : Type :=
| RNone
| RStep (s : ParsedStep)
| RError (msg : string).

(** The dictionary literal [{k1: v1, ...}]. *)
Definition dict_of {V : Type} (kvs : list (string * V)) : gmap string V :=
  fold_left (fun m kv => <[fst kv := snd kv]> m) kvs ∅.

Definition dict (kvs : list (string * pyval)) : gmap string pyval := dict_of kvs.

Fixpoint fold_chars {A : Type} (f : A -> ascii -> A) (s : string) (a : A) : A :=
  match s with
  | "" => a
  | String c s' => fold_chars f s' (f a c)
  end.

Definition push_char (s : string) (c : ascii) : string := s ++ String c "".

(** *** [_split_params] *)

Record split_state : Type := mkSplit {
  sp_parts : list string;
  sp_current : string;
  sp_depth_paren : Z;
  sp_depth_bracket : Z;
  sp_in_quote : bool;
  sp_escape : bool
}.

Definition split_init : split_state := mkSplit [] "" 0 0 false false.

(** One iteration of [for ch in s] in [_split_params]. *)
Definition split_step (st : split_state) (ch : ascii) : split_state :=
  let '(mkSplit parts current dp db q e) := st in
  if e then mkSplit parts (push_char current ch) dp db q false
  else if Ascii.eqb ch "\" then mkSplit parts (push_char current ch) dp db q true
  else if Ascii.eqb ch PyStr.dquote && (dp =? 0)%Z then
    mkSplit parts (push_char current ch) dp db (negb q) e
  else if q then mkSplit parts (push_char current ch) dp db q e
  else if Ascii.eqb ch "(" then mkSplit parts (push_char current ch) (dp + 1) db q e
  else if Ascii.eqb ch ")" then mkSplit parts (push_char current ch) (dp - 1) db q e
  else if Ascii.eqb ch "[" then mkSplit parts (push_char current ch) dp (db + 1) q e
  else if Ascii.eqb ch "]" then mkSplit parts (push_char current ch) dp (db - 1) q e
  else if Ascii.eqb ch ";" && (dp =? 0)%Z && (db =? 0)%Z then
    mkSplit (parts ++ [current]) "" dp db q e
  else mkSplit parts (push_char current ch) dp db q e.

Definition _split_params (s : string) : list string :=
  let st := fold_chars split_step s split_init in
  match sp_current st with
  | "" => sp_parts st
  | cur => sp_parts st ++ [cur]
  end.

(** *** [_count_delimiters] *)

Record count_state : Type := mkCount {
  ct_paren : Z;
  ct_bracket : Z;
  ct_in_quote : bool;
  ct_escape : bool
}.

Definition count_init : count_state := mkCount 0 0 false false.

(** One iteration of [for ch in text] in [_count_delimiters]. *)
Definition count_step (st : count_state) (ch : ascii) : count_state :=
  let '(mkCount p b q e) := st in
  if e then mkCount p b q false
  else if Ascii.eqb ch "\" then mkCount p b q true
  else if Ascii.eqb ch PyStr.dquote then mkCount p b (negb q) e
  else if q then st
  else if Ascii.eqb ch "(" then mkCount (p + 1) b q e
  else if Ascii.eqb ch ")" then mkCount (p - 1) b q e
  else if Ascii.eqb ch "[" then mkCount p (b + 1) q e
  else if Ascii.eqb ch "]" then mkCount p (b - 1) q e
  else st.

Definition _count_delimiters (text : string) : Z * Z :=
  let st := fold_chars count_step text count_init in
  (ct_paren st, ct_bracket st).

(** *** The patterns of [parse_line], in source order *)

Module Pat.
Import Regex.

(** [\s*\]$] *)
Definition closing : re := seq [ws; Lit "]"; Eos].

(** [^KW\s*\[\s*(.+?)\s*\]$] *)
Definition bracketed (kw : string) : re :=
  seq [Lit kw; ws; Lit "["; ws; Grp 1 some_lazy; ws; Lit "]"; Eos].

(** [^KW\s*\[\s*(.+?)\s*;\s*(.+?)\s*\]$] *)
Definition bracketed2 (kw : string) : re :=
  seq [Lit kw; ws; Lit "["; ws; Grp 1 some_lazy; ws; Lit ";"; ws;
       Grp 2 some_lazy; ws; Lit "]"; Eos].

(** [(?:\[\s*(.*?)\s*\])?] *)
Definition opt_bracket : re :=
  Opt (seq [Lit "["; ws; Grp 1 any_lazy; ws; Lit "]"]).

(** [^KW\s*\[\s*(On|Off)\s*\]$] *)
Definition on_off (kw : string) : re :=
  seq [Lit kw; ws; Lit "["; ws; Grp 1 (Alt (Lit "On") (Lit "Off")); ws;
       Lit "]"; Eos].

Definition set_error_capture : re := on_off "Set Error Capture".
Definition allow_user_abort : re := on_off "Allow User Abort".

(** [^Set Variable\s*\[\s*(\${1,2}[\w.]+)\s*;\s*Value:\s*(.+?)\s*\]$] *)
Definition set_variable : re :=
  seq [Lit "Set Variable"; ws; Lit "["; ws;
       Grp 1 (Cat (Rep (c_chr "$") 1 (Some 2) true) (Rep c_word_dot 1 None true));
       ws; Lit ";"; ws; Lit "Value:"; ws; Grp 2 some_lazy; ws; Lit "]"; Eos].

Definition set_field_by_name : re := bracketed2 "Set Field By Name".
Definition set_field : re := bracketed2 "Set Field".
Definition if_ : re := bracketed "If".
Definition else_if : re := bracketed "Else If".
Definition else_ : re := seq [Lit "Else"; Eos].
Definition end_if : re := seq [Lit "End If"; Eos].
Definition loop : re := seq [Lit "Loop"; Eos].
Definition exit_loop_if : re := bracketed "Exit Loop If".
Definition end_loop : re := seq [Lit "End Loop"; Eos].
Definition show_custom_dialog : re := bracketed "Show Custom Dialog".
Definition exit_script : re := bracketed "Exit Script".
Definition exit_script_bare : re := seq [Lit "Exit Script"; Eos].

(** [^Commit Records(?:/Requests)?\s*(?:\[\s*(.*?)\s*\])?$] *)
Definition commit_records : re :=
  seq [Lit "Commit Records"; Opt (Lit "/Requests"); ws; opt_bracket; Eos].

Definition perform_script : re := bracketed "Perform Script".
Definition go_to_layout : re := bracketed "Go to Layout".
Definition insert_from_url : re := bracketed "Insert from URL".

(** [^New Record(/Request)?$] *)
Definition new_record : re :=
  seq [Lit "New Record"; Opt (Grp 1 (Lit "/Request")); Eos].

(** [^Enter Find Mode\s*(?:\[\s*(.*?)\s*\])?$] *)
Definition enter_find_mode : re :=
  seq [Lit "Enter Find Mode"; ws; opt_bracket; Eos].

(** [^Perform Find(?:\s*\[\s*\])?$] *)
Definition perform_find : re :=
  seq [Lit "Perform Find"; Opt (seq [ws; Lit "["; ws; Lit "]"]); Eos].

(** [^Go to Record(?:/Request/Page)?\s*\[\s*(First|Last|Next|Previous)\s*\]$] *)
Definition go_to_record : re :=
  seq [Lit "Go to Record"; Opt (Lit "/Request/Page"); ws; Lit "["; ws;
       Grp 1 (Alt (Lit "First") (Alt (Lit "Last") (Alt (Lit "Next") (Lit "Previous"))));
       ws; Lit "]"; Eos].

(** [^Sort Records\s*(?:\[\s*(.*?)\s*\])?$] *)
Definition sort_records : re :=
  seq [Lit "Sort Records"; ws; opt_bracket; Eos].
End Pat.

(** [m.group(n)]; a group that took no part in the match reads as the empty
    string, which is what the source makes of it ([m.group(1) or '']). *)
Definition grp (n : nat) (m : Regex.caps) : string :=
  default "" (Regex.group n m).

(** [ParsedStep(step_type, params, line_num, stripped)] *)
Definition step (ty : string) (kvs : list (string * pyval)) (ln : nat)
           (raw : string) : ParsedStep :=
  mkStep ty (dict kvs) ln raw true.

Definition disable (s : ParsedStep) : ParsedStep :=
  mkStep (step_type s) (step_params s) (line_num s) (raw_text s) false.

Definition is_empty (s : string) : bool :=
  match s with "" => true | _ => false end.

(** The option loop of the [Insert from URL] branch. *)
Definition url_option (ps : gmap string pyval) (p0 : string) : gmap string pyval :=
  let p := PyStr.strip p0 in
  let low := PyStr.lower p in
  if PyStr.startswith low "target:" then
    <["target" := VStr (PyStr.strip (PyStr.drop 7 p))]> ps
  else if PyStr.startswith low "url:" then
    <["url" := VStr (PyStr.strip (PyStr.drop 4 p))]> ps
  else if PyStr.startswith low "curl:" || PyStr.startswith low "curloptions:" then
    <["curl" := VStr (PyStr.strip (PyStr.after_first ":" p))]> ps
  else if negb (bool_decide (is_Some (ps !! "target"))) then
    <["target" := VStr p]> ps
  else if negb (bool_decide (is_Some (ps !! "url"))) then
    <["url" := VStr p]> ps
  else ps.

Notation "'when' m 'matches' r 'on' s 'then' a 'otherwise' b" :=
  (match Regex.re_match r s with Some m => a | None => b end)
  (at level 10, m name, r at level 9, s at level 9, a at level 200, b at level 200,
   format "'[v' 'when'  m  'matches'  r  'on'  s  'then' '/  ' a '/' 'otherwise' '/' b ']'").

(** The branches of [parse_line] below the comment test, on the stripped
    line.  [None] is an [IndexError]. *)
Definition parse_plain (stripped : string) (line_num : nat) : option parse_result :=
  let ok ty kvs := Some (RStep (step ty kvs line_num stripped)) in
  when m matches Pat.set_error_capture on stripped then
    ok "set_error_capture" [("state", VStr (PyStr.capitalize (grp 1 m)))]
  otherwise
  when m matches Pat.allow_user_abort on stripped then
    ok "allow_user_abort" [("state", VStr (PyStr.capitalize (grp 1 m)))]
  otherwise
  when m matches Pat.set_variable on stripped then
    ok "set_variable" [("name", VStr (grp 1 m)); ("value", VStr (grp 2 m))]
  otherwise
  when m matches Pat.set_field_by_name on stripped then
    ok "set_field_by_name" [("target", VStr (grp 1 m)); ("value", VStr (grp 2 m))]
  otherwise
  when m matches Pat.set_field on stripped then
    ok "set_field" [("field", VStr (grp 1 m)); ("value", VStr (grp 2 m))]
  otherwise
  when m matches Pat.if_ on stripped then
    ok "if" [("calc", VStr (grp 1 m))]
  otherwise
  when m matches Pat.else_if on stripped then
    ok "else_if" [("calc", VStr (grp 1 m))]
  otherwise
  when m matches Pat.else_ on stripped then ok "else" []
  otherwise
  when m matches Pat.end_if on stripped then ok "end_if" []
  otherwise
  when m matches Pat.loop on stripped then ok "loop" []
  otherwise
  when m matches Pat.exit_loop_if on stripped then
    ok "exit_loop_if" [("calc", VStr (grp 1 m))]
  otherwise
  when m matches Pat.end_loop on stripped then ok "end_loop" []
  otherwise
  when m matches Pat.show_custom_dialog on stripped then
    let parts := _split_params (grp 1 m) in
    ok "show_custom_dialog"
       [("title", VStr (match parts with p0 :: _ => PyStr.strip p0 | _ => PyStr.qq "''" end));
        ("message", VStr (match parts with _ :: p1 :: _ => PyStr.strip p1 | _ => PyStr.qq "''" end));
        ("buttons", VList (match parts with
                           | _ :: _ :: (_ :: _) as rest => List.map PyStr.strip rest
                           | _ => [PyStr.qq "'OK'"]
                           end))]
  otherwise
  when m matches Pat.exit_script on stripped then
    ok "exit_script" [("result", VStr (grp 1 m))]
  otherwise
  when m matches Pat.exit_script_bare on stripped then
    ok "exit_script" [("result", VStr "")]
  otherwise
  when m matches Pat.commit_records on stripped then
    let opts := PyStr.lower (grp 1 m) in
    ok "commit_records"
       [("no_dialog", VBool (PyStr.contains "no dialog" opts || PyStr.contains "skip" opts))]
  otherwise
  when m matches Pat.perform_script on stripped then
    match _split_params (grp 1 m) with
    | [] => None
    | p0 :: rest =>
        ok "perform_script"
           [("script_name", VStr (PyStr.strip p0));
            ("parameter", VStr (match rest with p1 :: _ => PyStr.strip p1 | [] => "" end))]
    end
  otherwise
  when m matches Pat.go_to_layout on stripped then
    ok "go_to_layout" [("layout", VStr (PyStr.strip (grp 1 m)))]
  otherwise
  when m matches Pat.insert_from_url on stripped then
    Some (RStep (mkStep "insert_from_url"
                        (fold_left url_option (_split_params (grp 1 m)) ∅)
                        line_num stripped true))
  otherwise
  when m matches Pat.new_record on stripped then ok "new_record" []
  otherwise
  when m matches Pat.enter_find_mode on stripped then
    ok "enter_find_mode" [("pause", VBool (PyStr.contains "pause" (PyStr.lower (grp 1 m))))]
  otherwise
  when m matches Pat.perform_find on stripped then ok "perform_find" []
  otherwise
  when m matches Pat.go_to_record on stripped then
    ok "go_to_record" [("direction", VStr (PyStr.capitalize (grp 1 m)))]
  otherwise
  when m matches Pat.sort_records on stripped then ok "sort_records" []
  otherwise
  Some (RError ("Line " ++ PyStr.of_nat line_num ++ ": Unrecognized step: " ++ stripped)).

(** [parse_line]: the recursion on a disabled step strips at least the
    three characters of its marker, so [fuel] bounds it by the length of
    the line. *)
Fixpoint parse_line_aux (fuel : nat) (line : string) (line_num : nat)
  : option parse_result :=
  match fuel with
  | O => None
  | S fuel' =>
      let stripped := PyStr.strip line in
      if is_empty stripped then Some RNone
      else if PyStr.startswith stripped "// " then
        let inner := PyStr.strip (PyStr.drop 3 stripped) in
        if is_empty inner then Some RNone
        else match parse_line_aux fuel' inner line_num with
             | Some (RStep result) => Some (RStep (disable result))
             | r => r
             end
      else if PyStr.startswith stripped "#" then
        let text := PyStr.strip (PyStr.drop 1 stripped) in
        Some (RStep (step "comment" [("text", VStr text)] line_num stripped))
      else parse_plain stripped line_num
  end.

Definition parse_line (line : string) (line_num : nat) : option parse_result :=
  parse_line_aux (S (String.length line)) line line_num.

(** *** [parse_text]: the logical-line accumulator *)

Record acc_state : Type := mkAcc {
  acc_steps : list ParsedStep;
  acc_errors : list string;
  accumulator : list string;
  start_line : nat;
  paren_depth : Z;
  bracket_depth : Z
}.

Definition acc_init : acc_state := mkAcc [] [] [] 0 0 0.

(** The closure [_flush] of [parse_text]. *)
Definition _flush (st : acc_state) : option acc_state :=
  match accumulator st with
  | [] => Some st
  | _ =>
      let logical :=
        PyStr.join " "
          (List.map PyStr.strip
             (List.filter (fun l => negb (is_empty (PyStr.strip l))) (accumulator st))) in
      result ← parse_line logical (start_line st);
      let '(steps, errors) :=
        match result with
        | RNone => (acc_steps st, acc_errors st)
        | RError msg => (acc_steps st, acc_errors st ++ [msg])
        | RStep s => (acc_steps st ++ [s], acc_errors st)
        end in
      Some (mkAcc steps errors [] (start_line st) 0 0)
  end.

Definition balanced (st : acc_state) : bool :=
  (paren_depth st <=? 0)%Z && (bracket_depth st <=? 0)%Z.

(** The body of [for i, line in enumerate(lines, 1)]. *)
Definition acc_line (st : acc_state) (i : nat) (line : string) : option acc_state :=
  let stripped := PyStr.strip line in
  match accumulator st with
  | [] =>
      if is_empty stripped then Some st
      else
        let '(p, b) := _count_delimiters stripped in
        let st' := mkAcc (acc_steps st) (acc_errors st) (accumulator st ++ [line]) i
                         (paren_depth st + p) (bracket_depth st + b) in
        if balanced st' then _flush st' else Some st'
  | _ =>
      let '(p, b) := _count_delimiters stripped in
      let st' := mkAcc (acc_steps st) (acc_errors st) (accumulator st ++ [line])
                       (start_line st) (paren_depth st + p) (bracket_depth st + b) in
      if balanced st' then _flush st' else Some st'
  end.

Fixpoint acc_lines (i : nat) (lines : list string) (st : acc_state) : option acc_state :=
  match lines with
  | [] => Some st
  | line :: rest => st' ← acc_line st i line; acc_lines (S i) rest st'
  end.

(** *** [_merge_comments] *)

(** [p.get(key, dflt)] where the source goes on to use the value as a
    string; [None] when the stored value is not one. *)
Definition get_str (p : gmap string pyval) (key dflt : string) : option string :=
  match p !! key with
  | None => Some dflt
  | Some (VStr s) => Some s
  | Some _ => None
  end.

Definition set_param (key : string) (v : pyval) (s : ParsedStep) : ParsedStep :=
  mkStep (step_type s) (<[key := v]> (step_params s)) (line_num s) (raw_text s) (enabled s).

Definition is_comment (s : ParsedStep) : bool := String.eqb (step_type s) "comment".

(** The two steps are merged by [_merge_comments] when they meet. *)
Definition mergeable (prev s : ParsedStep) : bool :=
  is_comment s && is_comment prev && Bool.eqb (enabled s) (enabled prev).

(** The body of [for step in steps[1:]], on [merged] split into all but its
    last element and [prev = merged[-1]]. *)
Definition merge_step (acc : list ParsedStep * ParsedStep) (s : ParsedStep)
  : option (list ParsedStep * ParsedStep) :=
  let '(done, prev) := acc in
  if mergeable prev s then
    a ← get_str (step_params prev) "text" "";
    b ← get_str (step_params s) "text" "";
    Some (done, set_param "text" (VStr (a ++ String "010" (b))) prev)
  else Some (done ++ [prev], s).

Fixpoint merge_loop (steps : list ParsedStep) (acc : list ParsedStep * ParsedStep)
  : option (list ParsedStep * ParsedStep) :=
  match steps with
  | [] => Some acc
  | s :: rest => acc' ← merge_step acc s; merge_loop rest acc'
  end.

Definition _merge_comments (steps : list ParsedStep) : option (list ParsedStep) :=
  match steps with
  | [] => Some []
  | s0 :: rest =>
      '(done, prev) ← merge_loop rest ([], s0);
      Some (done ++ [prev])
  end.

(** [parse_text(text)]: [(steps, errors)] *)
Definition parse_text (text : string) : option (list ParsedStep * list string) :=
  let lines := PyStr.split_char "010" text in
  st ← acc_lines 1 lines acc_init;
  st' ← _flush st;
  steps ← _merge_comments (acc_steps st');
  Some (steps, acc_errors st').

(** ** Stage 2: the structural validator *)

(** A frame of [block_stack]: [(type, line, has_else)]. *)
Definition frame : Type := string * nat * bool.

Definition frame_type (f : frame) : string := fst (fst f).
Definition frame_line (f : frame) : nat := snd (fst f).
Definition frame_has_else (f : frame) : bool := snd f.

(** [block_stack] is a Python list used as a stack: its top is its last
    element. *)
Definition top (stack : list frame) : option frame := list.last stack.

(** One call [result.add_error(line_num, message)]. *)
Record diagnostic : Type := mkDiag { diag_line : nat; diag_message : string }.

(** The string [add_error] appends to [errors]. *)
Definition error_text (d : diagnostic) : string :=
  "Line " ++ PyStr.of_nat (diag_line d) ++ ": ERROR — " ++ diag_message d.

(** The string [add_warning] appends to [warnings]. *)
Definition warning_text (d : diagnostic) : string :=
  "Line " ++ PyStr.of_nat (diag_line d) ++ ": WARN — " ++ diag_message d.

Definition mismatch_message (closer : string) (f : frame) : string :=
  closer ++ " found but current open block is " ++ PyStr.title (frame_type f)
         ++ " (opened line " ++ PyStr.of_nat (frame_line f) ++ ")".

Definition unclosed_message (block_type : string) : string :=
  "Unclosed " ++ PyStr.title block_type ++ " — missing End " ++ PyStr.title block_type.

Record val_state : Type := mkVal {
  val_errors : list diagnostic;
  block_stack : list frame
}.

Definition add_error (ln : nat) (msg : string) (st : val_state) : val_state :=
  mkVal (val_errors st ++ [mkDiag ln msg]) (block_stack st).

Definition push_frame (f : frame) (st : val_state) : val_state :=
  mkVal (val_errors st) (block_stack st ++ [f]).

Definition pop_frame (st : val_state) : val_state :=
  mkVal (val_errors st) (List.removelast (block_stack st)).

Definition set_top (f : frame) (st : val_state) : val_state :=
  mkVal (val_errors st) (List.removelast (block_stack st) ++ [f]).

(** The body of [for step in steps] in [validate_structure]. *)
Definition validate_step (st : val_state) (s : ParsedStep) : val_state :=
  let ty := step_type s in
  let ln := line_num s in
  if String.eqb ty "if" then push_frame ("if", ln, false) st
  else if String.eqb ty "else_if" then
    match top (block_stack st) with
    | None => add_error ln "Else If without matching If" st
    | Some f =>
        if negb (String.eqb (frame_type f) "if") then
          add_error ln "Else If without matching If" st
        else if frame_has_else f then
          add_error ln "Else If after Else (must come before Else)" st
        else st
    end
  else if String.eqb ty "else" then
    match top (block_stack st) with
    | None => add_error ln "Else without matching If" st
    | Some f =>
        if negb (String.eqb (frame_type f) "if") then
          add_error ln "Else without matching If" st
        else if frame_has_else f then
          add_error ln "Duplicate Else — only one Else per If block" st
        else set_top ("if", frame_line f, true) st
    end
  else if String.eqb ty "end_if" then
    match top (block_stack st) with
    | None => add_error ln "Orphan End If — no matching If" st
    | Some f =>
        if negb (String.eqb (frame_type f) "if") then
          add_error ln (mismatch_message "End If" f) st
        else pop_frame st
    end
  else if String.eqb ty "loop" then push_frame ("loop", ln, false) st
  else if String.eqb ty "exit_loop_if" then
    if List.existsb (fun b => String.eqb (frame_type b) "loop") (block_stack st)
    then st
    else add_error ln "Exit Loop If outside of any Loop" st
  else if String.eqb ty "end_loop" then
    match top (block_stack st) with
    | None => add_error ln "Orphan End Loop — no matching Loop" st
    | Some f =>
        if negb (String.eqb (frame_type f) "loop") then
          add_error ln (mismatch_message "End Loop" f) st
        else pop_frame st
    end
  else st.

(** The state after the walk over [steps]. *)
Definition walk (steps : list ParsedStep) : val_state :=
  fold_left validate_step steps (mkVal [] []).

(** The [add_error] call made for a frame left on the stack. *)
Definition unclosed (f : frame) : diagnostic :=
  mkDiag (frame_line f) (unclosed_message (frame_type f)).

(** [class ValidationResult] *)
Record ValidationResult : Type := mkResult {
  errors : list string;
  warnings : list string
}.

Definition is_valid (r : ValidationResult) : bool :=
  Nat.eqb (List.length (errors r)) 0.

(** The [add_error] calls of [validate_structure], in order. *)
Definition structural_errors (steps : list ParsedStep) : list diagnostic :=
  let st := walk steps in
  val_errors st ++ List.map unclosed (block_stack st).

Definition validate_structure (steps : list ParsedStep) : ValidationResult :=
  mkResult
    (List.map error_text (structural_errors steps))
    (if Nat.eqb (List.length steps) 0
     then [warning_text (mkDiag 0 "No steps found — is the input empty?")]
     else []).

(** ** Stage 3: the XML generator *)

(** [STEP_DEFS]: step type, FileMaker step id, display name. *)
Definition STEP_DEFS : list (string * (nat * string)) :=
  [ ("comment",            (89,  "# (comment)"));
    ("set_error_capture",  (86,  "Set Error Capture"));
    ("allow_user_abort",   (85,  "Allow User Abort"));
    ("set_variable",       (141, "Set Variable"));
    ("set_field_by_name",  (147, "Set Field By Name"));
    ("set_field",          (125, "Set Field"));
    ("if",                 (68,  "If"));
    ("else_if",            (125, "Else If"));
    ("else",               (69,  "Else"));
    ("end_if",             (70,  "End If"));
    ("loop",               (71,  "Loop"));
    ("exit_loop_if",       (72,  "Exit Loop If"));
    ("end_loop",           (73,  "End Loop"));
    ("show_custom_dialog", (87,  "Show Custom Dialog"));
    ("exit_script",        (103, "Exit Script"));
    ("commit_records",     (75,  "Commit Records/Requests"));
    ("insert_from_url",    (160, "Insert from URL"));
    ("perform_script",     (1,   "Perform Script"));
    ("go_to_layout",       (6,   "Go to Layout"));
    ("go_to_record",       (16,  "Go to Record/Request/Page"));
    ("new_record",         (7,   "New Record/Request"));
    ("enter_find_mode",    (22,  "Enter Find Mode"));
    ("perform_find",       (28,  "Perform Find"));
    ("sort_records",       (39,  "Sort Records")) ].

Definition registered (ty : string) : bool :=
  List.existsb (fun d => String.eqb (fst d) ty) STEP_DEFS.

Section Generator.
Local Open Scope string_scope.

(** [_cdata] *)
Definition _cdata (value : string) : string := "<![CDATA[" ++ value ++ "]]>".

Fixpoint last_char (s : string) : option ascii :=
  match s with
  | "" => None
  | String c "" => Some c
  | String _ s' => last_char s'
  end.

(** [_strip_outer_quotes] *)
Definition _strip_outer_quotes (s0 : string) : string :=
  let s := PyStr.strip s0 in
  match s with
  | String c0 _ =>
      if Nat.leb 2 (String.length s) && Ascii.eqb c0 PyStr.dquote
         && bool_decide (last_char s = Some PyStr.dquote)
      then PyStr.take (String.length s - 2) (PyStr.drop 1 s)
      else s
  | "" => s
  end.

(** Truth value of a stored parameter ([if value:]). *)
Definition truthy (v : pyval) : bool :=
  match v with
  | VStr s => negb (is_empty s)
  | VBool b => b
  | VList l => match l with [] => false | _ => true end
  end.

(** [p.get(key, False)] used as a condition. *)
Definition get_flag (p : gmap string pyval) (key : string) : bool :=
  match p !! key with
  | Some v => truthy v
  | None => false
  end.

(** [p.get(key, dflt)] where the source goes on to use the value as a list
    of strings. *)
Definition get_list (p : gmap string pyval) (key : string) (dflt : list string)
  : option (list string) :=
  match p !! key with
  | None => Some dflt
  | Some (VList l) => Some l
  | Some _ => None
  end.

(** ['True' if p.get('state') == 'On' else 'False'] *)
Definition state_attr (p : gmap string pyval) : string :=
  match p !! "state" with
  | Some (VStr v) => if String.eqb v "On" then "True" else "False"
  | _ => "False"
  end.

(** [while len(buttons) < 3: buttons.append('')], then [buttons[:3]] *)
Definition three_buttons (buttons : list string) : list string :=
  List.firstn 3 (buttons ++ List.repeat "" (3 - List.length buttons))%list.

Definition button_xml (btn : string) : string :=
  if is_empty btn then "<Button></Button>"
  else "<Button><Calculation>" ++ _cdata btn ++ "</Calculation></Button>".

Definition escape_comment (text : string) : string :=
  let text := PyStr.replace_char "&" "&amp;" text in
  let text := PyStr.replace_char "<" "&lt;" text in
  let text := PyStr.replace_char ">" "&gt;" text in
  let text := PyStr.replace_char "010" "&#10;" text in
  PyStr.replace_char PyStr.dquote "&quot;" text.

(** [<Step enable="True" id="ID" name="NAME">] *)
Definition step_open (id name : string) : string :=
  PyStr.qq "<Step enable='True' id='" ++ id ++ PyStr.qq "' name='" ++ name ++ PyStr.qq "'>".

Definition calc (value : string) : string :=
  "<Calculation>" ++ _cdata value ++ "</Calculation>".

(** [step_to_xml].  [None] stands for a parameter whose value is not of the
    type the recognizer stores under its key; the model does not follow the
    source there (it raises, or formats the [repr] of the value). *)
Definition step_to_xml (s : ParsedStep) : option string :=
  let st := step_type s in
  let p := step_params s in
  if String.eqb st "comment" then
    text ← get_str p "text" "";
    Some (step_open "89" "# (comment)" ++ "<Text>" ++ escape_comment text ++ "</Text></Step>")
  else if String.eqb st "set_error_capture" then
    Some (step_open "86" "Set Error Capture"
          ++ PyStr.qq "<Set state='" ++ state_attr p ++ PyStr.qq "'></Set></Step>")
  else if String.eqb st "allow_user_abort" then
    Some (step_open "85" "Allow User Abort"
          ++ PyStr.qq "<Set state='" ++ state_attr p ++ PyStr.qq "'></Set></Step>")
  else if String.eqb st "set_variable" then
    name ← get_str p "name" "";
    value ← get_str p "value" "";
    Some (step_open "141" "Set Variable"
          ++ "<Value>" ++ calc value ++ "</Value>"
          ++ "<Repetition>" ++ calc "1" ++ "</Repetition>"
          ++ "<Name>" ++ name ++ "</Name></Step>")
  else if String.eqb st "set_field_by_name" then
    target ← get_str p "target" "";
    value ← get_str p "value" "";
    Some (step_open "147" "Set Field By Name"
          ++ "<Result>" ++ calc value ++ "</Result>"
          ++ "<TargetName>" ++ calc target ++ "</TargetName></Step>")
  else if String.eqb st "if" then
    c ← get_str p "calc" "";
    Some (step_open "68" "If" ++ calc c ++ "</Step>")
  else if String.eqb st "else_if" then
    c ← get_str p "calc" "";
    Some (step_open "125" "Else If" ++ calc c ++ "</Step>")
  else if String.eqb st "else" then
    Some (step_open "69" "Else" ++ "</Step>")
  else if String.eqb st "end_if" then
    Some (step_open "70" "End If" ++ "</Step>")
  else if String.eqb st "loop" then
    Some (step_open "71" "Loop" ++ PyStr.qq "<FlushType value='Always'></FlushType></Step>")
  else if String.eqb st "exit_loop_if" then
    c ← get_str p "calc" "";
    Some (step_open "72" "Exit Loop If" ++ calc c ++ "</Step>")
  else if String.eqb st "end_loop" then
    Some (step_open "73" "End Loop" ++ "</Step>")
  else if String.eqb st "show_custom_dialog" then
    title ← get_str p "title" (PyStr.qq "''");
    message ← get_str p "message" (PyStr.qq "''");
    buttons ← get_list p "buttons" [PyStr.qq "'OK'"];
    Some (step_open "87" "Show Custom Dialog"
          ++ "<Title>" ++ calc title ++ "</Title>"
          ++ "<Message>" ++ calc message ++ "</Message>"
          ++ "<Buttons>"
          ++ PyStr.concat (List.map button_xml (three_buttons buttons))
          ++ "</Buttons></Step>")
  else if String.eqb st "exit_script" then
    result_val ← get_str p "result" "";
    Some (if is_empty result_val
          then step_open "103" "Exit Script" ++ "</Step>"
          else step_open "103" "Exit Script" ++ calc result_val ++ "</Step>")
  else if String.eqb st "commit_records" then
    Some (step_open "75" "Commit Records/Requests"
          ++ (if get_flag p "no_dialog"
              then PyStr.qq "<NoInteract state='True'></NoInteract>" else "")
          ++ "</Step>")
  else if String.eqb st "perform_script" then
    script_name ← get_str p "script_name" "";
    param ← get_str p "parameter" "";
    Some (step_open "1" "Perform Script"
          ++ (if is_empty param then "" else calc param)
          ++ "<Text>" ++ _strip_outer_quotes script_name ++ "</Text>"
          ++ "</Step>")
  else if String.eqb st "go_to_layout" then
    layout0 ← get_str p "layout" "";
    let layout := _strip_outer_quotes layout0 in
    Some (if is_empty layout
          then step_open "6" "Go to Layout"
               ++ PyStr.qq "<LayoutDestination value='CurrentLayout'></LayoutDestination>"
               ++ PyStr.qq "<Layout id='0' name=''></Layout></Step>"
          else step_open "6" "Go to Layout"
               ++ PyStr.qq "<LayoutDestination value='ByName'></LayoutDestination>"
               ++ PyStr.qq "<Layout id='0' name='" ++ layout ++ PyStr.qq "'></Layout></Step>")
  else if String.eqb st "insert_from_url" then
    url ← get_str p "url" "";
    curl ← get_str p "curl" "";
    Some (step_open "160" "Insert from URL"
          ++ PyStr.qq "<NoInteract state='False'></NoInteract>"
          ++ PyStr.qq "<DontEncodeURL state='False'></DontEncodeURL>"
          ++ PyStr.qq "<SelectAll state='False'></SelectAll>"
          ++ PyStr.qq "<VerifySSLCertificates state='False'></VerifySSLCertificates>"
          ++ (if is_empty url then "" else "<URL>" ++ calc url ++ "</URL>")
          ++ (if is_empty curl then "" else "<CURLOptions>" ++ calc curl ++ "</CURLOptions>")
          ++ "</Step>")
  else if String.eqb st "go_to_record" then
    direction ← get_str p "direction" "First";
    Some (step_open "16" "Go to Record/Request/Page"
          ++ PyStr.qq "<RowPageLocation value='" ++ direction ++ PyStr.qq "'></RowPageLocation>"
          ++ PyStr.qq "<NoInteract state='False'></NoInteract></Step>")
  else if String.eqb st "new_record" then
    Some (step_open "7" "New Record/Request" ++ "</Step>")
  else if String.eqb st "enter_find_mode" then
    Some (step_open "22" "Enter Find Mode"
          ++ PyStr.qq "<Pause state='" ++ (if get_flag p "pause" then "True" else "False")
          ++ PyStr.qq "'></Pause>"
          ++ PyStr.qq "<Restore state='False'></Restore></Step>")
  else if String.eqb st "perform_find" then
    Some (step_open "28" "Perform Find" ++ PyStr.qq "<Restore state='False'></Restore></Step>")
  else if String.eqb st "sort_records" then
    Some (step_open "39" "Sort Records"
          ++ PyStr.qq "<NoInteract state='False'></NoInteract><Restore state='False'></Restore></Step>")
  else
    Some ("<!-- Unknown step: " ++ st ++ " -->").

Definition snippet_open : string := PyStr.qq "<fmxmlsnippet type='FMObjectList'>".
Definition snippet_close : string := "</fmxmlsnippet>".

(** What one iteration of the loop of [generate_xml] appends to [xml_parts]. *)
Definition step_xml (s : ParsedStep) : option string :=
  xml ← step_to_xml s;
  Some (if enabled s then xml
        else PyStr.replace_first (PyStr.qq "enable='True'") (PyStr.qq "enable='False'") xml).

Fixpoint generate_loop (steps : list ParsedStep) (xml_parts : list string)
  : option (list string) :=
  match steps with
  | [] => Some xml_parts
  | s :: rest => xml ← step_xml s; generate_loop rest (xml_parts ++ [xml])%list
  end.

(** [generate_xml] *)
Definition generate_xml (steps : list ParsedStep) : option string :=
  xml_parts ← generate_loop steps [snippet_open];
  Some (PyStr.concat (xml_parts ++ [snippet_close])%list).

End Generator.

Set Warnings "-register-all".

(** ** The element tree of [xml.etree.ElementTree]

    [decompile_xml] reads its input through [ET.fromstring].  The library is
    not part of the repository; it is modelled here on the fragment of XML
    that the generator writes and FileMaker snippets use: elements,
    attributes written [name="value"] or [name='value'], character data,
    the five named
    entities, decimal character references below 128, CDATA sections and
    comments.  [fromstring] answers [None] on a document that is malformed
    or lies outside this fragment (processing instructions, DOCTYPE,
    namespaces, hexadecimal references, carriage returns, tabs and line
    breaks inside attribute values, blanks around the [=] of an
    attribute). *)

Module ET.

Inductive element : Type :=
| Element (tag : string) (attrib : gmap string string) (text : option string)
          (children : list element).

Definition tag (e : element) : string := let '(Element t _ _ _) := e in t.
Definition attrib (e : element) : gmap string string := let '(Element _ a _ _) := e in a.
Definition text (e : element) : option string := let '(Element _ _ x _) := e in x.
Definition children (e : element) : list element := let '(Element _ _ _ c) := e in c.

(** [elem.get(key, dflt)] *)
Definition get (e : element) (key dflt : string) : string :=
  default dflt (attrib e !! key).

(** [elem.find(tag)]: the first child with that tag. *)
Definition find (e : element) (t : string) : option element :=
  List.find (fun c => String.eqb (tag c) t) (children e).

(** [elem.findall(tag)]: the children with that tag. *)
Definition findall (e : element) (t : string) : list element :=
  List.filter (fun c => String.eqb (tag c) t) (children e).

(** [elem.iter(tag)]: the element and its descendants with that tag, in
    document order. *)
Fixpoint iter (t : string) (e : element) : list element :=
  let '(Element _ _ _ cs) := e in
  (if String.eqb (tag e) t then [e] else [])
  ++ (fix iter_all (l : list element) : list element :=
        match l with
        | [] => []
        | c :: l' => iter t c ++ iter_all l'
        end) cs.

(** *** The parser, one character at a time *)

Record open_elem : Type := mkOpen {
  o_tag : string;
  o_attrib : gmap string string;
  o_text : string;
  o_children : list element
}.

Inductive mode : Type :=
| Content
| Brackets (seen : nat)          (* in content, after one or more []]] *)
| Lt
| OpenName (name : string)
| InTag (name : string) (attrs : gmap string string)
| AttrName (name : string) (attrs : gmap string string) (an : string)
| AttrQuote (name : string) (attrs : gmap string string) (an : string)
| AttrVal (name : string) (attrs : gmap string string) (an : string) (quote : ascii)
          (val : string)
| AttrEntity (name : string) (attrs : gmap string string) (an : string) (quote : ascii)
             (val : string) (ent : string)
| AfterAttr (name : string) (attrs : gmap string string)
| EmptyTag (name : string) (attrs : gmap string string)
| CloseName (name : string)
| CloseSpace (name : string)
| Bang (seen : string)
| Comment (dashes : nat)
| CData (brackets : nat)
| Entity (ent : string).

Record pstate : Type := mkP {
  p_mode : mode;
  p_stack : list open_elem;      (* innermost open element first *)
  p_root : option element
}.

Definition is_name_start (c : ascii) : bool :=
  PyStr.is_alpha c || Ascii.eqb c "_".

Definition is_name_char (c : ascii) : bool :=
  is_name_start c || PyStr.is_digit c || Ascii.eqb c "-" || Ascii.eqb c ".".

(** The characters the model reads: tab, newline and what lies above the
    control characters.  A parser rejects the other control characters; a
    carriage return is outside the model. *)
Definition is_xml_char (c : ascii) : bool :=
  Ascii.eqb c "009" || Ascii.eqb c "010" || (32 <=? PyStr.code c)%N.

Definition is_xml_space (c : ascii) : bool :=
  Ascii.eqb c " " || Ascii.eqb c "009" || Ascii.eqb c "010".

Fixpoint decimal_value (acc : N) (s : string) : option N :=
  match s with
  | "" => Some acc
  | String c s' =>
      if PyStr.is_digit c then decimal_value (acc * 10 + (PyStr.code c - 48)) s'
      else None
  end.

(** The character an entity or character reference [&ent;] stands for. *)
Definition entity_char (ent : string) : option ascii :=
  if String.eqb ent "amp" then Some "&"%char
  else if String.eqb ent "lt" then Some "<"%char
  else if String.eqb ent "gt" then Some ">"%char
  else if String.eqb ent "quot" then Some PyStr.dquote
  else if String.eqb ent "apos" then Some "'"%char
  else match ent with
       | String "#" (String d ds) =>
           n ← decimal_value 0 (String d ds);
           if (n <? 128)%N && is_xml_char (ascii_of_N n)
           then Some (ascii_of_N n) else None
       | _ => None
       end.

(** Character data reaches the [text] of the innermost open element while
    it has no child yet; after a child it belongs to that child's [tail],
    which the decompiler never reads. *)
Definition add_text (c : ascii) (stack : list open_elem) : option (list open_elem) :=
  match stack with
  | [] => if is_xml_space c then Some [] else None
  | o :: rest =>
      Some (match o_children o with
            | [] => mkOpen (o_tag o) (o_attrib o) (push_char (o_text o) c) (o_children o)
            | _ => o
            end :: rest)
  end.

Definition close (o : open_elem) : element :=
  Element (o_tag o) (o_attrib o)
          (if is_empty (o_text o) then None else Some (o_text o)) (o_children o).

(** An element is complete: it becomes the last child of its parent, or
    the root. *)
Definition add_element (e : element) (st : pstate) : option pstate :=
  match p_stack st with
  | o :: rest =>
      Some (mkP Content
                (mkOpen (o_tag o) (o_attrib o) (o_text o) (o_children o ++ [e]) :: rest)
                (p_root st))
  | [] =>
      match p_root st with
      | None => Some (mkP Content [] (Some e))
      | Some _ => None
      end
  end.

Definition start_element (name : string) (attrs : gmap string string) (st : pstate)
  : option pstate :=
  match p_stack st, p_root st with
  | [], Some _ => None
  | _, _ => Some (mkP Content (mkOpen name attrs "" [] :: p_stack st) (p_root st))
  end.

Definition end_element (name : string) (st : pstate) : option pstate :=
  match p_stack st with
  | o :: rest =>
      if String.eqb (o_tag o) name
      then add_element (close o) (mkP Content rest (p_root st))
      else None
  | [] => None
  end.

Definition with_mode (m : mode) (st : pstate) : option pstate :=
  Some (mkP m (p_stack st) (p_root st)).

(** One character of content, [seen] closing brackets after the last
    other character: the text []]>] is not allowed there. *)
Definition content_char (seen : nat) (st : pstate) (c : ascii) : option pstate :=
  if Ascii.eqb c "<" then with_mode Lt st
  else if Ascii.eqb c "&" then
    match p_stack st with [] => None | _ => with_mode (Entity "") st end
  else
    stack ← add_text c (p_stack st);
    Some (mkP (if Ascii.eqb c "]" then Brackets (S seen) else Content) stack (p_root st)).

Definition feed (st : pstate) (c : ascii) : option pstate :=
  if negb (is_xml_char c) then None else
  match p_mode st with
  | Content => content_char 0 st c
  | Brackets seen =>
      if Ascii.eqb c ">" && Nat.leb 2 seen then None else content_char seen st c
  | Lt =>
      if Ascii.eqb c "/" then with_mode (CloseName "") st
      else if Ascii.eqb c "!" then with_mode (Bang "") st
      else if is_name_start c then with_mode (OpenName (String c "")) st
      else None
  | OpenName name =>
      if is_name_char c then with_mode (OpenName (push_char name c)) st
      else if is_xml_space c then with_mode (InTag name ∅) st
      else if Ascii.eqb c ">" then start_element name ∅ st
      else if Ascii.eqb c "/" then with_mode (EmptyTag name ∅) st
      else None
  | InTag name attrs =>
      if is_xml_space c then Some st
      else if Ascii.eqb c ">" then start_element name attrs st
      else if Ascii.eqb c "/" then with_mode (EmptyTag name attrs) st
      else if is_name_start c then with_mode (AttrName name attrs (String c "")) st
      else None
  | AttrName name attrs an =>
      if is_name_char c then with_mode (AttrName name attrs (push_char an c)) st
      else if Ascii.eqb c "=" then
        match attrs !! an with
        | None => if String.eqb an "xmlns" then None
                  else with_mode (AttrQuote name attrs an) st
        | Some _ => None
        end
      else None
  | AttrQuote name attrs an =>
      if Ascii.eqb c PyStr.dquote || Ascii.eqb c "'"
      then with_mode (AttrVal name attrs an c "") st
      else None
  | AttrVal name attrs an quote val =>
      if Ascii.eqb c quote then with_mode (AfterAttr name (<[an := val]> attrs)) st
      else if Ascii.eqb c "<" || Ascii.eqb c "009" || Ascii.eqb c "010" then None
      else if Ascii.eqb c "&" then with_mode (AttrEntity name attrs an quote val "") st
      else with_mode (AttrVal name attrs an quote (push_char val c)) st
  | AttrEntity name attrs an quote val ent =>
      if Ascii.eqb c ";" then
        d ← entity_char ent;
        with_mode (AttrVal name attrs an quote (push_char val d)) st
      else with_mode (AttrEntity name attrs an quote val (push_char ent c)) st
  | AfterAttr name attrs =>
      if is_xml_space c then with_mode (InTag name attrs) st
      else if Ascii.eqb c ">" then start_element name attrs st
      else if Ascii.eqb c "/" then with_mode (EmptyTag name attrs) st
      else None
  | EmptyTag name attrs =>
      if Ascii.eqb c ">" then
        st' ← start_element name attrs st; end_element name st'
      else None
  | CloseName name =>
      if is_name_char c then with_mode (CloseName (push_char name c)) st
      else if is_xml_space c then with_mode (CloseSpace name) st
      else if Ascii.eqb c ">" then end_element name st
      else None
  | CloseSpace name =>
      if is_xml_space c then Some st
      else if Ascii.eqb c ">" then end_element name st
      else None
  | Bang seen =>
      let seen' := push_char seen c in
      if String.eqb seen' "--" then with_mode (Comment 0) st
      else if String.eqb seen' "[CDATA[" then
        match p_stack st with [] => None | _ => with_mode (CData 0) st end
      else if PyStr.startswith "--" seen' || PyStr.startswith "[CDATA[" seen'
      then with_mode (Bang seen') st
      else None
  | Comment dashes =>
      match dashes with
      | 0 => with_mode (Comment (if Ascii.eqb c "-" then 1 else 0)) st
      | 1 => with_mode (Comment (if Ascii.eqb c "-" then 2 else 0)) st
      | _ => if Ascii.eqb c ">" then with_mode Content st else None
      end
  | CData brackets =>
      if Ascii.eqb c "]" then
        match brackets with
        | 0 => with_mode (CData 1) st
        | 1 => with_mode (CData 2) st
        | _ => stack ← add_text "]" (p_stack st); Some (mkP (CData 2) stack (p_root st))
        end
      else if Ascii.eqb c ">" && Nat.eqb brackets 2 then with_mode Content st
      else
        stack ← fold_chars (fun acc d => acc ≫= add_text d)
                           (PyStr.repeat_str "]" brackets ++ String c "")%string
                           (Some (p_stack st));
        Some (mkP (CData 0) stack (p_root st))
  | Entity ent =>
      if Ascii.eqb c ";" then
        d ← entity_char ent;
        stack ← add_text d (p_stack st);
        Some (mkP Content stack (p_root st))
      else with_mode (Entity (push_char ent c)) st
  end.

Fixpoint feed_all (s : string) (st : pstate) : option pstate :=
  match s with
  | "" => Some st
  | String c s' => st' ← feed st c; feed_all s' st'
  end.

(** [ET.fromstring(xml_text)] *)
Definition fromstring (xml_text : string) : option element :=
  st ← feed_all xml_text (mkP Content [] None);
  match p_mode st, p_stack st with
  | Content, [] => p_root st
  | _, _ => None
  end.

End ET.

(** ** Stage 4: the decompiler *)

Section Decompiler.
Local Open Scope string_scope.

(** [value or dflt], for a value that is [None] or a string. *)
Definition or_str (o : option string) (dflt : string) : string :=
  match o with
  | Some s => if is_empty s then dflt else s
  | None => dflt
  end.

(** [_get_text] *)
Definition _get_text (elem : ET.element) (t : string) : option string :=
  child ← ET.find elem t;
  Some (PyStr.strip (or_str (ET.text child) "")).

(** [_get_calc] *)
Definition _get_calc (elem : ET.element) (parent_tag : string) : option string :=
  parent ← ET.find elem parent_tag;
  c ← ET.find parent "Calculation";
  Some (PyStr.strip (or_str (ET.text c) "")).

(** [_get_calc_direct] *)
Definition _get_calc_direct (elem : ET.element) : option string :=
  c ← ET.find elem "Calculation";
  Some (PyStr.strip (or_str (ET.text c) "")).

(** [child.text.strip() if child is not None and child.text else ''] *)
Definition stripped_text (child : option ET.element) : string :=
  match child with
  | Some e => PyStr.strip (or_str (ET.text e) "")
  | None => ""
  end.

(** ['On' if set_elem is not None and set_elem.get('state') == 'True' else 'Off'] *)
Definition on_off_state (step_elem : ET.element) : string :=
  match ET.find step_elem "Set" with
  | Some set_elem =>
      if bool_decide (ET.attrib set_elem !! "state" = Some "True") then "On" else "Off"
  | None => "Off"
  end.

(** [parts.append(label + value)] under [if value:] *)
Definition labelled (label value : string) : list string :=
  if is_empty value then [] else [label ++ value].

Definition indent_str : string := "    ".

Definition bracket_line (head : string) (parts : list string) : string :=
  head ++ " [ " ++ PyStr.join " ; " parts ++ " ]".

(** The indentation a step is printed at: [indent_level] after the
    decrement for End If, End Loop, Else and Else If. *)
Definition indent_before (step_id : string) (indent_level : nat) : nat :=
  if String.eqb step_id "70" || String.eqb step_id "73"
     || String.eqb step_id "69" || String.eqb step_id "125"
  then Nat.max 0 (indent_level - 1)
  else indent_level.

(** The text of one step without its padding and disable marker, and
    whether [indent_level] is incremented after it.  A comment gives one
    text per line. *)
Definition step_texts (step_elem : ET.element) : list string * bool :=
  let step_id := ET.get step_elem "id" "" in
  let step_name := ET.get step_elem "name" "" in
  if String.eqb step_id "89" then
    let text := or_str (_get_text step_elem "Text") "" in
    (List.map (fun cl => "# " ++ cl) (PyStr.split_char "010" text), false)
  else if String.eqb step_id "86" then
    (["Set Error Capture [ " ++ on_off_state step_elem ++ " ]"], false)
  else if String.eqb step_id "85" then
    (["Allow User Abort [ " ++ on_off_state step_elem ++ " ]"], false)
  else if String.eqb step_id "141" then
    let name := or_str (_get_text step_elem "Name") "$?" in
    let value := or_str (_get_calc step_elem "Value") "" in
    (["Set Variable [ " ++ name ++ " ; Value: " ++ value ++ " ]"], false)
  else if String.eqb step_id "147" then
    let target := or_str (_get_calc step_elem "TargetName") "?" in
    let value := or_str (_get_calc step_elem "Result") "" in
    (["Set Field By Name [ " ++ target ++ " ; " ++ value ++ " ]"], false)
  else if String.eqb step_id "68" then
    (["If [ " ++ or_str (_get_calc_direct step_elem) "?" ++ " ]"], true)
  else if String.eqb step_id "125" && String.eqb step_name "Else If" then
    (["Else If [ " ++ or_str (_get_calc_direct step_elem) "?" ++ " ]"], true)
  else if String.eqb step_id "69" then
    (["Else"], true)
  else if String.eqb step_id "70" && String.eqb step_name "End If" then
    (["End If"], false)
  else if String.eqb step_id "71" && String.eqb step_name "Loop" then
    (["Loop"], true)
  else if String.eqb step_id "72" then
    (["Exit Loop If [ " ++ or_str (_get_calc_direct step_elem) "?" ++ " ]"], false)
  else if String.eqb step_id "73" then
    (["End Loop"], false)
  else if String.eqb step_id "87" then
    let title := or_str (_get_calc step_elem "Title") (PyStr.qq "''") in
    let message := or_str (_get_calc step_elem "Message") (PyStr.qq "''") in
    let btn_list :=
      match ET.find step_elem "Buttons" with
      | Some buttons_elem =>
          List.flat_map
            (fun btn =>
               match ET.find btn "Calculation" with
               | Some calc_elem =>
                   match ET.text calc_elem with
                   | Some t => if is_empty t then [] else [PyStr.strip t]
                   | None => []
                   end
               | None => []
               end)
            (ET.findall buttons_elem "Button")
      | None => []
      end in
    ([bracket_line "Show Custom Dialog" ([title; message] ++ btn_list)%list], false)
  else if String.eqb step_id "103" then
    let c := or_str (_get_calc_direct step_elem) "" in
    ([if is_empty c then "Exit Script" else "Exit Script [ " ++ c ++ " ]"], false)
  else if String.eqb step_id "75" then
    match ET.find step_elem "NoInteract" with
    | Some no_interact =>
        if bool_decide (ET.attrib no_interact !! "state" = Some "True")
        then (["Commit Records [ No dialog ]"], false)
        else (["Commit Records"], false)
    | None => (["Commit Records"], false)
    end
  else if String.eqb step_id "1" then
    let name :=
      match ET.find step_elem "Script" with
      | Some script_elem =>
          or_str (Some (or_str (Some (ET.get script_elem "name" ""))
                               (or_str (_get_text step_elem "Text") ""))) "?"
      | None => or_str (_get_text step_elem "Text") "?"
      end in
    let param := or_str (_get_calc_direct step_elem) "" in
    ([if is_empty param
      then PyStr.qq "Perform Script [ '" ++ name ++ PyStr.qq "' ]"
      else PyStr.qq "Perform Script [ '" ++ name ++ PyStr.qq "' ; " ++ param ++ " ]"], false)
  else if String.eqb step_id "6" then
    let name := match ET.find step_elem "Layout" with
                | Some layout_elem => ET.get layout_elem "name" ""
                | None => ""
                end in
    let dest := match ET.find step_elem "LayoutDestination" with
                | Some dest_elem => ET.get dest_elem "value" ""
                | None => ""
                end in
    ([if String.eqb dest "OriginalLayout" then "Go to Layout [ original layout ]"
      else if negb (is_empty name)
           then PyStr.qq "Go to Layout [ '" ++ name ++ PyStr.qq "' ]"
           else "Go to Layout [ current layout ]"], false)
  else if String.eqb step_id "160" then
    let target := or_str (_get_calc step_elem "Field") "" in
    let url := or_str (_get_calc step_elem "URL") "" in
    let curl := or_str (_get_calc step_elem "CURLOptions") "" in
    let parts := (labelled "Target: " target ++ labelled "URL: " url
                  ++ labelled "cURL: " curl)%list in
    ([match parts with
      | [] => "Insert from URL"
      | _ => bracket_line "Insert from URL" parts
      end], false)
  else if String.eqb step_id "16" then
    let direction := match ET.find step_elem "RowPageLocation" with
                     | Some dir_elem => ET.get dir_elem "value" "?"
                     | None => "?"
                     end in
    (["Go to Record/Request/Page [ " ++ direction ++ " ]"], false)
  else if String.eqb step_id "7" && String.eqb step_name "New Record/Request" then
    (["New Record/Request"], false)
  else if String.eqb step_id "22" then (["Enter Find Mode"], false)
  else if String.eqb step_id "28" then (["Perform Find"], false)
  else if String.eqb step_id "39" then (["Sort Records"], false)
  else if String.eqb step_id "76" then
    let field_elem := ET.find step_elem "Field" in
    let table := match field_elem with Some f => ET.get f "table" "" | None => "" end in
    let fname := match field_elem with Some f => ET.get f "name" "" | None => "?" end in
    let c := or_str (_get_calc_direct step_elem) "" in
    let field_ref := if is_empty table then fname else table ++ "::" ++ fname in
    ([if is_empty c then "Set Field [ " ++ field_ref ++ " ]"
      else "Set Field [ " ++ field_ref ++ " ; " ++ c ++ " ]"], false)
  else if String.eqb step_id "61" then
    let field_target := stripped_text (ET.find step_elem "Field") in
    let text_content := or_str (_get_text step_elem "Text") "" in
    let sa := match ET.find step_elem "SelectAll" with
              | Some select_all => ET.get select_all "state" "False"
              | None => "False"
              end in
    let preview := if Nat.ltb 80 (String.length text_content)
                   then PyStr.take 80 text_content ++ "..." else text_content in
    let preview := PyStr.replace_char "010" " " (PyStr.replace_char "013" " " preview) in
    let parts := ((if String.eqb sa "True" then ["Select All"] else [])
                  ++ labelled "Target: " field_target
                  ++ (if is_empty preview then []
                      else [(PyStr.qq "'" ++ preview ++ PyStr.qq "'")%string]))%list in
    ([bracket_line "Insert Text" parts], false)
  else if String.eqb step_id "122" then
    let name_calc := or_str (_get_calc step_elem "Name") "" in
    let layout_name := match ET.find step_elem "Layout" with
                       | Some layout_elem => ET.get layout_elem "name" ""
                       | None => ""
                       end in
    let style := match ET.find step_elem "NewWndStyles" with
                 | Some style_elem => ET.get style_elem "Style" ""
                 | None => ""
                 end in
    let parts := (labelled "Name: " name_calc
                  ++ (if is_empty layout_name then []
                      else [(PyStr.qq "Layout: '" ++ layout_name ++ PyStr.qq "'")%string])
                  ++ labelled "Style: " style)%list in
    ([match parts with
      | [] => "New Window"
      | _ => bracket_line "New Window" parts
      end], false)
  else if String.eqb step_id "31" then
    let state := match ET.find step_elem "WindowState" with
                 | Some ws_elem => ET.get ws_elem "value" "?"
                 | None => "?"
                 end in
    (["Adjust Window [ " ++ state ++ " ]"], false)
  else if String.eqb step_id "80" then (["Refresh Window"], false)
  else if String.eqb step_id "90" then (["Halt Script"], false)
  else if String.eqb step_id "226" then
    match ET.find step_elem "ConfigureLLMTemplate" with
    | Some tmpl =>
        let tname := or_str (_get_calc tmpl "TemplateName") "" in
        let provider := stripped_text (ET.find tmpl "ModelProvider") in
        ([bracket_line "Configure LLM Template"
            (labelled "Template: " tname ++ labelled "Provider: " provider)%list], false)
    | None => (["Configure LLM Template"], false)
    end
  else if String.eqb step_id "214" then
    match ET.find step_elem "LLMRequest" with
    | Some req =>
        let model := or_str (_get_calc req "Model") "" in
        let action := stripped_text (ET.find req "Action") in
        let account := or_str (_get_calc req "AccountName") "" in
        let prompt := or_str (_get_calc req "PromptMessage") "" in
        let scope := stripped_text (ET.find req "QueryScope") in
        let target := match ET.find step_elem "Field" with
                      | Some field_elem =>
                          let t := ET.get field_elem "table" "" in
                          let n := ET.get field_elem "name" "" in
                          if is_empty t then n else t ++ "::" ++ n
                      | None => ""
                      end in
        let stream := match ET.find step_elem "Stream" with
                      | Some stream_elem => ET.get stream_elem "state" ""
                      | None => ""
                      end in
        let tables := match ET.find req "TableAliases" with
                      | Some aliases =>
                          List.map (fun tbl => ET.get tbl "name" "") (ET.findall aliases "Table")
                      | None => []
                      end in
        let parts := (labelled "Action: " action ++ labelled "Model: " model
                      ++ labelled "Account: " account ++ labelled "Prompt: " prompt
                      ++ labelled "Target: " target
                      ++ (if String.eqb stream "True" then ["Stream: On"] else [])
                      ++ labelled "Scope: " scope
                      ++ (match tables with
                          | [] => []
                          | _ => [("Tables: " ++ PyStr.join ", " tables)%string]
                          end))%list in
        ([bracket_line "LLM Request" parts], false)
    | None => (["LLM Request"], false)
    end
  else
    ([step_name ++ " [id=" ++ step_id ++ "]"], false).

(** The body of [for step_elem in root.iter('Step')]: the lines appended
    and the new [indent_level]. *)
Definition decompile_step (indent_level : nat) (step_elem : ET.element)
  : list string * nat :=
  let step_id := ET.get step_elem "id" "" in
  let enable := ET.get step_elem "enable" "True" in
  let prefix := if String.eqb enable "True" then "" else "// " in
  let level := indent_before step_id indent_level in
  let pad := PyStr.repeat_str indent_str level in
  let '(texts, opens) := step_texts step_elem in
  (List.map (fun t => pad ++ prefix ++ t) texts, if opens then S level else level).

Fixpoint decompile_loop (elems : list ET.element) (lines : list string) (indent_level : nat)
  : list string :=
  match elems with
  | [] => lines
  | e :: rest =>
      let '(new, level) := decompile_step indent_level e in
      decompile_loop rest (lines ++ new)%list level
  end.

(** [decompile_xml] on a parsed document. *)
Definition decompile_root (root : ET.element) : string :=
  PyStr.join (String "010" "") (decompile_loop (ET.iter "Step" root) [] 0).

(** [decompile_xml]; [None] where the source returns its
    [XML Parse Error: ...] message or the document lies outside the modelled
    fragment of XML. *)
Definition decompile_xml (xml_text : string) : option string :=
  root ← ET.fromstring xml_text;
  Some (decompile_root root).

End Decompiler.

(** The compose route of [cmd_process]: parse, stop on parse errors,
    validate, stop on structural errors, generate. *)
Definition compose (text : string) : option string :=
  '(steps, parse_errors) ← parse_text text;
  match parse_errors with
  | [] => if is_valid (validate_structure steps) then generate_xml steps else None
  | _ => None
  end.

(** ** The report of the validator, and the command line *)

Section CommandLine.
Local Open Scope string_scope.

(** ["=" * 60] *)
Definition rule : string := PyStr.repeat_str "=" 60.

(** [ValidationResult.report] *)
Definition report (r : ValidationResult) : string :=
  PyStr.join (String "010" "")
    ([rule; "  FM_CP — Structural Validation"; rule]
     ++ (match errors r with
         | [] => []
         | _ => "" :: List.map (fun e => ("  ✗ " ++ e)%string) (errors r)
         end)
     ++ (match warnings r with
         | [] => []
         | _ => "" :: List.map (fun w => ("  ⚠ " ++ w)%string) (warnings r)
         end)
     ++ [""]
     ++ [if is_valid r then "  ✓ PASS — Structure is valid"
         else ("  ✗ FAIL — " ++ PyStr.of_nat (List.length (errors r))
               ++ " error(s) found")%string]
     ++ [rule])%list.

(** [_is_fm_xml] *)
Definition _is_fm_xml (text : string) : bool :=
  let t := PyStr.strip text in
  PyStr.startswith t "<fmxmlsnippet" || PyStr.startswith t "<?xml".

(** [a in ('-o', '--output')] and [a in ('-c', '--clipboard')] *)
Definition is_output_flag (a : string) : bool :=
  String.eqb a "-o" || String.eqb a "--output".

Definition is_clipboard_flag (a : string) : bool :=
  String.eqb a "-c" || String.eqb a "--clipboard".

(** The loop [for i, a in enumerate(args)] of [cmd_process], on the
    arguments from index [i] on: [(output_file, file_path)] after it. *)
Fixpoint scan_args (args : list string) (skip_next : bool)
         (output_file file_path : option string) : option string * option string :=
  match args with
  | [] => (output_file, file_path)
  | a :: rest =>
      if skip_next then scan_args rest false output_file file_path
      else if is_output_flag a && negb (Nat.eqb (List.length rest) 0) then
        scan_args rest true (List.head rest) file_path
      else if negb (is_clipboard_flag a) then
        scan_args rest false output_file (Some a)
      else scan_args rest false output_file file_path
  end.

(** What [cmd_process] reads off its arguments. *)
Record cli_options : Type := mkOptions {
  clipboard_mode : bool;
  output_file : option string;
  file_path : option string
}.

Definition cmd_options (args : list string) : cli_options :=
  let '(o, f) := scan_args args false None None in
  mkOptions (List.existsb is_clipboard_flag args) o f.

(** How [cmd_process] ends on the content it has read.  Printing, the
    clipboard and the output file are left out. *)
Inductive outcome : Type :=
| Decompiled (plain_text : string)
| ParseFailed (parse_errors : list string)         (* [sys.exit(1)] *)
| StructureRejected (report_text : string)         (* [sys.exit(1)] *)
| Generated (xml : string) (warnings : list string).

(** The routing of [cmd_process] below [is_xml = _is_fm_xml(content)]. *)
Definition process (content : string) : option outcome :=
  if _is_fm_xml content then
    plain_text ← decompile_xml content;
    Some (Decompiled plain_text)
  else
    '(steps, parse_errors) ← parse_text content;
    match parse_errors with
    | _ :: _ => Some (ParseFailed parse_errors)
    | [] =>
        let val_result := validate_structure steps in
        if negb (is_valid val_result) then Some (StructureRejected (report val_result))
        else
          xml ← generate_xml steps;
          Some (Generated xml (warnings val_result))
    end.

End CommandLine.

(** * Scenario inputs and specification-side definitions *)

(** ** Scenario inputs *)

Definition nl : string := String "010" "".

(** The two physical lines of the accumulator scenario. *)
Definition set_variable_line1 : string := "Set Variable [ $x ; Value: (1+".
Definition set_variable_line2 : string := "2) ]".

(** The two-line input [If [ x = 1 ]] / [End Loop]. *)
Definition if_end_loop_text : string := ("If [ x = 1 ]" ++ nl ++ "End Loop")%string.

(** The three comment lines. *)
Definition three_comments_text : string := ("# a" ++ nl ++ "# b" ++ nl ++ "# c")%string.

(** The merged comment step the recognizer builds from them. *)
Definition merged_comment : ParsedStep :=
  step "comment" [("text", VStr ("a" ++ nl ++ "b" ++ nl ++ "c")%string)] 1 "# a".

(** The steps of [If [ x = 1 ]] / [End Loop]. *)
Definition if_end_loop_steps : list ParsedStep :=
  [step "if" [("calc", VStr "x = 1")] 1 "If [ x = 1 ]";
   step "end_loop" [] 2 "End Loop"].

(** ** The unknown-step fallback *)

Definition set_field_line : string := "Set Field [ Table::Field ; 1 ]".

Definition set_field_step : ParsedStep :=
  step "set_field" [("field", VStr "Table::Field"); ("value", VStr "1")] 1 set_field_line.

(** The splitter the specification describes, written from its words: a
    semicolon is a split point exactly when the balancer's state before it
    is outside every quoted run, not escaped, and at zero paren and bracket
    depth. *)
Record spec_split_state : Type := mkSpecSplit {
  ss_parts : list string;
  ss_current : string;
  ss_balancer : count_state
}.

Definition at_top_level (st : count_state) : bool :=
  negb (ct_escape st) && negb (ct_in_quote st)
  && (ct_paren st =? 0)%Z && (ct_bracket st =? 0)%Z.

Definition spec_split_step (st : spec_split_state) (ch : ascii) : spec_split_state :=
  if Ascii.eqb ch ";" && at_top_level (ss_balancer st)
  then mkSpecSplit (ss_parts st ++ [ss_current st]) "" (count_step (ss_balancer st) ch)
  else mkSpecSplit (ss_parts st) (push_char (ss_current st) ch)
                   (count_step (ss_balancer st) ch).

Definition spec_split_params (s : string) : list string :=
  let st := fold_chars spec_split_step s (mkSpecSplit [] "" count_init) in
  match ss_current st with
  | "" => ss_parts st
  | cur => ss_parts st ++ [cur]
  end.

(** A character that is no parenthesis. *)
Definition no_paren (c : ascii) : bool :=
  negb (Ascii.eqb c "(") && negb (Ascii.eqb c ")").

(** The splitter's state and the state of the splitter written from the
    specification say the same. *)
Definition split_states_agree (a : split_state) (b : spec_split_state) : Prop :=
  sp_parts a = ss_parts b
  /\ sp_current a = ss_current b
  /\ sp_depth_paren a = 0%Z
  /\ ct_paren (ss_balancer b) = 0%Z
  /\ sp_depth_bracket a = ct_bracket (ss_balancer b)
  /\ sp_in_quote a = ct_in_quote (ss_balancer b)
  /\ sp_escape a = ct_escape (ss_balancer b).

(** A dialog parameter list whose second parameter holds the string
    literal [");"] inside a call, and one whose first parameter holds the
    literal [")"] inside a call. *)
Definition quoted_paren_params : string := PyStr.qq "'T' ; Foo(');')".
Definition quoted_paren_params2 : string := PyStr.qq "Left(')';1) ; 'M'".

(** Some two neighbours of the list are comments of the same enabled
    state. *)
Fixpoint adjacent_mergeable (steps : list ParsedStep) : bool :=
  match steps with
  | s1 :: (s2 :: _) as rest => mergeable s1 s2 || adjacent_mergeable rest
  | _ => false
  end.

(** An error reported for a block left open at the end of the input. *)
Definition is_unclosed (d : diagnostic) : bool :=
  PyStr.startswith (diag_message d) "Unclosed ".

(** The frame was pushed for one of the steps [all]: it carries the kind
    and the line number of an [if] or [loop] step. *)
Definition opened_by (all : list ParsedStep) (f : frame) : Prop :=
  exists s, In s all
            /\ step_type s = frame_type f
            /\ line_num s = frame_line f
            /\ (frame_type f = "if" \/ frame_type f = "loop").

(** A step element with id 125 named [Else If], and one with id 125 named
    [Set Field]. *)
Definition else_if_elem : ET.element :=
  ET.Element "Step" (dict_of [("enable", "True"); ("id", "125"); ("name", "Else If")]) None
             [ET.Element "Calculation" ∅ (Some "x > 1") []].

Definition set_field_125_elem : ET.element :=
  ET.Element "Step" (dict_of [("enable", "True"); ("id", "125"); ("name", "Set Field")]) None [].

(** The fixed text the decompiler prints before a step's own text: the
    padding for [level] and the disable marker. *)
Definition line_head (level : nat) (e : ET.element) : string :=
  (PyStr.repeat_str indent_str level
   ++ (if String.eqb (ET.get e "enable" "True") "True" then "" else "// "))%string.

(** The step types for which [step_to_xml] has a branch of its own. *)
Definition encoded_kinds : list string :=
  ["comment"; "set_error_capture"; "allow_user_abort"; "set_variable";
   "set_field_by_name"; "if"; "else_if"; "else"; "end_if"; "loop";
   "exit_loop_if"; "end_loop"; "show_custom_dialog"; "exit_script";
   "commit_records"; "perform_script"; "go_to_layout"; "insert_from_url";
   "go_to_record"; "new_record"; "enter_find_mode"; "perform_find";
   "sort_records"].

Definition has_encoder (ty : string) : bool :=
  List.existsb (String.eqb ty) encoded_kinds.

(** The same step with [enabled = True]. *)
Definition enable (s : ParsedStep) : ParsedStep :=
  mkStep (step_type s) (step_params s) (line_num s) (raw_text s) true.

(** How every encoded element starts, enabled and disabled. *)
Definition tag_enabled : string := PyStr.qq "<Step enable='True'".
Definition tag_disabled : string := PyStr.qq "<Step enable='False'".

Definition disabled_set_field_line : string := ("// " ++ set_field_line)%string.

(** ** Round trips *)

(** A line that is not blank. *)
Definition nonblank (l : string) : bool := negb (is_empty (PyStr.strip l)).

(** A text up to indentation, trailing blanks and blank lines: its
    non-blank lines, stripped. *)
Definition canonical_lines (text : string) : list string :=
  List.map PyStr.strip (List.filter nonblank (PyStr.split_char "010" text)).

(** A text with all its whitespace removed: texts that differ here differ
    up to any canonicalization of whitespace. *)
Fixpoint squeeze (s : string) : string :=
  match s with
  | "" => ""
  | String c s' => if PyStr.is_space c then squeeze s' else String c (squeeze s')
  end.

Definition find_mode_pause_line : string := "Enter Find Mode [ Pause ]".

(** The instruction lines without a parameter that the decompiler prints
    and the recognizer reads back to the same step. *)
Definition plain_lines : list string :=
  ["Else"; "End If"; "Loop"; "End Loop"; "Exit Script";
   "Commit Records"; "Commit Records [ No dialog ]";
   "New Record/Request"; "Enter Find Mode"; "Perform Find"; "Sort Records";
   "Set Error Capture [ On ]"; "Set Error Capture [ Off ]";
   "Allow User Abort [ On ]"; "Allow User Abort [ Off ]";
   "Go to Record/Request/Page [ First ]"; "Go to Record/Request/Page [ Last ]";
   "Go to Record/Request/Page [ Next ]"; "Go to Record/Request/Page [ Previous ]"].

(** The instructions that carry one calculation in brackets. *)
Definition calc_keywords : list string :=
  ["If"; "Else If"; "Exit Loop If"; "Exit Script"].

Fixpoint all_chars (p : ascii -> bool) (s : string) : bool :=
  match s with
  | "" => true
  | String c s' => p c && all_chars p s'
  end.

Definition no_newline (s : string) : bool :=
  all_chars (fun c => negb (Ascii.eqb c "010")) s.

Definition printable (c : ascii) : bool :=
  (32 <=? PyStr.code c)%N && (PyStr.code c <? 127)%N.

Definition starts_nonspace (s : string) : bool :=
  match s with
  | String x _ => negb (PyStr.is_space x)
  | "" => false
  end.

Definition ends_nonspace (s : string) : bool :=
  match last_char s with
  | Some x => negb (PyStr.is_space x)
  | None => false
  end.

(** A calculation the round trip carries unchanged: not empty, printable
    ASCII, no blank at either end, and free of the CDATA terminator. *)
Definition plain_calc (c : string) : bool :=
  all_chars printable c && starts_nonspace c && ends_nonspace c
  && negb (PyStr.contains "]]>" c).

(** The line is a logical line by itself: the accumulator flushes it at
    once. *)
Definition complete_line (l : string) : bool :=
  let '(p, b) := _count_delimiters l in (p <=? 0)%Z && (b <=? 0)%Z.

Definition calc_line (kw c : string) : string := (kw ++ " [ " ++ c ++ " ]")%string.

(** The instruction lines of the fragment. *)
Inductive instruction_line : string -> Prop :=
| plain_instruction (l : string) :
    In l plain_lines -> instruction_line l
| calc_instruction (kw c : string) :
    In kw calc_keywords -> plain_calc c = true ->
    complete_line (calc_line kw c) = true ->
    instruction_line (calc_line kw c).

(** A text of the fragment, with blank lines and free indentation. *)
Definition loop_text : string :=
  ("Loop" ++ nl ++ "  If [ $i > Get(FoundCount) ]" ++ nl ++ "    Exit Loop If [ 1 ]" ++ nl
   ++ nl ++ "  Else If [ $list[2] = 0 ]" ++ nl ++ "Commit Records [ No dialog ]" ++ nl
   ++ "  End If  " ++ nl ++ "End Loop" ++ nl)%string.

(** For a keyword of [calc_keywords]: the step type, the parameter that
    holds the calculation, and the id and name of the element. *)
Definition calc_kind (kw : string) : string * string * string * string :=
  if String.eqb kw "If" then ("if", "calc", "68", "If")
  else if String.eqb kw "Else If" then ("else_if", "calc", "125", "Else If")
  else if String.eqb kw "Exit Loop If" then ("exit_loop_if", "calc", "72", "Exit Loop If")
  else ("exit_script", "result", "103", "Exit Script").

(** The step the recognizer builds from [KW [ c ]]. *)
Definition calc_step (kw c : string) (n : nat) : ParsedStep :=
  let '(ty, key, _, _) := calc_kind kw in
  step ty [(key, VStr c)] n (calc_line kw c).

(** The element the generator writes for it. *)
Definition calc_xml (kw c : string) : string :=
  let '(_, _, id, name) := calc_kind kw in
  (step_open id name ++ calc c ++ "</Step>")%string.

(** The element the parser builds from that. *)
Definition calc_elem (kw c : string) : ET.element :=
  let '(_, _, id, name) := calc_kind kw in
  ET.Element "Step" (dict_of [("enable", "True"); ("id", id); ("name", name)]) None
             [ET.Element "Calculation" ∅ (Some c) []].

(** The step, the XML and the element of an instruction line, as the code
    computes them. *)
Definition line_step (l : string) (n : nat) : ParsedStep :=
  match parse_plain l n with
  | Some (RStep s) => s
  | _ => step "" [] n l
  end.

Definition line_xml (l : string) : string :=
  default "" (step_xml (line_step l 0)).

Definition line_elem (l : string) : ET.element :=
  default (ET.Element "" ∅ None []) (ET.fromstring (line_xml l)).

(** What the round trip needs of one instruction line. *)
Record round_trips (l : string) : Prop := {
  rt_strip : PyStr.strip l = l;
  rt_nonempty : is_empty l = false;
  rt_no_marker : PyStr.startswith l "// " = false /\ PyStr.startswith l "#" = false;
  rt_no_newline : no_newline l = true;
  rt_complete : complete_line l = true;
  rt_parse : forall n, parse_plain l n = Some (RStep (line_step l n));
  rt_kind : forall n, is_comment (line_step l n) = false;
  rt_xml : forall n, step_xml (line_step l n) = Some (line_xml l);
  rt_feed : forall o stack root,
      ET.feed_all (line_xml l) (ET.mkP ET.Content (o :: stack) root)
      = ET.add_element (line_elem l) (ET.mkP ET.Content (o :: stack) root);
  rt_iter : ET.iter "Step" (line_elem l) = [line_elem l];
  rt_texts : exists opens, step_texts (line_elem l) = ([l], opens);
  rt_enable : ET.get (line_elem l) "enable" "True" = "True"
}.

(** What the generator writes before the calculation of [KW [ c ]]. *)
Definition calc_xml_head (kw : string) : string :=
  let '(_, _, id, name) := calc_kind kw in
  (step_open id name ++ "<Calculation><![CDATA[")%string.

(** The closing brackets a CDATA section holds back. *)
Definition pending (k : nat) : string := PyStr.repeat_str "]" k.

(** The accumulator holds nothing between two instruction lines. *)
Definition idle (st : acc_state) : Prop :=
  accumulator st = [] /\ paren_depth st = 0%Z /\ bracket_depth st = 0%Z.

(** The attributes of the envelope element. *)
Definition snippet_attrib : gmap string string := dict_of [("type", "FMObjectList")].

(** The type the recognizer stores under a key, and the encoder reads it
    at: a list of strings under [buttons], a truth value under [no_dialog]
    and [pause], a string under every other key. *)
Definition well_typed (k : string) (v : pyval) : Prop :=
  match v with
  | VStr _ => k <> "buttons" /\ k <> "no_dialog" /\ k <> "pause"
  | VList _ => k = "buttons"
  | VBool _ => k = "no_dialog" \/ k = "pause"
  end.

Definition typed (p : gmap string pyval) : Prop :=
  forall k v, p !! k = Some v -> well_typed k v.

Definition typed_step (s : ParsedStep) : Prop := typed (step_params s).

(** ** What a match of a pattern does *)

(** A successful match of [r] on subject [s] with captures [cs] leaves the
    suffix [rest] of [s] and the captures [cs']. *)
Fixpoint matches (r : Regex.re) (s : string) (cs : Regex.caps)
         (rest : string) (cs' : Regex.caps) : Prop :=
  match r with
  | Regex.Lit l => Regex.lit_match l s = Some rest /\ cs' = cs
  | Regex.Rep k lo hi g =>
      cs' = cs
      /\ exists w, s = (w ++ rest)%string
                   /\ all_chars (Regex.in_cls k) w = true
                   /\ lo <= String.length w
  | Regex.Cat r1 r2 =>
      exists mid csm, matches r1 s cs mid csm /\ matches r2 mid csm rest cs'
  | Regex.Alt r1 r2 => matches r1 s cs rest cs' \/ matches r2 s cs rest cs'
  | Regex.Grp n r1 =>
      exists cs1, matches r1 s cs rest cs1 /\ cs' = (n, Regex.consumed s rest) :: cs1
  | Regex.Opt r1 => matches r1 s cs rest cs' \/ (rest = s /\ cs' = cs)
  | Regex.Eos => rest = s /\ cs' = cs /\ (s = "" \/ s = String "010" "")
  end.

(** ** Parameter lists *)

(** A character the splitter gives no meaning to. *)
Definition plain_param_char (c : ascii) : bool :=
  negb (Ascii.eqb c ";") && negb (Ascii.eqb c PyStr.dquote) && negb (Ascii.eqb c "\")
  && negb (Ascii.eqb c "(") && negb (Ascii.eqb c ")")
  && negb (Ascii.eqb c "[") && negb (Ascii.eqb c "]").

Definition plain_param (p : string) : bool := all_chars plain_param_char p.

(** The parts of the splitter with the part under construction. *)
Definition split_all (st : split_state) : list string := sp_parts st ++ [sp_current st].

(** ** Counting delimiters *)

(** The number of occurrences of [c] in [s]. *)
Fixpoint count_char (c : ascii) (s : string) : Z :=
  match s with
  | "" => 0
  | String x s' => (if Ascii.eqb x c then 1 else 0) + count_char c s'
  end.

(** A text without double quote and without backslash. *)
Definition quote_free (s : string) : bool :=
  all_chars (fun c => negb (Ascii.eqb c PyStr.dquote) && negb (Ascii.eqb c "\")) s.

(** [s] between double quotes. *)
Definition quoted (s : string) : string :=
  String PyStr.dquote (s ++ String PyStr.dquote "").

(** ** Line numbers *)

(** The numbers grow strictly, from above [lo]. *)
Fixpoint ascending (lo : nat) (l : list nat) : Prop :=
  match l with
  | [] => True
  | x :: r => lo < x /\ ascending x r
  end.

(** The line numbers of the steps collected so far. *)
Definition acc_nums (st : acc_state) : list nat := List.map line_num (acc_steps st).

(** What the accumulator keeps true before it reads line [i]. *)
Definition acc_inv (i : nat) (st : acc_state) : Prop :=
  ascending 0 (acc_nums st)
  /\ Forall (fun k => k < i) (acc_nums st)
  /\ (accumulator st <> [] ->
      List.last (acc_nums st) 0 < start_line st /\ start_line st < i).

(** Two comments, a disabled comment and a loop. *)
Definition comments_and_loop : list ParsedStep :=
  [step "comment" [("text", VStr "a")] 1 "# a";
   step "comment" [("text", VStr "b")] 2 "# b";
   disable (step "comment" [("text", VStr "c")] 3 "# c");
   step "loop" [] 4 "Loop"].

(** ** Block structure *)

(** The step types [validate_structure] looks at. *)
Definition control_kinds : list string :=
  ["if"; "else_if"; "else"; "end_if"; "loop"; "exit_loop_if"; "end_loop"].

Definition is_control (s : ParsedStep) : bool :=
  List.existsb (String.eqb (step_type s)) control_kinds.

Definition is_loop_frame (f : frame) : bool := String.eqb (frame_type f) "loop".

(** Properly nested steps.  [nested in_loop steps]: every [if] is closed by
    its [end_if], after any number of [else_if] branches and at most one
    [else] branch, the last one; every [loop] is closed by its [end_loop];
    an [exit_loop_if] stands only where some enclosing block is a loop
    ([in_loop]). *)
Inductive nested : bool -> list ParsedStep -> Prop :=
| nested_nil (b : bool) : nested b []
| nested_plain (b : bool) (s : ParsedStep) (rest : list ParsedStep) :
    is_control s = false -> nested b rest -> nested b (s :: rest)
| nested_exit (s : ParsedStep) (rest : list ParsedStep) :
    step_type s = "exit_loop_if" -> nested true rest -> nested true (s :: rest)
| nested_loop (b : bool) (s e : ParsedStep) (body rest : list ParsedStep) :
    step_type s = "loop" -> nested true body -> step_type e = "end_loop" ->
    nested b rest -> nested b (s :: body ++ e :: rest)
| nested_if (b : bool) (s e : ParsedStep) (body brs rest : list ParsedStep) :
    step_type s = "if" -> nested b body -> branches b brs -> step_type e = "end_if" ->
    nested b rest -> nested b (s :: body ++ brs ++ e :: rest)
with branches : bool -> list ParsedStep -> Prop :=
| branches_none (b : bool) : branches b []
| branches_else (b : bool) (s : ParsedStep) (body : list ParsedStep) :
    step_type s = "else" -> nested b body -> branches b (s :: body)
| branches_else_if (b : bool) (s : ParsedStep) (body more : list ParsedStep) :
    step_type s = "else_if" -> nested b body -> branches b more ->
    branches b (s :: body ++ more).

Scheme nested_mut := Minimality for nested Sort Prop
  with branches_mut := Minimality for branches Sort Prop.

Combined Scheme nested_branches_ind from nested_mut, branches_mut.

(** A loop around a conditional with both kinds of branches. *)
Definition nested_example : list ParsedStep :=
  [step "loop" [] 1 "Loop";
   step "if" [("calc", VStr "$i > 3")] 2 "If [ $i > 3 ]";
   step "exit_loop_if" [("calc", VStr "1")] 3 "Exit Loop If [ 1 ]";
   step "else_if" [("calc", VStr "$i = 0")] 4 "Else If [ $i = 0 ]";
   step "new_record" [] 5 "New Record/Request";
   step "else" [] 6 "Else";
   step "end_if" [] 7 "End If";
   step "end_loop" [] 8 "End Loop"].

(** ** The registry *)

(** [STEP_DEFS.get(ty)]: the id and the display name registered for a step
    type. *)
Definition lookup_def (ty : string) : option (nat * string) :=
  snd <$> List.find (fun d => String.eqb (fst d) ty) STEP_DEFS.

(** A step to encode, enabled. *)
Definition go_to_record_step : ParsedStep :=
  step "go_to_record" [("direction", VStr "Next")] 1 "Go to Record/Request/Page [ Next ]".

(** An [Insert from URL] step with a target. *)
Definition insert_from_url_step : ParsedStep :=
  mkStep "insert_from_url"
         (dict [("target", VStr "$result"); ("url", VStr "$url")]) 1
         "Insert from URL [ Target: $result ; URL: $url ]" true.

(** ** Comments through the XML *)

(** The characters of a comment the round trip is stated for: printable
    ASCII and the line feed. *)
Definition comment_char (c : ascii) : bool := printable c || Ascii.eqb c "010".

(** What [step_to_xml] writes for one character of a comment. *)
Definition escape_char (c : ascii) : string :=
  if Ascii.eqb c "&" then "&amp;"
  else if Ascii.eqb c "<" then "&lt;"
  else if Ascii.eqb c ">" then "&gt;"
  else if Ascii.eqb c "010" then "&#10;"
  else if Ascii.eqb c PyStr.dquote then "&quot;"
  else String c "".

(** The parser is reading character data. *)
Definition content_like (m : ET.mode) : Prop :=
  m = ET.Content \/ exists k, m = ET.Brackets k.

(** The marker the decompiler prints before a disabled step. *)
Definition disable_marker (enabled : bool) : string :=
  if enabled then "" else "// ".

(** The lines the decompiler prints for a comment of text [text]. *)
Definition comment_lines (enabled : bool) (text : string) : list string :=
  List.map (fun l => (disable_marker enabled ++ "# " ++ l)%string)
           (PyStr.split_char "010" (PyStr.strip text)).

(** A comment with characters the generator escapes. *)
Definition escaped_comment_step : ParsedStep :=
  step "comment" [("text", VStr (PyStr.qq "a < b && 'c' ]]> d" ++ nl ++ "next")%string)] 1 "#".

(** The element the parser builds for a comment step. *)
Definition comment_elem (enabled : bool) (text : string) : ET.element :=
  ET.Element "Step"
    (dict_of [("enable", if enabled then "True" else "False"); ("id", "89");
              ("name", "# (comment)")])
    None
    [ET.Element "Text" ∅ (if is_empty text then None else Some text) []].

(** ** Command-line arguments *)

(** The arguments that are not [-c] or [--clipboard]. *)
Definition input_args (args : list string) : list string :=
  List.filter (fun a => negb (is_clipboard_flag a)) args.

(** The last of them, or [dflt] when there is none. *)
Definition last_input (args : list string) (dflt : option string) : option string :=
  match list.last (input_args args) with
  | Some a => Some a
  | None => dflt
  end.

Definition no_output_flag (args : list string) : Prop :=
  Forall (fun a => is_output_flag a = false) args.

(** ** Set Variable lines *)

(** A character of [[\w.]]. *)
Definition ident_char (c : ascii) : bool := Regex.in_cls Regex.c_word_dot c.

(** A variable name as the recognizer reads it: one or two [$], then one
    or more letters, digits, [_] and [.]. *)
Definition variable_name (name : string) : bool :=
  match name with
  | String "$" (String "$" (String x r)) => all_chars ident_char (String x r)
  | String "$" (String x r) => all_chars ident_char (String x r)
  | _ => false
  end.

(** The line the decompiler prints for a [Set Variable] step. *)
Definition set_variable_line (name c : string) : string :=
  ("Set Variable [ " ++ name ++ " ; Value: " ++ c ++ " ]")%string.

Definition set_variable_step (name c : string) (n : nat) : ParsedStep :=
  step "set_variable" [("name", VStr name); ("value", VStr c)] n (set_variable_line name c).

Definition set_variable_xml (name c : string) : string :=
  (step_open "141" "Set Variable"
   ++ "<Value>" ++ calc c ++ "</Value>"
   ++ "<Repetition>" ++ calc "1" ++ "</Repetition>"
   ++ "<Name>" ++ name ++ "</Name></Step>")%string.

Definition set_variable_elem (name c : string) : ET.element :=
  ET.Element "Step"
    (dict_of [("enable", "True"); ("id", "141"); ("name", "Set Variable")]) None
    [ET.Element "Value" ∅ None [ET.Element "Calculation" ∅ (Some c) []];
     ET.Element "Repetition" ∅ None [ET.Element "Calculation" ∅ (Some "1") []];
     ET.Element "Name" ∅ (Some name) []].

(** A character that goes into an element's text as it is. *)
Definition text_char (c : ascii) : bool :=
  printable c && negb (Ascii.eqb c "<") && negb (Ascii.eqb c "&")
  && negb (Ascii.eqb c "]").

(** ** Lines that name a layout or a script *)

(** A character of a name that can stand in an attribute value and in an
    element's text as it is. *)
Definition name_char (c : ascii) : bool :=
  text_char c && negb (Ascii.eqb c PyStr.dquote) && negb (Ascii.eqb c "\").

(** A layout or script name the round trip carries: not empty, of such
    characters, no blank at either end. *)
Definition plain_name (s : string) : bool :=
  all_chars name_char s && starts_nonspace s && ends_nonspace s.

Definition go_to_layout_line (name : string) : string :=
  calc_line "Go to Layout" (quoted name).

Definition perform_script_line (name : string) : string :=
  calc_line "Perform Script" (quoted name).

Definition go_to_layout_xml (name : string) : string :=
  (step_open "6" "Go to Layout"
   ++ PyStr.qq "<LayoutDestination value='ByName'></LayoutDestination>"
   ++ PyStr.qq "<Layout id='0' name='" ++ name ++ PyStr.qq "'></Layout></Step>")%string.

Definition go_to_layout_elem (name : string) : ET.element :=
  ET.Element "Step"
    (dict_of [("enable", "True"); ("id", "6"); ("name", "Go to Layout")]) None
    [ET.Element "LayoutDestination" (dict_of [("value", "ByName")]) None [];
     ET.Element "Layout" (dict_of [("id", "0"); ("name", name)]) None []].

Definition perform_script_xml (name : string) : string :=
  (step_open "1" "Perform Script" ++ "<Text>" ++ name ++ "</Text></Step>")%string.

Definition perform_script_elem (name : string) : ET.element :=
  ET.Element "Step"
    (dict_of [("enable", "True"); ("id", "1"); ("name", "Perform Script")]) None
    [ET.Element "Text" ∅ (Some name) []].

(** ** A larger fragment of scripts *)

(** The lines of the larger fragment: the instruction lines, the lines
    [Set Variable [ NAME ; Value: c ]], [Go to Layout [ "name" ]] and
    [Perform Script [ "name" ]]. *)
Inductive script_line : string -> Prop :=
| script_instruction (l : string) :
    instruction_line l -> script_line l
| script_set_variable (name c : string) :
    variable_name name = true -> plain_calc c = true ->
    complete_line (set_variable_line name c) = true ->
    script_line (set_variable_line name c)
| script_go_to_layout (name : string) :
    plain_name name = true -> script_line (go_to_layout_line name)
| script_perform_script (name : string) :
    plain_name name = true -> script_line (perform_script_line name).

(** A script of the larger fragment. *)
Definition script_text : string :=
  ("Set Variable [ $i ; Value: 0 ]" ++ nl
   ++ PyStr.qq "Go to Layout [ 'Invoices (list)' ]" ++ nl
   ++ "Loop" ++ nl
   ++ "    Set Variable [ $i ; Value: $i + 1 ]" ++ nl
   ++ "    Exit Loop If [ $i > Get(FoundCount) ]" ++ nl
   ++ PyStr.qq "    Perform Script [ 'Mark; paid' ]" ++ nl
   ++ "End Loop" ++ nl)%string.

(** Two frames of the validator's stack that differ in their line number
    at most. *)
Definition same_frame (f g : frame) : Prop :=
  frame_type f = frame_type g /\ frame_has_else f = frame_has_else g.

(** Two states of the validator that differ in line numbers and messages
    at most. *)
Definition same_shape (st st' : val_state) : Prop :=
  List.length (val_errors st) = List.length (val_errors st')
  /\ Forall2 same_frame (block_stack st) (block_stack st').

(** What is still to come when the frames [rstk] are open, the innermost
    first: the rest of the innermost block, its closing step, and what is
    to come for the frames below. *)
Fixpoint closes (rstk : list frame) (steps : list ParsedStep) : Prop :=
  match rstk with
  | [] => nested false steps
  | f :: below =>
      exists body brs e rest,
        steps = (body ++ brs ++ e :: rest)%list
        /\ nested (List.existsb is_loop_frame (f :: below)) body
        /\ closes below rest
        /\ ((frame_type f = "loop" /\ brs = [] /\ step_type e = "end_loop")
            \/ (frame_type f = "if" /\ step_type e = "end_if"
                /\ if frame_has_else f then brs = []
                   else branches (List.existsb is_loop_frame below) brs))
  end.

(** The line numbers of the errors and of the open frames of a state of the
    validator all satisfy [P]. *)
Definition lines_in (P : nat -> Prop) (st : val_state) : Prop :=
  Forall (fun d => P (diag_line d)) (val_errors st)
  /\ Forall (fun f => P (frame_line f)) (block_stack st).

(** The number of entries the decompiler appends to [lines] for one step:
    for a comment one per line of its text, else one. *)
Definition entries_of_step (e : ET.element) : nat :=
  if String.eqb (ET.get e "id" "") "89"
  then List.length (PyStr.split_char "010" (or_str (_get_text e "Text") ""))
  else 1.

(** * Properties *)

(** ** Facts about strings *)

Arguments String.append !s1 s2 : simpl nomatch.

Section StringFacts.
Local Open Scope string_scope.

Lemma append_assoc (a b c : string) : (a ++ b) ++ c = a ++ (b ++ c).
Proof. induction a as [|x a IH]; cbn; [reflexivity|]. rewrite IH. reflexivity. Qed.

Lemma append_nil_r (a : string) : a ++ "" = a.
Proof. induction a as [|x a IH]; cbn; [reflexivity|]. rewrite IH. reflexivity. Qed.

Lemma append_length (a b : string) :
  String.length (a ++ b) = String.length a + String.length b.
Proof. induction a as [|c a IH]; cbn; [reflexivity|]. rewrite IH. reflexivity. Qed.

End StringFacts.

(** C7: the physical lines [Set Variable [ $x ; Value: (1+] and [2) ]] leave
    the paren and bracket depths at 1 after the first line, so the first
    line is held in the accumulator; the two lines then parse as a single
    [set_variable] step with name [$x], value [(1+ 2)] and the line number
    of the first physical line, with no parse error. *)
Theorem accumulator_joins_continuation_line :
  _count_delimiters set_variable_line1 = (1%Z, 1%Z)
  /\ acc_line acc_init 1 set_variable_line1
     = Some (mkAcc [] [] [set_variable_line1] 1 1 1)
  /\ parse_text (set_variable_line1 ++ nl ++ set_variable_line2)%string
     = Some ([step "set_variable" [("name", VStr "$x"); ("value", VStr "(1+ 2)")]
                   1 "Set Variable [ $x ; Value: (1+ 2) ]"],
             []).
Proof. repeat split; vm_compute; reflexivity. Qed.

Lemma if_end_loop_parses :
  parse_text if_end_loop_text = Some (if_end_loop_steps, []).
Proof. vm_compute; reflexivity. Qed.

(** C2, as stated, fails: the validator does not report exactly one error
    on [If [ x = 1 ]] / [End Loop]. *)
Lemma if_end_loop_not_one_error :
  ~ (exists e : string,
        errors (validate_structure if_end_loop_steps) = [e]
        /\ PyStr.contains "End Loop found but current open block is If (opened line 1)" e
           = true).
Proof. intros [e [H _]]. vm_compute in H. discriminate H. Qed.

(** C2, amended: on [If [ x = 1 ]] / [End Loop] the validator reports exactly
    two structural errors: first the mismatched closer, citing
    [End Loop found but current open block is If (opened line 1)], then the
    [If] of line 1 that the mismatched closer left open. *)
Theorem if_end_loop_two_errors :
  parse_text if_end_loop_text = Some (if_end_loop_steps, [])
  /\ structural_errors if_end_loop_steps
     = [mkDiag 2 "End Loop found but current open block is If (opened line 1)";
        mkDiag 1 "Unclosed If — missing End If"]
  /\ errors (validate_structure if_end_loop_steps)
     = ["Line 2: ERROR — End Loop found but current open block is If (opened line 1)";
        "Line 1: ERROR — Unclosed If — missing End If"].
Proof. repeat split; vm_compute; reflexivity. Qed.

(** C3, at its failing input: the recognizer turns the line
    [Set Field [ Table::Field ; 1 ]] into a step of the registered kind
    [set_field], and [step_to_xml] has no branch for that kind: it answers
    with the unknown-step comment. *)
Theorem set_field_reaches_unknown_fallback :
  parse_line set_field_line 1 = Some (RStep set_field_step)
  /\ registered (step_type set_field_step) = true
  /\ step_to_xml set_field_step = Some "<!-- Unknown step: set_field -->"
  /\ generate_xml [set_field_step]
     = Some (snippet_open ++ "<!-- Unknown step: set_field -->" ++ snippet_close)%string.
Proof. repeat split; vm_compute; reflexivity. Qed.

(** C4, at its failing inputs.  [_split_params] toggles its quote state only
    at paren depth zero, the balancer at every unescaped quote.  On
    ['T' ; Foo(');')] (apostrophes standing for double quotes) the closing
    paren inside the string literal brings the splitter back to depth zero,
    and it splits at the semicolon inside that literal; the balancer holds
    that semicolon to be quoted.  On [Left(')';1) ; 'M'] the splitter does
    not split at the one top-level semicolon. *)
Theorem split_params_splits_inside_quoted_string :
  _split_params quoted_paren_params
  = [PyStr.qq "'T' "; PyStr.qq " Foo(')"; PyStr.qq "')"]
  /\ spec_split_params quoted_paren_params
     = [PyStr.qq "'T' "; PyStr.qq " Foo(');')"]
  /\ _split_params quoted_paren_params2 = [quoted_paren_params2]
  /\ spec_split_params quoted_paren_params2
     = [PyStr.qq "Left(')';1) "; PyStr.qq " 'M'"].
Proof. repeat split; vm_compute; reflexivity. Qed.

(** ** The comment coalescer *)

Section MergeComments.

Lemma mergeable_same_kind (p p' s : ParsedStep) :
  step_type p' = step_type p -> enabled p' = enabled p ->
  mergeable p' s = mergeable p s.
Proof. unfold mergeable, is_comment. intros -> ->. reflexivity. Qed.

Lemma last_default_irrelevant {A : Type} (l : list A) (x p q : A) :
  List.last (x :: l) p = List.last (x :: l) q.
Proof.
  revert x. induction l as [|y l IH]; intros x; [reflexivity|].
  change (List.last (y :: l) p = List.last (y :: l) q). apply IH.
Qed.

Lemma last_cons {A : Type} (l : list A) (x p : A) :
  List.last (x :: l) p = List.last l x.
Proof.
  destruct l as [|y l]; [reflexivity|].
  change (List.last (y :: l) p = List.last (y :: l) x).
  apply last_default_irrelevant.
Qed.

(** [merged[-1]] keeps the step type and the enabled flag of the last
    step the loop has seen. *)
Lemma merge_loop_last (l : list ParsedStep) :
  forall d p d' p',
    merge_loop l (d, p) = Some (d', p') ->
    step_type p' = step_type (List.last l p)
    /\ enabled p' = enabled (List.last l p).
Proof.
  induction l as [|s l IH]; intros d p d' p' H; simpl in H.
  - injection H as <- <-. split; reflexivity.
  - rewrite last_cons. unfold merge_step in H.
    destruct (mergeable p s) eqn:M.
    + destruct (get_str (step_params p) "text" "") as [a|]; [|discriminate H].
      destruct (get_str (step_params s) "text" "") as [b|]; [|discriminate H].
      simpl in H. apply IH in H. destruct H as [Ht He].
      unfold mergeable, is_comment in M.
      apply andb_prop in M as [M Me]. apply andb_prop in M as [Ms Mp].
      apply String.eqb_eq in Ms, Mp. apply Bool.eqb_prop in Me.
      destruct l as [|s' l'].
      * simpl in *. split; congruence.
      * rewrite last_cons in Ht, He. rewrite last_cons. split; assumption.
    + simpl in H. apply IH in H. exact H.
Qed.

(** The finished part of [merged] is only ever appended to. *)
Lemma merge_loop_frame (l : list ParsedStep) :
  forall d p d' p' d0,
    merge_loop l (d, p) = Some (d', p') ->
    merge_loop l (d0 ++ d, p) = Some (d0 ++ d', p').
Proof.
  induction l as [|s l IH]; intros d p d' p' d0 H; simpl in *.
  - injection H as <- <-. reflexivity.
  - unfold merge_step in *.
    destruct (mergeable p s).
    + destruct (get_str (step_params p) "text" "") as [a|]; [|discriminate H].
      destruct (get_str (step_params s) "text" "") as [b|]; [|discriminate H].
      simpl in *. apply IH. exact H.
    + simpl in *. rewrite <- app_assoc. apply IH. exact H.
Qed.

Lemma merge_loop_app (l1 l2 : list ParsedStep) :
  forall acc,
    merge_loop (l1 ++ l2) acc = merge_loop l1 acc ≫= merge_loop l2.
Proof.
  induction l1 as [|s l1 IH]; intros acc; simpl.
  - reflexivity.
  - destruct (merge_step acc s) as [acc'|]; simpl; [apply IH | reflexivity].
Qed.

(** Merging never crosses two neighbours that are not both comments of
    the same enabled state. *)
Lemma merge_comments_boundary (xs ys : list ParsedStep) (s1 s2 : ParsedStep)
      (m1 m2 : list ParsedStep) :
  mergeable s1 s2 = false ->
  _merge_comments (xs ++ [s1]) = Some m1 ->
  _merge_comments (s2 :: ys) = Some m2 ->
  _merge_comments (xs ++ s1 :: s2 :: ys) = Some (m1 ++ m2).
Proof.
  intros M H1 H2.
  assert (exists s0 l, xs ++ [s1] = s0 :: l /\ List.last l s0 = s1) as (s0 & l & E & L).
  { destruct xs as [|x xs']; simpl.
    - exists s1, []. split; reflexivity.
    - exists x, (xs' ++ [s1]). split; [reflexivity | apply last_last]. }
  replace (xs ++ s1 :: s2 :: ys) with ((xs ++ [s1]) ++ s2 :: ys)
    by (rewrite <- app_assoc; reflexivity).
  rewrite E in *. simpl in H1, H2 |- *.
  destruct (merge_loop l ([], s0)) as [[d1 p1]|] eqn:E1; [|discriminate H1].
  simpl in H1. injection H1 as <-.
  destruct (merge_loop ys ([], s2)) as [[d2 p2]|] eqn:E2; [|discriminate H2].
  simpl in H2. injection H2 as <-.
  rewrite merge_loop_app, E1. simpl.
  destruct (merge_loop_last _ _ _ _ _ E1) as [Ht He]. rewrite L in Ht, He.
  unfold merge_step. rewrite (mergeable_same_kind s1 p1 s2 Ht He), M. simpl.
  rewrite <- (app_nil_r (d1 ++ [p1])) at 1.
  rewrite (merge_loop_frame ys [] s2 d2 p2 (d1 ++ [p1]) E2). simpl.
  rewrite <- app_assoc. reflexivity.
Qed.

(** No two neighbours can be merged: the list is returned as it is. *)
Lemma merge_comments_id (steps : list ParsedStep) :
  adjacent_mergeable steps = false -> _merge_comments steps = Some steps.
Proof.
  destruct steps as [|s0 l]; [reflexivity|].
  intros H. simpl.
  enough (forall d p, adjacent_mergeable (p :: l) = false ->
                      merge_loop l (d, p) = Some (d ++ List.removelast (p :: l),
                                                  List.last l p)) as G.
  { rewrite (G [] s0 H).
    change (Some (List.removelast (s0 :: l) ++ [List.last l s0]) = Some (s0 :: l)).
    rewrite <- (last_cons l s0 s0).
    rewrite <- (app_removelast_last (l:=s0 :: l) s0) by discriminate.
    reflexivity. }
  clear H. induction l as [|s l IH]; intros d p H.
  - simpl. rewrite app_nil_r. reflexivity.
  - change (mergeable p s || adjacent_mergeable (s :: l) = false) in H.
    apply orb_false_elim in H as [M H].
    change (merge_step (d, p) s ≫= merge_loop l
            = Some (d ++ List.removelast (p :: s :: l), List.last (s :: l) p)).
    unfold merge_step. rewrite M.
    change (merge_loop l (d ++ [p], s)
            = Some (d ++ p :: List.removelast (s :: l), List.last (s :: l) p)).
    rewrite (IH (d ++ [p]) s H), last_cons, <- app_assoc. reflexivity.
Qed.

End MergeComments.

(** C5: the lines [# a], [# b], [# c] parse to one comment step whose text
    is [a], [b], [c] joined by newlines; the XML generated for that step
    decompiles to the three lines again, each behind [# ].  Two steps are
    merged only when both are comments of the same enabled state, and
    merging never crosses two neighbours that are not: what lies before such
    a pair and what lies after it are coalesced apart. *)
Theorem three_comments_merge_and_come_back :
  parse_text three_comments_text = Some ([merged_comment], [])
  /\ generate_xml [merged_comment]
     = Some (PyStr.qq ("<fmxmlsnippet type='FMObjectList'>"
                       ++ "<Step enable='True' id='89' name='# (comment)'>"
                       ++ "<Text>a&#10;b&#10;c</Text></Step></fmxmlsnippet>"))
  /\ (forall xml, generate_xml [merged_comment] = Some xml ->
                  decompile_xml xml = Some three_comments_text)
  /\ (forall s1 s2,
         mergeable s1 s2 = true
         <-> step_type s1 = "comment" /\ step_type s2 = "comment"
             /\ enabled s1 = enabled s2)
  /\ (forall xs ys s1 s2 m1 m2,
         mergeable s1 s2 = false ->
         _merge_comments (xs ++ [s1]) = Some m1 ->
         _merge_comments (s2 :: ys) = Some m2 ->
         _merge_comments (xs ++ s1 :: s2 :: ys) = Some (m1 ++ m2)).
Proof.
  split; [vm_compute; reflexivity|].
  split; [vm_compute; reflexivity|].
  split.
  { intros xml H. vm_compute in H. injection H as <-. vm_compute. reflexivity. }
  split.
  { intros s1 s2. unfold mergeable, is_comment.
    rewrite !andb_true_iff, !String.eqb_eq, Bool.eqb_true_iff.
    intuition congruence. }
  intros xs ys s1 s2 m1 m2. apply merge_comments_boundary.
Qed.

(** C5 at work: an enabled comment, a [Loop] and a disabled comment stay
    three steps. *)
Lemma three_comments_witness :
  mergeable (step "loop" [] 2 "Loop") (disable (step "comment" [("text", VStr "b")] 3 "# b"))
  = false
  /\ _merge_comments ([step "comment" [("text", VStr "a")] 1 "# a"]
                      ++ [step "loop" [] 2 "Loop"])
     = Some [step "comment" [("text", VStr "a")] 1 "# a"; step "loop" [] 2 "Loop"]
  /\ _merge_comments (disable (step "comment" [("text", VStr "b")] 3 "# b") :: [])
     = Some [disable (step "comment" [("text", VStr "b")] 3 "# b")]
  /\ _merge_comments ([step "comment" [("text", VStr "a")] 1 "# a"]
                      ++ step "loop" [] 2 "Loop"
                      :: disable (step "comment" [("text", VStr "b")] 3 "# b") :: [])
     = Some ([step "comment" [("text", VStr "a")] 1 "# a"; step "loop" [] 2 "Loop"]
             ++ [disable (step "comment" [("text", VStr "b")] 3 "# b")]).
Proof.
  split; [reflexivity|].
  split; [reflexivity|].
  split; [reflexivity|].
  apply (proj2 (proj2 (proj2 (proj2 three_comments_merge_and_come_back)))); reflexivity.
Defined.

(** ** The structural validator *)

Section Validator.

Lemma stack_cases (stack : list frame) :
  stack = [] \/ exists below f, stack = below ++ [f].
Proof.
  destruct stack as [|x l]; [left; reflexivity|right].
  destruct (exists_last (l:=x :: l)) as (below & f & E); [discriminate|].
  exists below, f. exact E.
Qed.

Lemma top_snoc (below : list frame) (f : frame) : top (below ++ [f]) = Some f.
Proof. unfold top. apply last_snoc. Qed.

(** The walk never reports an unclosed block: those come after it. *)
Lemma validate_step_no_unclosed (st : val_state) (s : ParsedStep) :
  Forall (fun d => is_unclosed d = false) (val_errors st) ->
  Forall (fun d => is_unclosed d = false) (val_errors (validate_step st s)).
Proof.
  intros H. unfold validate_step.
  repeat match goal with
         | |- context [if ?b then _ else _] => destruct b
         | |- context [match top ?x with _ => _ end] => destruct (top x)
         end;
    try exact H;
    unfold add_error; simpl;
    apply Forall_app; (split; [exact H | constructor; [reflexivity | constructor]]).
Qed.

Lemma walk_no_unclosed (steps : list ParsedStep) :
  forall st,
    Forall (fun d => is_unclosed d = false) (val_errors st) ->
    Forall (fun d => is_unclosed d = false) (val_errors (fold_left validate_step steps st)).
Proof.
  induction steps as [|s steps IH]; intros st H; simpl; [exact H|].
  apply IH, validate_step_no_unclosed, H.
Qed.

(** Every frame on the stack was pushed for an [if] or [loop] step and
    still carries that step's line number. *)
Lemma validate_step_frames (all : list ParsedStep) (st : val_state) (s : ParsedStep) :
  In s all ->
  Forall (opened_by all) (block_stack st) ->
  Forall (opened_by all) (block_stack (validate_step st s)).
Proof.
  intros Hin H. unfold validate_step.
  destruct (String.eqb (step_type s) "if") eqn:Eif.
  { apply String.eqb_eq in Eif. simpl. apply Forall_app. split; [exact H|].
    constructor; [|constructor]. exists s. simpl. auto. }
  destruct (String.eqb (step_type s) "else_if").
  { destruct (top (block_stack st)) as [f|]; [|exact H].
    destruct (negb _); [exact H|]. destruct (frame_has_else f); exact H. }
  destruct (String.eqb (step_type s) "else").
  { destruct (stack_cases (block_stack st)) as [E|(below & f & E)].
    - rewrite E. exact H.
    - rewrite E, top_snoc. rewrite E in H. apply Forall_app in H as [Hb Hf].
      destruct (negb _) eqn:Ety;
        [simpl; rewrite E; apply Forall_app; split; assumption|].
      destruct (frame_has_else f);
        [simpl; rewrite E; apply Forall_app; split; assumption|].
      unfold set_top. simpl. rewrite E, removelast_last.
      apply Forall_app. split; [exact Hb|]. constructor; [|constructor].
      apply negb_false_iff, String.eqb_eq in Ety.
      inversion Hf as [|? ? (s' & Hs' & Ht & Hl & _) _]; subst.
      exists s'. unfold frame_type, frame_line in *. simpl.
      rewrite Ht, Ety. auto. }
  destruct (String.eqb (step_type s) "end_if").
  { destruct (stack_cases (block_stack st)) as [E|(below & f & E)].
    - rewrite E. exact H.
    - rewrite E, top_snoc. rewrite E in H. apply Forall_app in H as [Hb Hf].
      destruct (negb _);
        [simpl; rewrite E; apply Forall_app; split; assumption|].
      unfold pop_frame. simpl. rewrite E, removelast_last. exact Hb. }
  destruct (String.eqb (step_type s) "loop") eqn:Eloop.
  { apply String.eqb_eq in Eloop. simpl. apply Forall_app. split; [exact H|].
    constructor; [|constructor]. exists s. simpl. auto. }
  destruct (String.eqb (step_type s) "exit_loop_if").
  { destruct (existsb _ _); exact H. }
  destruct (String.eqb (step_type s) "end_loop"); [|exact H].
  destruct (stack_cases (block_stack st)) as [E|(below & f & E)].
  - rewrite E. exact H.
  - rewrite E, top_snoc. rewrite E in H. apply Forall_app in H as [Hb Hf].
    destruct (negb _);
      [simpl; rewrite E; apply Forall_app; split; assumption|].
    unfold pop_frame. simpl. rewrite E, removelast_last. exact Hb.
Qed.

Lemma walk_frames (all steps : list ParsedStep) :
  forall st,
    (forall s, In s steps -> In s all) ->
    Forall (opened_by all) (block_stack st) ->
    Forall (opened_by all) (block_stack (fold_left validate_step steps st)).
Proof.
  induction steps as [|s steps IH]; intros st Hin H; simpl; [exact H|].
  apply IH.
  - intros s' Hs'. apply Hin. right. exact Hs'.
  - apply validate_step_frames; [apply Hin; left; reflexivity | exact H].
Qed.

Lemma filter_none {A : Type} (f : A -> bool) (l : list A) :
  Forall (fun x => f x = false) l -> List.filter f l = [].
Proof.
  induction 1 as [|x l Hx _ IH]; simpl; [reflexivity|]. rewrite Hx. exact IH.
Qed.

Lemma filter_all {A : Type} (f : A -> bool) (l : list A) :
  Forall (fun x => f x = true) l -> List.filter f l = l.
Proof.
  induction 1 as [|x l Hx _ IH]; simpl; [reflexivity|]. rewrite Hx, IH. reflexivity.
Qed.

End Validator.

(** C6: whatever the step sequence, the errors [validate_structure] reports
    for unclosed blocks are, in order, exactly one per frame left on the
    block stack by the walk; each names the frame's kind and is filed under
    the frame's line, and that frame carries the kind and the line number
    of an [if] or [loop] step of the sequence. *)
Theorem one_unclosed_error_per_open_frame (steps : list ParsedStep) :
  errors (validate_structure steps) = List.map error_text (structural_errors steps)
  /\ List.filter is_unclosed (structural_errors steps)
     = List.map (fun f => mkDiag (frame_line f)
                                 ("Unclosed " ++ PyStr.title (frame_type f)
                                  ++ " — missing End " ++ PyStr.title (frame_type f))%string)
                (block_stack (walk steps))
  /\ Forall (opened_by steps) (block_stack (walk steps)).
Proof.
  split; [reflexivity|]. split.
  - unfold structural_errors. rewrite List.filter_app.
    rewrite (filter_none is_unclosed (val_errors (walk steps))).
    + rewrite filter_all; [reflexivity|].
      apply Forall_forall. intros d Hd. apply in_map_iff in Hd as (f & <- & _).
      unfold is_unclosed, unclosed, unclosed_message. simpl. reflexivity.
    + apply walk_no_unclosed. constructor.
  - apply walk_frames; [auto | constructor].
Qed.

(** ** The decompiler's dispatch on step id 125 *)

Section Dispatch.
Local Open Scope string_scope.

Lemma step_texts_125 (e : ET.element) :
  ET.get e "id" "" = "125" ->
  step_texts e
  = if String.eqb (ET.get e "name" "") "Else If"
    then (["Else If [ " ++ or_str (_get_calc_direct e) "?" ++ " ]"], true)
    else ([ET.get e "name" "" ++ " [id=125]"], false).
Proof.
  intros H. unfold step_texts. rewrite H.
  change (String.eqb "125" "125") with true.
  cbn [String.eqb Ascii.eqb Bool.eqb andb].
  destruct (String.eqb (ET.get e "name" "") "Else If"); reflexivity.
Qed.

(** A text that ends in [5]] is not one that ends in a blank and []]. *)
Lemma fallback_is_no_else_if_line (a b : string) :
  a ++ "5]" <> b ++ " ]".
Proof.
  revert b. induction a as [|x a IH]; intros b H.
  - destruct b as [|y [|z b]]; try discriminate H.
    cbn in H. injection H as _ _ H. destruct b; discriminate H.
  - destruct b as [|y b].
    + cbn in H. injection H as _ H. destruct a as [|? [|? ?]]; discriminate H.
    + cbn in H. injection H as _ H. exact (IH b H).
Qed.

End Dispatch.

(** C8: a step element with id 125 is decompiled as an [Else If [ calc ]]
    line, after which the indentation grows, if and only if its name
    attribute is exactly [Else If]; with any other name it falls through
    to the fallback line [name [id=125]].  In both cases the line is printed
    one level to the left of the current indentation. *)
Theorem id_125_decoded_by_display_name (e : ET.element) (indent_level : nat) :
  ET.get e "id" "" = "125" ->
  decompile_step indent_level e
  = (if String.eqb (ET.get e "name" "") "Else If"
     then ([line_head (indent_level - 1) e
            ++ "Else If [ " ++ or_str (_get_calc_direct e) "?" ++ " ]"],
           S (indent_level - 1))
     else ([line_head (indent_level - 1) e ++ ET.get e "name" "" ++ " [id=125]"],
           indent_level - 1))%string
  /\ ((exists c, fst (step_texts e) = ["Else If [ " ++ c ++ " ]"]%string)
      <-> ET.get e "name" "" = "Else If").
Proof.
  intros H. split.
  - unfold decompile_step, indent_before, line_head.
    rewrite (step_texts_125 e H), H.
    change (String.eqb "125" "70" || String.eqb "125" "73"
            || String.eqb "125" "69" || String.eqb "125" "125") with true.
    cbv iota. change (Nat.max 0 (indent_level - 1)) with (indent_level - 1).
    destruct (String.eqb (ET.get e "name" "") "Else If"); cbn [List.map];
      rewrite append_assoc; reflexivity.
  - rewrite (step_texts_125 e H).
    destruct (String.eqb (ET.get e "name" "") "Else If") eqn:E.
    + apply String.eqb_eq in E. split; [intros _; exact E|].
      intros _. exists (or_str (_get_calc_direct e) "?"). reflexivity.
    + apply String.eqb_neq in E. split; [|intros E'; contradiction].
      intros [c Hc]. exfalso. cbn [fst] in Hc. injection Hc as Hc.
      apply (fallback_is_no_else_if_line (ET.get e "name" "" ++ " [id=12")
                                         ("Else If [ " ++ c)).
      rewrite !append_assoc. exact Hc.
Qed.

(** C8 on two elements with id 125: one named [Else If], one named
    [Set Field]. *)
Lemma id_125_witness :
  ET.get else_if_elem "id" "" = "125"
  /\ decompile_step 1 else_if_elem = (["Else If [ x > 1 ]"], 1)
  /\ ET.get set_field_125_elem "id" "" = "125"
  /\ decompile_step 1 set_field_125_elem = (["Set Field [id=125]"], 0).
Proof.
  split; [reflexivity|]. split.
  - rewrite (proj1 (id_125_decoded_by_display_name else_if_elem 1 eq_refl)).
    reflexivity.
  - split; [reflexivity|].
    rewrite (proj1 (id_125_decoded_by_display_name set_field_125_elem 1 eq_refl)).
    reflexivity.
Defined.

(** ** The XML generator *)

Section GeneratorFacts.
Local Open Scope string_scope.

Lemma step_open_tag (id name tail : string) :
  exists rest, step_open id name ++ tail = tag_enabled ++ rest.
Proof.
  exists (PyStr.qq " id='" ++ id ++ PyStr.qq "' name='" ++ name ++ PyStr.qq "'>" ++ tail).
  unfold step_open. rewrite !append_assoc. reflexivity.
Qed.

(** Every branch of [step_to_xml] but the fallback opens its element with
    [<Step enable="True"]. *)
Lemma encoded_step_opens_enabled (s : ParsedStep) (xml : string) :
  has_encoder (step_type s) = true ->
  step_to_xml s = Some xml ->
  exists rest, xml = tag_enabled ++ rest.
Proof.
  intros K H. unfold step_to_xml in H.
  repeat match type of H with
         | (if String.eqb (step_type s) ?k then _ else _) = _ =>
             destruct (String.eqb (step_type s) k) eqn:?
         end;
    try (repeat match type of H with
                | context [get_str ?p ?k ?d] => destruct (get_str p k d); [|discriminate H]
                | context [get_list ?p ?k ?d] => destruct (get_list p k d); [|discriminate H]
                end;
         cbn [mbind option_bind] in H;
         repeat match type of H with
                | context [if ?b then _ else _] => destruct b
                end;
         apply (inj Some) in H; subst xml; apply step_open_tag).
  exfalso. unfold has_encoder, encoded_kinds in K. cbn [existsb] in K.
  repeat match goal with
         | E : String.eqb (step_type s) _ = false |- _ => rewrite E in K; clear E
         end.
  discriminate K.
Qed.

(** Replacing the first [enable="True"] of such an element rewrites that
    attribute and nothing else. *)
Lemma replace_first_enable (rest : string) :
  PyStr.replace_first (PyStr.qq "enable='True'") (PyStr.qq "enable='False'")
                      (tag_enabled ++ rest)
  = tag_disabled ++ rest.
Proof. reflexivity. Qed.

(** X18: for every step type with an encoder, the element generated for a
    disabled step is the element generated for the same step enabled, with
    [enable="False"] in the place of [enable="True"]. *)
Lemma disabled_flips_enable_attribute (s : ParsedStep) (xml : string) :
  has_encoder (step_type s) = true ->
  step_xml (enable s) = Some xml ->
  exists rest, xml = tag_enabled ++ rest
               /\ step_xml (disable s) = Some (tag_disabled ++ rest).
Proof.
  intros K H. unfold step_xml in *.
  change (step_to_xml (enable s)) with (step_to_xml s) in H.
  change (step_to_xml (disable s)) with (step_to_xml s).
  destruct (step_to_xml s) as [x|] eqn:E; [|discriminate H].
  cbn in H. injection H as <-.
  destruct (encoded_step_opens_enabled s x K E) as [rest ->].
  exists rest. split; [reflexivity|].
  cbn [mbind option_bind enabled disable]. rewrite replace_first_enable. reflexivity.
Qed.

Lemma concat_app (a b : list string) :
  PyStr.concat (a ++ b)%list = PyStr.concat a ++ PyStr.concat b.
Proof.
  induction a as [|x a IH]; cbn; [reflexivity|]. rewrite IH, append_assoc. reflexivity.
Qed.

Lemma generate_loop_spec (steps : list ParsedStep) :
  forall xml_parts,
    generate_loop steps xml_parts
    = encs ← mapM step_xml steps; Some (xml_parts ++ encs)%list.
Proof.
  induction steps as [|s steps IH]; intros parts; cbn.
  - rewrite app_nil_r. reflexivity.
  - destruct (step_xml s) as [x|]; cbn; [|reflexivity].
    rewrite IH. destruct (mapM step_xml steps) as [encs|]; cbn; [|reflexivity].
    rewrite <- app_assoc. reflexivity.
Qed.

Lemma concat_envelope (a b : string) (encs : list string) :
  PyStr.concat (([a] ++ encs) ++ [b])%list = a ++ PyStr.concat encs ++ b.
Proof.
  rewrite !concat_app. cbn [PyStr.concat].
  rewrite !append_nil_r, append_assoc. reflexivity.
Qed.

End GeneratorFacts.

(** C9, at its failing input: the disabled line
    [// Set Field [ Table::Field ; 1 ]] is recognized as a disabled
    [set_field] step; [step_to_xml] has no branch for it, so [generate_xml]
    emits the same unknown-step comment for the step disabled and enabled,
    and no [enable] attribute reads [False]. *)
Theorem disabled_set_field_has_no_enable_attribute :
  parse_line disabled_set_field_line 1 = Some (RStep (disable set_field_step))
  /\ step_xml (disable set_field_step) = Some "<!-- Unknown step: set_field -->"
  /\ step_xml (enable set_field_step) = Some "<!-- Unknown step: set_field -->"
  /\ generate_xml [disable set_field_step] = generate_xml [enable set_field_step]
  /\ forall xml, generate_xml [disable set_field_step] = Some xml ->
                 PyStr.contains (PyStr.qq "enable='False'") xml = false.
Proof.
  repeat split; try (vm_compute; reflexivity).
  intros xml H. vm_compute in H. injection H as <-. vm_compute. reflexivity.
Qed.

(** C10: [generate_xml] returns the literal [<fmxmlsnippet
    type="FMObjectList">], then the encodings of the steps, one per step and
    in the order of the list, then [</fmxmlsnippet>], and nothing else; it
    returns such a string whenever every step has an encoding. *)
Theorem generate_xml_envelope (steps : list ParsedStep) :
  (snippet_open = PyStr.qq "<fmxmlsnippet type='FMObjectList'>"
   /\ snippet_close = "</fmxmlsnippet>")
  /\ forall xml,
      generate_xml steps = Some xml
      <-> exists encs,
          Forall2 (fun s enc => step_xml s = Some enc) steps encs
          /\ xml = (snippet_open ++ PyStr.concat encs ++ snippet_close)%string.
Proof.
  split; [split; reflexivity|].
  intros xml. unfold generate_xml. rewrite generate_loop_spec. split.
  - destruct (mapM step_xml steps) as [encs|] eqn:E; [|discriminate].
    cbn [mbind option_bind]. intros H. apply (inj Some) in H. subst xml.
    exists encs. split; [apply mapM_Some_1; exact E | apply concat_envelope].
  - intros (encs & F & ->). apply mapM_Some_2 in F. rewrite F.
    cbn [mbind option_bind]. rewrite concat_envelope. reflexivity.
Qed.

(** ** More facts about strings *)

Section StripFacts.
Local Open Scope string_scope.

Lemma all_chars_app (p : ascii -> bool) (a b : string) :
  all_chars p (a ++ b) = all_chars p a && all_chars p b.
Proof.
  induction a as [|x a IH]; cbn; [reflexivity|]. rewrite IH, andb_assoc. reflexivity.
Qed.

Lemma all_chars_weaken (p q : ascii -> bool) (s : string) :
  (forall c, p c = true -> q c = true) -> all_chars p s = true -> all_chars q s = true.
Proof.
  intros W. induction s as [|x s IH]; cbn; [reflexivity|].
  intros H. apply andb_prop in H as [Hx Hs]. rewrite (W x Hx), (IH Hs). reflexivity.
Qed.

Lemma last_char_app (a b : string) :
  b <> "" -> last_char (a ++ b) = last_char b.
Proof.
  intros Hb. induction a as [|x a IH]; cbn; [reflexivity|].
  rewrite <- IH. destruct (a ++ b) eqn:E; [|reflexivity].
  destruct a; cbn in E; [contradiction | discriminate E].
Qed.

Lemma lstrip_starts_nonspace (s : string) :
  starts_nonspace s = true -> PyStr.lstrip s = s.
Proof.
  destruct s as [|x s]; cbn; [discriminate|].
  intros H. apply negb_true_iff in H. rewrite H. reflexivity.
Qed.

Lemma rstrip_ends_nonspace (s : string) :
  ends_nonspace s = true -> PyStr.rstrip s = s.
Proof.
  unfold ends_nonspace. induction s as [|x s IH]; cbn; [discriminate|].
  destruct s as [|y s'].
  - cbn. intros H. apply negb_true_iff in H. rewrite H. reflexivity.
  - intros H. rewrite (IH H). reflexivity.
Qed.

Lemma strip_fixed (s : string) :
  starts_nonspace s = true -> ends_nonspace s = true -> PyStr.strip s = s.
Proof.
  intros H1 H2. unfold PyStr.strip.
  rewrite (lstrip_starts_nonspace s H1). apply rstrip_ends_nonspace, H2.
Qed.

Lemma ends_nonspace_app (a b : string) :
  ends_nonspace b = true -> ends_nonspace (a ++ b) = true.
Proof.
  unfold ends_nonspace. intros H.
  rewrite last_char_app; [exact H|]. intros ->. discriminate H.
Qed.

Lemma lstrip_indent (n : nat) (l : string) :
  PyStr.lstrip (PyStr.repeat_str indent_str n ++ l) = PyStr.lstrip l.
Proof.
  induction n as [|n IH]; cbn [PyStr.repeat_str]; [reflexivity|].
  rewrite append_assoc. exact IH.
Qed.

Lemma strip_indent (n : nat) (l : string) :
  PyStr.strip (PyStr.repeat_str indent_str n ++ l) = PyStr.strip l.
Proof. unfold PyStr.strip. rewrite lstrip_indent. reflexivity. Qed.

Lemma no_newline_indent (n : nat) : no_newline (PyStr.repeat_str indent_str n) = true.
Proof.
  induction n as [|n IH]; [reflexivity|].
  unfold no_newline in *. cbn [PyStr.repeat_str]. rewrite all_chars_app, IH. reflexivity.
Qed.

(** Splitting what [join] glued gives the lines back. *)
Lemma split_no_newline (a : string) :
  no_newline a = true -> PyStr.split_char "010" a = [a].
Proof.
  unfold no_newline. induction a as [|x a IH]; cbn; [reflexivity|].
  intros H. apply andb_prop in H as [Hx Ha].
  apply negb_true_iff in Hx. rewrite Hx, (IH Ha). reflexivity.
Qed.

Lemma split_app_newline (a b : string) :
  no_newline a = true ->
  PyStr.split_char "010" (a ++ String "010" b) = a :: PyStr.split_char "010" b.
Proof.
  unfold no_newline. induction a as [|x a IH]; cbn; [reflexivity|].
  intros H. apply andb_prop in H as [Hx Ha].
  apply negb_true_iff in Hx. rewrite Hx, (IH Ha). reflexivity.
Qed.

Lemma split_join (lines : list string) :
  lines <> [] ->
  Forall (fun l => no_newline l = true) lines ->
  PyStr.split_char "010" (PyStr.join (String "010" "") lines) = lines.
Proof.
  induction lines as [|l lines IH]; [contradiction|].
  intros _ H. inversion H as [|? ? Hl Hr]; subst.
  destruct lines as [|l' lines'].
  - cbn. apply split_no_newline, Hl.
  - change (PyStr.join (String "010" "") (l :: l' :: lines'))
      with (l ++ String "010" (PyStr.join (String "010" "") (l' :: lines'))).
    rewrite (split_app_newline _ _ Hl), IH; [reflexivity | discriminate | exact Hr].
Qed.

End StripFacts.
(** ** The recursion of the recognizer *)

Section RecognizerFuel.
Local Open Scope string_scope.

Lemma lstrip_length (s : string) : String.length (PyStr.lstrip s) <= String.length s.
Proof.
  induction s as [|x s IH]; cbn; [lia|]. destruct (PyStr.is_space x); cbn; lia.
Qed.

Lemma rstrip_length (s : string) : String.length (PyStr.rstrip s) <= String.length s.
Proof.
  induction s as [|x s IH]; cbn; [lia|].
  destruct (PyStr.rstrip s); [destruct (PyStr.is_space x)|]; cbn in *; lia.
Qed.

Lemma strip_length (s : string) : String.length (PyStr.strip s) <= String.length s.
Proof.
  unfold PyStr.strip. etransitivity; [apply rstrip_length | apply lstrip_length].
Qed.

Lemma drop_length (n : nat) (s : string) :
  String.length (PyStr.drop n s) = String.length s - n.
Proof.
  revert s. induction n as [|n IH]; intros [|x s]; cbn; try lia. apply IH.
Qed.

Lemma startswith_length (s p : string) :
  PyStr.startswith s p = true -> String.length p <= String.length s.
Proof.
  revert s. induction p as [|a p IH]; intros s H; cbn; [lia|].
  destruct s as [|b s]; [discriminate H|]. cbn in H.
  apply andb_prop in H as [_ H]. apply IH in H. cbn. lia.
Qed.

(** Past the length of the line, the fuel of [parse_line_aux] does not
    matter: the recursion never runs out of it. *)
Lemma parse_line_fuel (line_num : nat) (f1 : nat) :
  forall (f2 : nat) (line : string),
    String.length line < f1 -> String.length line < f2 ->
    parse_line_aux f1 line line_num = parse_line_aux f2 line line_num.
Proof.
  induction f1 as [|f1 IH]; intros f2 line H1 H2; [lia|].
  destruct f2 as [|f2]; [lia|]. cbn [parse_line_aux].
  destruct (is_empty (PyStr.strip line)); [reflexivity|].
  destruct (PyStr.startswith (PyStr.strip line) "// ") eqn:M; [|reflexivity].
  destruct (is_empty (PyStr.strip (PyStr.drop 3 (PyStr.strip line)))); [reflexivity|].
  assert (String.length (PyStr.strip (PyStr.drop 3 (PyStr.strip line))) + 3
          <= String.length line) as L.
  { apply startswith_length in M. cbn in M.
    pose proof (strip_length (PyStr.drop 3 (PyStr.strip line))) as L1.
    rewrite drop_length in L1. pose proof (strip_length line) as L2. lia. }
  rewrite (IH f2 (PyStr.strip (PyStr.drop 3 (PyStr.strip line)))) by lia.
  reflexivity.
Qed.

End RecognizerFuel.

(** ** The step types the recognizer produces *)

Section RecognizerKinds.
Local Open Scope string_scope.

Lemma parse_plain_kinds (l : string) (n : nat) (s : ParsedStep) :
  parse_plain l n = Some (RStep s) ->
  step_type s = "set_field" \/ has_encoder (step_type s) = true.
Proof.
  unfold parse_plain. intros H.
  repeat match type of H with
         | context [Regex.re_match ?p l] =>
             destruct (Regex.re_match p l);
             [ try (apply (inj Some) in H; injection H as <-; cbn; auto; fail) |]
         end.
  - destruct (_split_params _); [discriminate H|].
    apply (inj Some) in H. injection H as <-. cbn. auto.
  - discriminate H.
Qed.

(** Every step the recognizer returns has a type with an encoder, or the
    type [set_field]. *)
Lemma recognizer_kinds (line : string) (n : nat) (s : ParsedStep) :
  parse_line line n = Some (RStep s) ->
  step_type s = "set_field" \/ has_encoder (step_type s) = true.
Proof.
  unfold parse_line. generalize (S (String.length line)). intros fuel.
  revert line s. induction fuel as [|fuel IH]; intros line s H; [discriminate H|].
  cbn [parse_line_aux] in H.
  destruct (is_empty (PyStr.strip line)); [discriminate H|].
  destruct (PyStr.startswith (PyStr.strip line) "// ").
  - destruct (is_empty _); [discriminate H|].
    destruct (parse_line_aux fuel _ n) as [[|r|e]|] eqn:E; try discriminate H.
    apply (inj Some) in H. injection H as <-. apply (IH _ _ E).
  - destruct (PyStr.startswith (PyStr.strip line) "#").
    + apply (inj Some) in H. injection H as <-. right. reflexivity.
    + apply (parse_plain_kinds _ _ _ H).
Qed.

End RecognizerKinds.

(** ** Where splitter and balancer agree *)

Section SplitterAgreement.
Local Open Scope string_scope.

Lemma split_step_agrees (a : split_state) (b : spec_split_state) (ch : ascii) :
  no_paren ch = true ->
  split_states_agree a b ->
  split_states_agree (split_step a ch) (spec_split_step b ch).
Proof.
  unfold no_paren. intros N. apply andb_prop in N as [N1 N2].
  apply negb_true_iff in N1, N2.
  destruct a as [parts cur dp db q e], b as [parts' cur' [p' b' q' e']].
  unfold split_states_agree. cbn. intros (-> & -> & -> & -> & -> & -> & ->).
  unfold spec_split_step, at_top_level. cbn.
  destruct e'; cbn.
  - rewrite andb_false_r. cbn. auto 10.
  - destruct (Ascii.eqb ch "\") eqn:Eb.
    + apply Ascii.eqb_eq in Eb. subst ch. cbn. auto 10.
    + destruct (Ascii.eqb ch PyStr.dquote) eqn:Eq.
      * apply Ascii.eqb_eq in Eq. subst ch. cbn. auto 10.
      * rewrite N1, N2. destruct q'; cbn.
        -- rewrite andb_false_r. cbn. auto 10.
        -- destruct (Ascii.eqb ch "[") eqn:E1.
           { apply Ascii.eqb_eq in E1. subst ch. cbn. auto 10. }
           destruct (Ascii.eqb ch "]") eqn:E2.
           { apply Ascii.eqb_eq in E2. subst ch. cbn. auto 10. }
           destruct (Ascii.eqb ch ";"); cbn; [|auto 10].
           destruct (b' =? 0)%Z; cbn; auto 10.
Qed.

Lemma split_fold_agrees (s : string) :
  forall a b,
    all_chars no_paren s = true ->
    split_states_agree a b ->
    split_states_agree (fold_chars split_step s a) (fold_chars spec_split_step s b).
Proof.
  induction s as [|ch s IH]; intros a b N H; cbn; [exact H|].
  cbn in N. apply andb_prop in N as [Nc Ns].
  apply IH; [exact Ns | apply split_step_agrees; assumption].
Qed.

(** On a parameter list without parentheses the splitter splits exactly
    where the specification says. *)
Lemma split_params_agrees_without_parens (s : string) :
  all_chars no_paren s = true -> _split_params s = spec_split_params s.
Proof.
  intros N. unfold _split_params, spec_split_params.
  destruct (split_fold_agrees s split_init (mkSpecSplit [] "" count_init) N)
    as (Hp & Hc & _); [repeat split|].
  rewrite Hp, Hc. reflexivity.
Qed.

End SplitterAgreement.

(** ** The steps of the recognizer always encode *)

Section RecognizerEncodes.
Local Open Scope string_scope.

Lemma typed_empty : typed ∅.
Proof. intros k v E. rewrite lookup_empty in E. discriminate E. Qed.

Lemma typed_insert (p : gmap string pyval) (k : string) (v : pyval) :
  well_typed k v -> typed p -> typed (<[k := v]> p).
Proof.
  intros W H k' v'. destruct (decide (k = k')) as [<-|N].
  - rewrite lookup_insert_eq. intros E. apply (inj Some) in E. subst v'. exact W.
  - rewrite lookup_insert_ne by exact N. apply H.
Qed.

Lemma typed_fold (kvs : list (string * pyval)) :
  forall p, typed p -> Forall (fun kv => well_typed (fst kv) (snd kv)) kvs ->
            typed (fold_left (fun m kv => <[fst kv := snd kv]> m) kvs p).
Proof.
  induction kvs as [|kv kvs IH]; intros p H F; cbn; [exact H|].
  inversion F; subst. apply IH; [apply typed_insert; assumption | assumption].
Qed.

Lemma typed_dict (kvs : list (string * pyval)) :
  Forall (fun kv => well_typed (fst kv) (snd kv)) kvs -> typed (dict kvs).
Proof. apply typed_fold, typed_empty. Qed.

Lemma get_str_typed (p : gmap string pyval) (k d : string) :
  typed p -> k <> "buttons" -> k <> "no_dialog" -> k <> "pause" ->
  is_Some (get_str p k d).
Proof.
  intros H N1 N2 N3. unfold get_str. destruct (p !! k) as [v|] eqn:E; [|eauto].
  apply H in E. destruct v as [s|b|l]; cbn in E; [eauto | tauto | tauto].
Qed.

Lemma get_list_typed (p : gmap string pyval) (d : list string) :
  typed p -> is_Some (get_list p "buttons" d).
Proof.
  intros H. unfold get_list. destruct (p !! "buttons") as [v|] eqn:E; [|eauto].
  apply H in E. destruct v as [s|b|l]; cbn in E; [|destruct E; discriminate|eauto].
  destruct E as [E _]. contradiction E. reflexivity.
Qed.

Ltac read_params H :=
  repeat match goal with
         | |- context [get_str ?p ?k ?d] =>
             let x := fresh "x" in
             destruct (get_str_typed p k d H) as [x ->]; [discriminate ..|];
             cbn [mbind option_bind]
         | |- context [get_list ?p "buttons" ?d] =>
             let x := fresh "x" in
             destruct (get_list_typed p d H) as [x ->]; cbn [mbind option_bind]
         end.

Lemma step_to_xml_typed (s : ParsedStep) :
  typed_step s -> is_Some (step_to_xml s).
Proof.
  intros H. unfold step_to_xml.
  repeat match goal with
         | |- context [String.eqb (step_type s) ?k] =>
             destruct (String.eqb (step_type s) k); [read_params H; eauto |]
         end.
  eauto.
Qed.

Ltac typed_literal :=
  cbn [step_params step]; apply typed_dict;
  repeat (apply List.Forall_cons;
          [cbn; first [repeat split; discriminate | auto] |]);
  apply List.Forall_nil.

Lemma url_option_typed (p : gmap string pyval) (part : string) :
  typed p -> typed (url_option p part).
Proof.
  intros H. unfold url_option.
  repeat match goal with
         | |- context [if ?b then _ else _] => destruct b
         end;
    try (apply typed_insert; [cbn; repeat split; discriminate | exact H]); exact H.
Qed.

Lemma url_options_typed (parts : list string) :
  forall p, typed p -> typed (fold_left url_option parts p).
Proof.
  induction parts as [|x parts IH]; intros p H; cbn; [exact H|].
  apply IH, url_option_typed, H.
Qed.

Lemma parse_plain_typed (l : string) (n : nat) (s : ParsedStep) :
  parse_plain l n = Some (RStep s) -> typed_step s.
Proof.
  unfold parse_plain, typed_step. intros H.
  repeat match type of H with
         | context [Regex.re_match ?p l] =>
             destruct (Regex.re_match p l) as [m|];
             [ try (apply (inj Some) in H; injection H as <-; typed_literal) |]
         end.
  - destruct (_split_params _); [discriminate H|].
    apply (inj Some) in H. injection H as <-. typed_literal.
  - apply (inj Some) in H. injection H as <-. cbn [step_params].
    apply url_options_typed, typed_empty.
  - discriminate H.
Qed.

Lemma parse_line_typed (line : string) (n : nat) (s : ParsedStep) :
  parse_line line n = Some (RStep s) -> typed_step s.
Proof.
  unfold parse_line. generalize (S (String.length line)). intros fuel.
  revert line s. induction fuel as [|fuel IH]; intros line s H; [discriminate H|].
  cbn [parse_line_aux] in H.
  destruct (is_empty (PyStr.strip line)); [discriminate H|].
  destruct (PyStr.startswith (PyStr.strip line) "// ").
  - destruct (is_empty _); [discriminate H|].
    destruct (parse_line_aux fuel _ n) as [[|r|e]|] eqn:E; try discriminate H.
    apply (inj Some) in H. injection H as <-. apply (IH _ _ E).
  - destruct (PyStr.startswith (PyStr.strip line) "#").
    + apply (inj Some) in H. injection H as <-. unfold typed_step. typed_literal.
    + apply (parse_plain_typed _ _ _ H).
Qed.

Lemma Forall_snoc {A : Type} (P : A -> Prop) (l : list A) (x : A) :
  Forall P l -> P x -> Forall P (l ++ [x]).
Proof. intros F H. apply Forall_app_2; [exact F | constructor; [exact H | constructor]]. Qed.

Lemma flush_typed (st st' : acc_state) :
  Forall typed_step (acc_steps st) -> _flush st = Some st' ->
  Forall typed_step (acc_steps st').
Proof.
  intros F. unfold _flush. destruct (accumulator st).
  - intros E. apply (inj Some) in E. subst st'. exact F.
  - destruct (parse_line _ _) as [[|r|e]|] eqn:E; cbn [mbind option_bind];
      intros E'; try discriminate E'; apply (inj Some) in E'; subst st'; cbn; try exact F.
    apply Forall_snoc; [exact F | apply (parse_line_typed _ _ _ E)].
Qed.

Lemma acc_line_typed (st st' : acc_state) (i : nat) (line : string) :
  Forall typed_step (acc_steps st) -> acc_line st i line = Some st' ->
  Forall typed_step (acc_steps st').
Proof.
  intros F. unfold acc_line.
  destruct (accumulator st); [destruct (is_empty _)|];
    try (intros E; apply (inj Some) in E; subst st'; exact F);
    destruct (_count_delimiters _) as [p b];
    (destruct (balanced _);
     [apply flush_typed; exact F
     |intros E; apply (inj Some) in E; subst st'; exact F]).
Qed.

Lemma acc_lines_typed (lines : list string) :
  forall i st st',
    Forall typed_step (acc_steps st) -> acc_lines i lines st = Some st' ->
    Forall typed_step (acc_steps st').
Proof.
  induction lines as [|l lines IH]; intros i st st' F; cbn [acc_lines].
  - intros E. apply (inj Some) in E. subst st'. exact F.
  - destruct (acc_line st i l) as [st1|] eqn:E1; cbn [mbind option_bind]; [|discriminate].
    apply IH. apply (acc_line_typed _ _ _ _ F E1).
Qed.

Lemma merge_step_typed (done done' : list ParsedStep) (prev prev' s : ParsedStep) :
  Forall typed_step done -> typed_step prev -> typed_step s ->
  merge_step (done, prev) s = Some (done', prev') ->
  Forall typed_step done' /\ typed_step prev'.
Proof.
  intros F P Ts. unfold merge_step. destruct (mergeable prev s).
  - destruct (get_str (step_params prev) _ _) as [a|]; cbn [mbind option_bind]; [|discriminate].
    destruct (get_str (step_params s) _ _) as [b|]; cbn [mbind option_bind]; [|discriminate].
    intros E. apply (inj Some) in E. injection E as <- <-. split; [exact F|].
    unfold typed_step. cbn [set_param step_params].
    apply typed_insert; [cbn; repeat split; discriminate | exact P].
  - intros E. apply (inj Some) in E. injection E as <- <-. split; [|exact Ts].
    apply Forall_snoc; assumption.
Qed.

Lemma merge_loop_typed (steps : list ParsedStep) :
  forall done prev done' prev',
    Forall typed_step steps -> Forall typed_step done -> typed_step prev ->
    merge_loop steps (done, prev) = Some (done', prev') ->
    Forall typed_step done' /\ typed_step prev'.
Proof.
  induction steps as [|s steps IH]; intros done prev done' prev' Fs F P; cbn [merge_loop].
  - intros E. apply (inj Some) in E. injection E as <- <-. split; assumption.
  - apply Forall_cons_1 in Fs as [Ts Fs].
    destruct (merge_step (done, prev) s) as [[d1 p1]|] eqn:E1; cbn [mbind option_bind];
      [|discriminate].
    destruct (merge_step_typed _ _ _ _ _ F P Ts E1) as [F1 P1].
    apply IH; assumption.
Qed.

Lemma merge_comments_typed (steps merged : list ParsedStep) :
  Forall typed_step steps -> _merge_comments steps = Some merged ->
  Forall typed_step merged.
Proof.
  intros F. unfold _merge_comments. destruct steps as [|s0 rest].
  - intros E. apply (inj Some) in E. subst merged. constructor.
  - apply Forall_cons_1 in F as [Ts F].
    destruct (merge_loop rest ([], s0)) as [[d p]|] eqn:E1; cbn [mbind option_bind];
      [|discriminate].
    intros E. apply (inj Some) in E. subst merged.
    destruct (merge_loop_typed _ _ _ _ _ F (List.Forall_nil _) Ts E1) as [F1 P1].
    apply Forall_snoc; assumption.
Qed.

Lemma parse_text_typed (text : string) (steps : list ParsedStep) (errors : list string) :
  parse_text text = Some (steps, errors) -> Forall typed_step steps.
Proof.
  unfold parse_text.
  destruct (acc_lines _ _ _) as [st|] eqn:E1; cbn [mbind option_bind]; [|discriminate].
  destruct (_flush st) as [st'|] eqn:E2; cbn [mbind option_bind]; [|discriminate].
  destruct (_merge_comments _) as [m|] eqn:E3; cbn [mbind option_bind]; [|discriminate].
  intros E. apply (inj Some) in E. injection E as <- <-.
  assert (Forall typed_step (acc_steps acc_init)) as F0 by constructor.
  apply (merge_comments_typed _ _ (flush_typed _ _
           (acc_lines_typed _ _ _ _ F0 E1) E2) E3).
Qed.

Lemma step_xml_typed (s : ParsedStep) : typed_step s -> is_Some (step_xml s).
Proof.
  intros H. unfold step_xml. destruct (step_to_xml_typed s H) as [x ->].
  cbn [mbind option_bind]. eauto.
Qed.

Lemma generate_xml_typed (steps : list ParsedStep) :
  Forall typed_step steps -> is_Some (generate_xml steps).
Proof.
  intros F. unfold generate_xml. rewrite generate_loop_spec.
  assert (is_Some (mapM step_xml steps)) as [encs ->].
  { induction F as [|s steps H F IH]; cbn; [eauto|].
    destruct (step_xml_typed s H) as [x ->]. destruct IH as [encs ->].
    cbn. eauto. }
  cbn [mbind option_bind]. eauto.
Qed.

(** Whatever [parse_text] returns, [generate_xml] encodes: every parameter
    the recognizer stores has the type the encoder reads it at. *)
Lemma recognized_steps_encode (text : string) (steps : list ParsedStep)
      (errors : list string) :
  parse_text text = Some (steps, errors) -> is_Some (generate_xml steps).
Proof. intros H. apply generate_xml_typed, (parse_text_typed _ _ _ H). Qed.

Lemma merge_loop_total (steps : list ParsedStep) :
  forall done prev,
    Forall typed_step steps -> Forall typed_step done -> typed_step prev ->
    is_Some (merge_loop steps (done, prev)).
Proof.
  induction steps as [|s steps IH]; intros done prev Fs F P; cbn [merge_loop]; [eauto|].
  apply Forall_cons_1 in Fs as [Ts Fs].
  assert (is_Some (merge_step (done, prev) s)) as [[d1 p1] E1].
  { unfold merge_step. destruct (mergeable prev s); [|eauto].
    destruct (get_str_typed (step_params prev) "text" "" P) as [a ->]; try discriminate.
    destruct (get_str_typed (step_params s) "text" "" Ts) as [b ->]; try discriminate.
    cbn [mbind option_bind]. eauto. }
  rewrite E1. cbn [mbind option_bind].
  destruct (merge_step_typed _ _ _ _ _ F P Ts E1) as [F1 P1].
  apply IH; assumption.
Qed.

(** The comment merge never fails on the steps the accumulator collected:
    [parse_text] fails only where [parse_line] does. *)
Lemma merge_comments_total (steps : list ParsedStep) :
  Forall typed_step steps -> is_Some (_merge_comments steps).
Proof.
  intros F. unfold _merge_comments. destruct steps as [|s0 rest]; [eauto|].
  apply Forall_cons_1 in F as [Ts F].
  destruct (merge_loop_total rest [] s0 F (List.Forall_nil _) Ts) as [[d p] ->].
  cbn [mbind option_bind]. eauto.
Qed.

End RecognizerEncodes.

(** ** Composing and decompiling again *)

(** C1, as stated, fails: [Enter Find Mode [ Pause ]] is a supported
    instruction, it composes, and the composed XML decompiles to
    [Enter Find Mode]: the pause option is lost, which no treatment of
    whitespace restores. *)
Lemma round_trip_drops_find_mode_pause :
  exists xml,
    compose find_mode_pause_line = Some xml
    /\ has_encoder "enter_find_mode" = true
    /\ decompile_xml xml = Some "Enter Find Mode"
    /\ squeeze "Enter Find Mode" <> squeeze find_mode_pause_line
    /\ canonical_lines "Enter Find Mode" <> canonical_lines find_mode_pause_line.
Proof.
  eexists. split; [vm_compute; reflexivity|].
  split; [reflexivity|].
  split; [vm_compute; reflexivity|].
  split; vm_compute; discriminate.
Qed.

(** *** The recognizer on a bracketed calculation *)

Section RegexFacts.
Local Open Scope string_scope.
Import Regex.

Lemma lit_match_prefix (l r : string) : lit_match l (l ++ r) = Some r.
Proof.
  induction l as [|x l IH]; cbn; [destruct r; reflexivity|].
  rewrite Ascii.eqb_refl. exact IH.
Qed.

(** A repetition that succeeds has taken characters of its class and
    handed the rest to the continuation. *)
Lemma rep_match_sound {A : Type} (k : cls) (g : bool) (cont : string -> option A) (s : string) :
  forall lo hi v,
    rep_match k g cont lo hi s = Some v ->
    exists w r, s = w ++ r /\ all_chars (in_cls k) w = true /\ cont r = Some v.
Proof.
  induction s as [|x s IH]; intros lo hi v H; cbn in H.
  - destruct lo; [|discriminate H]. exists "", "". auto.
  - destruct (in_cls k x && may_take hi) eqn:T.
    + apply andb_prop in T as [Tx _].
      assert (forall v', rep_match k g cont (Nat.pred lo) (Nat.pred <$> hi) s = Some v' ->
                         exists w r, String x s = w ++ r /\ all_chars (in_cls k) w = true
                                     /\ cont r = Some v') as Rec.
      { intros v' H'. destruct (IH _ _ _ H') as (w & r & -> & Hw & Hr).
        exists (String x w), r. cbn. rewrite Tx, Hw. auto. }
      assert (forall v', match lo with O => cont (String x s) | S _ => None end = Some v' ->
                         exists w r, String x s = w ++ r /\ all_chars (in_cls k) w = true
                                     /\ cont r = Some v') as Stop.
      { intros v' H'. destruct lo; [|discriminate H']. exists "", (String x s). auto. }
      destruct g.
      * destruct (rep_match k true cont (Nat.pred lo) (Nat.pred <$> hi) s) as [v'|] eqn:E.
        -- apply (inj Some) in H. subst v'. apply Rec. reflexivity.
        -- apply Stop, H.
      * destruct (match lo with O => cont (String x s) | S _ => None end) as [v'|] eqn:E.
        -- apply (inj Some) in H. subst v'. apply Stop. reflexivity.
        -- apply Rec, H.
    + destruct lo; [|discriminate H]. exists "", (String x s). auto.
Qed.

(** A repetition stops at once before a character outside its class. *)
Lemma rep_match_stop {A : Type} (k : cls) (g : bool) (cont : string -> option A)
      (hi : option nat) (x : ascii) (s : string) :
  in_cls k x = false ->
  rep_match k g cont 0 hi (String x s) = cont (String x s).
Proof. intros H. cbn. rewrite H. reflexivity. Qed.

(** A lazy repetition hands over as soon as the continuation accepts. *)
Lemma rep_match_lazy_hit {A : Type} (k : cls) (cont : string -> option A)
      (hi : option nat) (t : string) (v : A) :
  cont t = Some v -> rep_match k false cont 0 hi t = Some v.
Proof.
  intros H. destruct t as [|x t]; cbn; [exact H|].
  destruct (in_cls k x && may_take hi); rewrite H; reflexivity.
Qed.

(** A lazy repetition walks over [s] when the continuation refuses every
    non-empty tail of [s]. *)
Lemma rep_match_lazy_walk {A : Type} (k : cls) (cont : string -> option A)
      (t : string) (v : A) (s : string) :
  all_chars (in_cls k) s = true ->
  (forall s1 s2, s = s1 ++ s2 -> s2 <> "" -> cont (s2 ++ t) = None) ->
  cont t = Some v ->
  rep_match k false cont 0 None (s ++ t) = Some v.
Proof.
  intros Hs Hn Ht. induction s as [|x s IH]; [apply rep_match_lazy_hit, Ht|].
  cbn in Hs. apply andb_prop in Hs as [Hx Hs].
  assert (cont (String x (s ++ t)) = None) as HN
      by (apply (Hn "" (String x s) eq_refl); discriminate).
  cbn. rewrite Hx. cbn. rewrite HN.
  apply IH; [exact Hs|].
  intros s1 s2 E N. apply (Hn (String x s1) s2); [rewrite E; reflexivity | exact N].
Qed.

Lemma take_app_length (a b : string) :
  PyStr.take (String.length (a ++ b) - String.length b) (a ++ b) = a.
Proof.
  rewrite append_length, Nat.add_sub.
  induction a as [|x a IH]; cbn; [destruct b; reflexivity|]. rewrite IH. reflexivity.
Qed.

Lemma all_space_last (w : string) :
  w <> "" -> all_chars PyStr.is_space w = true -> ends_nonspace w = false.
Proof.
  unfold ends_nonspace. induction w as [|x w IH]; [contradiction|].
  intros _ H. cbn in H. apply andb_prop in H as [Hx Hw].
  destruct w as [|y w'].
  - cbn. rewrite Hx. reflexivity.
  - apply IH; [discriminate | exact Hw].
Qed.

Lemma snoc_inj (a b : string) (x y : ascii) :
  a ++ String x "" = b ++ String y "" -> a = b /\ x = y.
Proof.
  revert b. induction a as [|c a IH]; intros b H.
  - destruct b as [|d b]; cbn in H.
    + injection H as ->. auto.
    + injection H as _ H. destruct b; discriminate H.
  - destruct b as [|d b]; cbn in H.
    + injection H as _ H. destruct a; discriminate H.
    + injection H as -> H. destruct (IH b H) as [-> ->]. auto.
Qed.

(** [\s*\]$] refuses what follows a non-empty text with no blank at its
    end. *)
Lemma closing_refuses (s2 : string) (cs : caps) (cont : string -> caps -> option caps) :
  s2 <> "" -> ends_nonspace s2 = true ->
  rmatch Pat.closing (s2 ++ " ]") cs cont = None.
Proof.
  intros N E. destruct (rmatch Pat.closing (s2 ++ " ]") cs cont) as [v|] eqn:H; [|reflexivity].
  exfalso. unfold Pat.closing, ws in H. cbn [rmatch] in H.
  apply rep_match_sound in H as (w & r & Hs & Hw & Hr).
  destruct r as [|c r]; cbn [lit_match] in Hr; [discriminate Hr|].
  change (PyStr.lower_char "]") with "]"%char in Hr.
  destruct (Ascii.eqb "]" (PyStr.lower_char c)) eqn:Ec; [|discriminate Hr].
  assert (c = "]"%char) as ->.
  { unfold PyStr.lower_char in Ec. destruct (PyStr.is_upper c) eqn:U.
    - exfalso. apply Ascii.eqb_eq in Ec. unfold PyStr.is_upper in U.
      apply andb_prop in U as [U1 U2]. apply N.leb_le in U1, U2.
      assert (PyStr.code (ascii_of_N (PyStr.code c + 32)) = 93%N) as Hc
          by (rewrite <- Ec; reflexivity).
      unfold PyStr.code in Hc at 1. rewrite N_ascii_embedding in Hc by lia. lia.
    - apply Ascii.eqb_eq in Ec. symmetry. exact Ec. }
  assert (s2 ++ " ]" = (s2 ++ " ") ++ "]") as Es by (rewrite append_assoc; reflexivity).
  destruct r as [|d [|? ?]].
  - rewrite Es in Hs. apply snoc_inj in Hs as [Hs _]. subst w.
    rewrite all_chars_app in Hw. apply andb_prop in Hw as [Hw _].
    rewrite (all_space_last s2 N Hw) in E. discriminate E.
  - destruct (Ascii.eqb d "010") eqn:Ed; [|discriminate Hr].
    apply Ascii.eqb_eq in Ed. subst d.
    assert (w ++ String "]" (String "010" "") = (w ++ "]") ++ String "010" "") as Ew
        by (rewrite append_assoc; reflexivity).
    rewrite Es, Ew in Hs. apply snoc_inj in Hs as [_ Hs]. discriminate Hs.
  - discriminate Hr.
Qed.

Lemma rep_match_greedy_one {A : Type} (k : cls) (cont : string -> option A)
      (a b : ascii) (s : string) (v : A) :
  in_cls k a = true -> in_cls k b = false ->
  cont (String b s) = Some v ->
  rep_match k true cont 0 None (String a (String b s)) = Some v.
Proof. intros Ha Hb Hc. cbn. rewrite Ha, Hb. cbn. rewrite Hc. reflexivity. Qed.

Lemma rep_match_lazy_first {A : Type} (k : cls) (cont : string -> option A)
      (x : ascii) (s : string) :
  in_cls k x = true ->
  rep_match k false cont 1 None (String x s) = rep_match k false cont 0 None s.
Proof. intros H. cbn. rewrite H. reflexivity. Qed.

Lemma rmatch_rep (k : cls) (lo : nat) (hi : option nat) (g : bool) (s : string)
      (cs : caps) (cont : string -> caps -> option caps) :
  rmatch (Rep k lo hi g) s cs cont = rep_match k g (fun rest => cont rest cs) lo hi s.
Proof. reflexivity. Qed.

Lemma printable_is_dot (s : string) :
  all_chars printable s = true -> all_chars (in_cls c_dot) s = true.
Proof.
  apply all_chars_weaken. intros c H. unfold printable in H.
  apply andb_prop in H as [H _]. apply N.leb_le in H.
  cbn. apply negb_true_iff, Ascii.eqb_neq. intros ->. cbn in H. lia.
Qed.

(** The pattern [^KW\s*\[\s*(.+?)\s*\]$] on [KW [ c ]] captures [c]. *)
Lemma bracketed_match (kw c : string) :
  plain_calc c = true ->
  re_match (Pat.bracketed kw) (calc_line kw c) = Some [(1, c)].
Proof.
  unfold plain_calc. intros P.
  apply andb_prop in P as [P _]. apply andb_prop in P as [P Pe].
  apply andb_prop in P as [Pp Ps].
  destruct c as [|x c]; [discriminate Ps|].
  assert (in_cls c_space x = false) as Sx by (cbn in Ps |- *; apply negb_true_iff, Ps).
  apply printable_is_dot in Pp. cbn [all_chars] in Pp. apply andb_prop in Pp as [Dx Dc].
  unfold re_match, calc_line.
  change (Pat.bracketed kw)
    with (Cat (Lit kw) (Cat ws (Cat (Lit "[") (Cat ws (Cat (Grp 1 some_lazy) Pat.closing))))).
  cbn [rmatch]. rewrite lit_match_prefix.
  change (" [ " ++ String x c ++ " ]")
    with (String " " (String "[" (String " " (String x (c ++ " ]"))))).
  apply rep_match_greedy_one; [reflexivity | reflexivity |].
  cbn [lit_match PyStr.lower_char PyStr.is_upper]. cbn [Ascii.eqb Bool.eqb].
  change (lit_match "[" (String "[" (String " " (String x (c ++ " ]")))))
    with (Some (String " " (String x (c ++ " ]")))).
  cbv iota.
  apply rep_match_greedy_one; [reflexivity | exact Sx |].
  unfold some_lazy. rewrite rmatch_rep, (rep_match_lazy_first _ _ _ _ Dx).
  apply rep_match_lazy_walk; [exact Dc | |]; cbv beta.
  - intros s1 s2 E N. apply closing_refuses; [exact N|].
    unfold ends_nonspace in *. rewrite E in Pe.
    change (String x (s1 ++ s2)) with (String x s1 ++ s2) in Pe.
    rewrite last_char_app in Pe by exact N. exact Pe.
  - unfold consumed.
    change (String x (c ++ " ]")) with (String x c ++ " ]").
    rewrite take_app_length. reflexivity.
Qed.

End RegexFacts.

(** *** The instruction lines without a parameter *)

Lemma plain_line_round_trips (l : string) :
  In l plain_lines -> round_trips l.
Proof.
  intros H. unfold plain_lines in H. cbn [In] in H.
  repeat (destruct H as [<-|H]; [|]); try contradiction;
    (constructor;
     [ vm_compute; reflexivity
     | reflexivity
     | split; reflexivity
     | vm_compute; reflexivity
     | vm_compute; reflexivity
     | intros n; vm_compute; reflexivity
     | intros n; vm_compute; reflexivity
     | intros n; vm_compute; reflexivity
     | intros [tg atts tx cs] stack root; vm_compute; reflexivity
     | vm_compute; reflexivity
     | eexists; vm_compute; reflexivity
     | vm_compute; reflexivity ]).
Qed.

(** *** The XML parser on a CDATA section *)

Section ParserFacts.
Local Open Scope string_scope.

Lemma feed_all_app (a b : string) (st : ET.pstate) :
  ET.feed_all (a ++ b) st = ET.feed_all a st ≫= ET.feed_all b.
Proof.
  revert st. induction a as [|x a IH]; intros st; cbn; [reflexivity|].
  destruct (ET.feed st x) as [st'|]; cbn; [apply IH | reflexivity].
Qed.

Lemma contains_tail (sub : string) (x : ascii) (s : string) :
  PyStr.contains sub (String x s) = false -> PyStr.contains sub s = false.
Proof. cbn. intros H. apply orb_false_elim in H as [_ H]. exact H. Qed.

Lemma printable_xml_char (x : ascii) : printable x = true -> ET.is_xml_char x = true.
Proof.
  unfold printable, ET.is_xml_char. intros H. apply andb_prop in H as [H _].
  rewrite H. apply orb_true_r.
Qed.

(** Inside a CDATA section that does not hold its terminator, the parser
    stays in the section and the text read so far, with the brackets held
    back, is the text fed. *)
Lemma cdata_feed (c : string) :
  forall (k : nat) (t tg : string) (atts : gmap string string)
         (stack : list ET.open_elem) (root : option ET.element),
    k <= 2 ->
    all_chars printable c = true ->
    PyStr.contains "]]>" (pending k ++ c) = false ->
    exists k' t',
      k' <= 2
      /\ ET.feed_all c (ET.mkP (ET.CData k) (ET.mkOpen tg atts t [] :: stack) root)
         = Some (ET.mkP (ET.CData k') (ET.mkOpen tg atts t' [] :: stack) root)
      /\ t' ++ pending k' = t ++ pending k ++ c.
Proof.
  induction c as [|x c IH]; intros k t tg atts stack root Hk Hp Hc.
  - exists k, t. rewrite append_nil_r. auto.
  - cbn [all_chars] in Hp. apply andb_prop in Hp as [Hx Hp].
    cbn [ET.feed_all]. unfold ET.feed. rewrite (printable_xml_char x Hx).
    cbn [negb ET.p_mode].
    destruct (Ascii.eqb x "]") eqn:Eb.
    + apply Ascii.eqb_eq in Eb. subst x.
      destruct k as [|[|[|k]]]; [| | |lia].
      * destruct (IH 1 t tg atts stack root) as (k' & t' & Hk' & Hf & Ht); [lia|exact Hp|exact Hc|].
        exists k', t'. split; [exact Hk'|]. split; [exact Hf|]. rewrite Ht. reflexivity.
      * destruct (IH 2 t tg atts stack root) as (k' & t' & Hk' & Hf & Ht); [lia|exact Hp|exact Hc|].
        exists k', t'. split; [exact Hk'|]. split; [exact Hf|]. rewrite Ht. reflexivity.
      * destruct (IH 2 (t ++ "]") tg atts stack root) as (k' & t' & Hk' & Hf & Ht);
          [lia|exact Hp|exact (contains_tail _ _ _ Hc)|].
        exists k', t'. split; [exact Hk'|]. split; [exact Hf|].
        rewrite Ht, !append_assoc. reflexivity.
    + destruct (Ascii.eqb x ">" && Nat.eqb k 2) eqn:Eg.
      * exfalso. apply andb_prop in Eg as [Eg Ek].
        apply Ascii.eqb_eq in Eg. apply Nat.eqb_eq in Ek. subst x k.
        cbn in Hc. discriminate Hc.
      * assert (PyStr.contains "]]>" c = false) as Hc'.
        { destruct k as [|[|[|k]]]; [| | |lia]; cbn [pending PyStr.repeat_str] in Hc.
          - exact (contains_tail _ _ _ Hc).
          - exact (contains_tail _ _ _ (contains_tail _ _ _ Hc)).
          - exact (contains_tail _ _ _ (contains_tail _ _ _ (contains_tail _ _ _ Hc))). }
        destruct (IH 0 (t ++ pending k ++ String x "") tg atts stack root)
          as (k' & t' & Hk' & Hf & Ht); [lia|exact Hp|exact Hc'|].
        exists k', t'. split; [exact Hk'|]. split.
        -- rewrite <- Hf. destruct k as [|[|[|k]]]; [| | |lia]; cbn; try reflexivity.
           ++ unfold push_char. rewrite !append_assoc. reflexivity.
           ++ unfold push_char. rewrite !append_assoc. reflexivity.
        -- rewrite Ht, !append_assoc. reflexivity.
Qed.

(** The terminator ends the section and releases the brackets held back. *)
Lemma cdata_end (k : nat) (t tg : string) (atts : gmap string string)
      (stack : list ET.open_elem) (root : option ET.element) :
  k <= 2 ->
  ET.feed_all "]]>" (ET.mkP (ET.CData k) (ET.mkOpen tg atts t [] :: stack) root)
  = Some (ET.mkP ET.Content (ET.mkOpen tg atts (t ++ pending k) [] :: stack) root).
Proof.
  intros Hk. destruct k as [|[|[|k]]]; [| | |lia].
  - rewrite append_nil_r. reflexivity.
  - reflexivity.
  - replace (t ++ pending 2) with ((t ++ "]") ++ "]")
      by (rewrite append_assoc; reflexivity).
    reflexivity.
Qed.

End ParserFacts.

(** *** The instruction lines with a calculation *)

Section CalcLines.
Local Open Scope string_scope.

Variables (kw c : string).
Hypothesis Hkw : In kw calc_keywords.
Hypothesis Hc : plain_calc c = true.

Lemma calc_printable : all_chars printable c = true.
Proof.
  unfold plain_calc in Hc. apply andb_prop in Hc as [H _].
  apply andb_prop in H as [H _]. apply andb_prop in H as [H _]. exact H.
Qed.

Lemma calc_starts : starts_nonspace c = true.
Proof.
  unfold plain_calc in Hc. apply andb_prop in Hc as [H _].
  apply andb_prop in H as [H _]. apply andb_prop in H as [_ H]. exact H.
Qed.

Lemma calc_ends : ends_nonspace c = true.
Proof.
  unfold plain_calc in Hc. apply andb_prop in Hc as [H _].
  apply andb_prop in H as [_ H]. exact H.
Qed.

Lemma calc_no_terminator : PyStr.contains "]]>" c = false.
Proof.
  unfold plain_calc in Hc. apply andb_prop in Hc as [_ H].
  apply negb_true_iff in H. exact H.
Qed.

Lemma calc_nonempty : exists x r, c = String x r.
Proof.
  generalize calc_starts. destruct c as [|x r]; [discriminate|]. eauto.
Qed.

Lemma calc_strip : PyStr.strip c = c.
Proof. apply strip_fixed; [apply calc_starts | apply calc_ends]. Qed.

Lemma calc_keyword_cases :
  kw = "If" \/ kw = "Else If" \/ kw = "Exit Loop If" \/ kw = "Exit Script".
Proof.
  generalize Hkw. unfold calc_keywords. cbn [In]. intuition.
Qed.

Lemma calc_parse (n : nat) :
  parse_plain (calc_line kw c) n = Some (RStep (calc_step kw c n)).
Proof.
  unfold parse_plain.
  destruct calc_keyword_cases as [-> | [-> | [-> | ->] ] ];
    repeat match goal with
           | |- context [Regex.re_match ?p (calc_line ?k c)] =>
               first [ replace (Regex.re_match p (calc_line k c)) with (@None Regex.caps)
                         by (vm_compute; reflexivity)
                     | change p with (Pat.bracketed k); rewrite (bracketed_match k c Hc) ]
           end;
    reflexivity.
Qed.

Lemma calc_line_step (n : nat) : line_step (calc_line kw c) n = calc_step kw c n.
Proof. unfold line_step. rewrite (calc_parse n). reflexivity. Qed.

Lemma calc_step_xml (n : nat) : step_xml (calc_step kw c n) = Some (calc_xml kw c).
Proof.
  destruct calc_nonempty as (x & r & ->).
  destruct calc_keyword_cases as [-> | [-> | [-> | ->] ] ]; vm_compute; reflexivity.
Qed.

Lemma calc_line_xml : line_xml (calc_line kw c) = calc_xml kw c.
Proof. unfold line_xml. rewrite calc_line_step, calc_step_xml. reflexivity. Qed.

Lemma calc_xml_shape :
  calc_xml kw c = calc_xml_head kw ++ c ++ "]]>" ++ "</Calculation></Step>".
Proof.
  unfold calc_xml, calc_xml_head. destruct (calc_kind kw) as [[[ty key] id] name].
  unfold calc, _cdata. rewrite !append_assoc. reflexivity.
Qed.

Lemma calc_feed (stack : list ET.open_elem) (root : option ET.element) :
  stack <> [] \/ root = None ->
  ET.feed_all (calc_xml kw c) (ET.mkP ET.Content stack root)
  = ET.add_element (calc_elem kw c) (ET.mkP ET.Content stack root).
Proof.
  intros Hctx.
  assert (exists atts,
             ET.feed_all (calc_xml_head kw) (ET.mkP ET.Content stack root)
             = Some (ET.mkP (ET.CData 0)
                            (ET.mkOpen "Calculation" ∅ "" []
                               :: ET.mkOpen "Step" atts "" [] :: stack) root)
             /\ (forall t, t <> "" ->
                  ET.feed_all "</Calculation></Step>"
                    (ET.mkP ET.Content
                            (ET.mkOpen "Calculation" ∅ t []
                               :: ET.mkOpen "Step" atts "" [] :: stack) root)
                  = ET.add_element
                      (ET.Element "Step" atts None [ET.Element "Calculation" ∅ (Some t) []])
                      (ET.mkP ET.Content stack root))
             /\ calc_elem kw c
                = ET.Element "Step" atts None [ET.Element "Calculation" ∅ (Some c) []])
    as (atts & Hhead & Htail & He).
  { destruct calc_keyword_cases as [-> | [-> | [-> | ->] ] ];
      (eexists; split; [|split; [|reflexivity]];
       [ destruct stack as [|o stack'];
         [ destruct Hctx as [Hctx | ->]; [contradiction|]; vm_compute; reflexivity
         | vm_compute; reflexivity ]
       | intros [|x t] Ht; [contradiction|];
         destruct stack as [|o stack'];
         [ destruct Hctx as [Hctx | ->]; [contradiction|]; vm_compute; reflexivity
         | destruct o; vm_compute; reflexivity ] ]). }
  rewrite calc_xml_shape, feed_all_app, Hhead. cbn [mbind option_bind].
  destruct (cdata_feed c 0 "" "Calculation" ∅ (ET.mkOpen "Step" atts "" [] :: stack) root)
    as (k & t & Hk & Hf & Ht);
    [lia | apply calc_printable | apply calc_no_terminator |].
  rewrite feed_all_app, Hf. cbn [mbind option_bind].
  rewrite feed_all_app, (cdata_end k t _ _ _ _ Hk). cbn [mbind option_bind].
  rewrite Ht. cbn [pending PyStr.repeat_str String.append].
  rewrite Htail, He; [reflexivity|].
  destruct calc_nonempty as (x & r & ->). discriminate.
Qed.

Lemma calc_line_elem : line_elem (calc_line kw c) = calc_elem kw c.
Proof.
  unfold line_elem, ET.fromstring. rewrite calc_line_xml.
  rewrite (calc_feed [] None) by (right; reflexivity). reflexivity.
Qed.

Lemma calc_get_calc_direct : _get_calc_direct (calc_elem kw c) = Some c.
Proof.
  destruct calc_nonempty as (x & r & E).
  unfold calc_elem. destruct (calc_kind kw) as [[[ty key] id] name].
  change (Some (PyStr.strip (or_str (Some c) "")) = Some c).
  replace (or_str (Some c) "") with c by (rewrite E; reflexivity).
  rewrite calc_strip. reflexivity.
Qed.

Lemma calc_step_texts : exists opens, step_texts (calc_elem kw c) = ([calc_line kw c], opens).
Proof.
  destruct calc_nonempty as (x & r & E).
  assert (or_str (Some c) "?" = c /\ or_str (Some c) "" = c /\ is_empty c = false)
    as (O1 & O2 & O3) by (rewrite E; auto).
  unfold step_texts. rewrite calc_get_calc_direct, O1, O2, O3.
  destruct calc_keyword_cases as [-> | [-> | [-> | ->] ] ];
    match goal with
    | |- context [ET.get ?e "id" ""] =>
        let v := eval vm_compute in (ET.get e "id" "") in
        replace (ET.get e "id" "") with v by (vm_compute; reflexivity)
    end;
    match goal with
    | |- context [ET.get ?e "name" ""] =>
        let v := eval vm_compute in (ET.get e "name" "") in
        replace (ET.get e "name" "") with v by (vm_compute; reflexivity)
    end;
    cbn [String.eqb Ascii.eqb Bool.eqb andb];
    eexists; reflexivity.
Qed.

Lemma calc_line_round_trips :
  complete_line (calc_line kw c) = true -> round_trips (calc_line kw c).
Proof.
  intros Hcomplete.
  assert (calc_line kw c = (kw ++ " [ " ++ c) ++ " ]") as Eline
      by (unfold calc_line; rewrite !append_assoc; reflexivity).
  assert (starts_nonspace (calc_line kw c) = true
          /\ is_empty (calc_line kw c) = false
          /\ PyStr.startswith (calc_line kw c) "// " = false
          /\ PyStr.startswith (calc_line kw c) "#" = false
          /\ no_newline kw = true) as (S1 & S2 & S3 & S4 & S5)
      by (destruct calc_keyword_cases as [-> | [-> | [-> | ->] ] ];
          repeat split; reflexivity).
  constructor.
  - apply strip_fixed; [exact S1|]. rewrite Eline. apply ends_nonspace_app. reflexivity.
  - exact S2.
  - split; assumption.
  - unfold calc_line, no_newline in *. rewrite !all_chars_app, S5.
    rewrite (all_chars_weaken printable _ c); [reflexivity | | apply calc_printable].
    intros ch H. unfold printable in H. apply andb_prop in H as [H _].
    apply N.leb_le in H. apply negb_true_iff, Ascii.eqb_neq. intros ->. cbn in H. lia.
  - exact Hcomplete.
  - intros n. rewrite calc_line_step. apply calc_parse.
  - intros n. rewrite calc_line_step.
    destruct calc_keyword_cases as [-> | [-> | [-> | ->] ] ]; reflexivity.
  - intros n. rewrite calc_line_step, calc_line_xml. apply calc_step_xml.
  - intros o stack root. rewrite calc_line_xml, calc_line_elem.
    apply calc_feed. left. discriminate.
  - rewrite calc_line_elem.
    destruct calc_keyword_cases as [-> | [-> | [-> | ->] ] ]; reflexivity.
  - rewrite calc_line_elem. apply calc_step_texts.
  - rewrite calc_line_elem.
    destruct calc_keyword_cases as [-> | [-> | [-> | ->] ] ]; reflexivity.
Qed.

End CalcLines.

Lemma instruction_line_round_trips (l : string) :
  instruction_line l -> round_trips l.
Proof.
  intros [l' H | kw c Hkw Hc Hl].
  - apply plain_line_round_trips, H.
  - apply calc_line_round_trips; assumption.
Qed.

(** *** From lines to texts *)

Section WholeTexts.
Local Open Scope string_scope.

Lemma parse_line_instruction (l : string) (n : nat) :
  round_trips l -> parse_line l n = Some (RStep (line_step l n)).
Proof.
  intros R. unfold parse_line. cbn [parse_line_aux].
  rewrite (rt_strip l R), (rt_nonempty l R).
  destruct (rt_no_marker l R) as [-> ->].
  apply (rt_parse l R).
Qed.

Lemma acc_line_blank (st : acc_state) (i : nat) (line : string) :
  idle st -> nonblank line = false -> acc_line st i line = Some st.
Proof.
  intros (A & _ & _) B. unfold acc_line. rewrite A.
  unfold nonblank in B. apply negb_false_iff in B. rewrite B. reflexivity.
Qed.

Lemma acc_line_instruction (st : acc_state) (i : nat) (line : string) :
  idle st -> nonblank line = true -> round_trips (PyStr.strip line) ->
  acc_line st i line
  = Some (mkAcc (acc_steps st ++ [line_step (PyStr.strip line) i])%list
                (acc_errors st) [] i 0 0).
Proof.
  intros (A & P & B) N R. unfold acc_line. rewrite A, P, B.
  unfold nonblank in N. apply negb_true_iff in N. rewrite N.
  generalize (rt_complete _ R). unfold complete_line.
  destruct (_count_delimiters (PyStr.strip line)) as [p b]. intros C.
  unfold balanced. cbn [paren_depth bracket_depth]. rewrite !Z.add_0_l, C.
  unfold _flush. cbn [accumulator app List.filter List.map start_line].
  rewrite N. cbn [negb List.map PyStr.join].
  rewrite (parse_line_instruction _ i R). reflexivity.
Qed.

Lemma acc_lines_instructions (lines : list string) :
  forall (i : nat) (st : acc_state),
    idle st ->
    Forall round_trips (List.map PyStr.strip (List.filter nonblank lines)) ->
    exists st' new,
      acc_lines i lines st = Some st'
      /\ idle st'
      /\ acc_errors st' = acc_errors st
      /\ acc_steps st' = (acc_steps st ++ new)%list
      /\ Forall2 (fun s l => exists n, s = line_step l n) new
                 (List.map PyStr.strip (List.filter nonblank lines)).
Proof.
  induction lines as [|line lines IH]; intros i st I F.
  - exists st, []. cbn. rewrite app_nil_r. repeat split; try apply I. constructor.
  - cbn [acc_lines List.filter] in *. destruct (nonblank line) eqn:N.
    + cbn [List.map] in F. inversion F as [|? ? R F']; subst.
      rewrite (acc_line_instruction st i line I N R). cbn [mbind option_bind].
      destruct (IH (S i) (mkAcc (acc_steps st ++ [line_step (PyStr.strip line) i])%list
                                (acc_errors st) [] i 0 0))
        as (st' & new & E & I' & Ee & Es & F2); [repeat split | exact F' |].
      exists st', (line_step (PyStr.strip line) i :: new).
      split; [exact E|]. split; [exact I'|]. split; [exact Ee|]. split.
      * rewrite Es. cbn [acc_steps]. rewrite <- app_assoc. reflexivity.
      * cbn [List.map]. constructor; [eauto | exact F2].
    + rewrite (acc_line_blank st i line I N). cbn [mbind option_bind].
      apply IH; assumption.
Qed.

Lemma no_comments_no_merge (steps : list ParsedStep) :
  Forall (fun s => is_comment s = false) steps -> adjacent_mergeable steps = false.
Proof.
  induction 1 as [|s steps Hs _ IH]; [reflexivity|].
  destruct steps as [|s' steps']; [reflexivity|].
  change (mergeable s s' || adjacent_mergeable (s' :: steps') = false).
  rewrite IH. unfold mergeable. rewrite Hs, andb_false_r. reflexivity.
Qed.

(** The recognizer on a text of instruction lines: one step per line and
    no error. *)
Lemma parse_text_instructions (text : string) :
  Forall round_trips (canonical_lines text) ->
  exists steps,
    parse_text text = Some (steps, [])
    /\ Forall2 (fun s l => exists n, s = line_step l n) steps (canonical_lines text).
Proof.
  intros F. unfold parse_text, canonical_lines in *.
  destruct (acc_lines_instructions (PyStr.split_char "010" text) 1 acc_init)
    as (st & new & E & (A & _ & _) & Ee & Es & F2); [repeat split | exact F |].
  exists new. rewrite E. cbn [mbind option_bind].
  unfold _flush. rewrite A. cbn [mbind option_bind].
  cbn [acc_steps acc_init app] in Es. rewrite Es, Ee.
  rewrite merge_comments_id.
  - cbn. split; [reflexivity | exact F2].
  - apply no_comments_no_merge.
    clear - F F2. induction F2 as [|s l ss ls (n & ->) _ IH]; constructor.
    + inversion F; subst. apply rt_kind. assumption.
    + apply IH. inversion F; assumption.
Qed.

(** The generator on the steps of instruction lines. *)
Lemma generate_xml_instructions (steps : list ParsedStep) (ls : list string) :
  Forall round_trips ls ->
  Forall2 (fun s l => exists n, s = line_step l n) steps ls ->
  generate_xml steps
  = Some (snippet_open ++ PyStr.concat (List.map line_xml ls) ++ snippet_close).
Proof.
  intros F F2. unfold generate_xml. rewrite generate_loop_spec.
  assert (mapM step_xml steps = Some (List.map line_xml ls)) as ->.
  { apply mapM_Some_2. clear - F F2.
    induction F2 as [|s l ss ls' (n & ->) _ IH]; cbn; constructor.
    - inversion F; subst. apply rt_xml. assumption.
    - apply IH. inversion F; assumption. }
  cbn [mbind option_bind]. rewrite concat_envelope. reflexivity.
Qed.

Lemma feed_instructions (ls : list string) :
  Forall round_trips ls ->
  forall cs,
    ET.feed_all (PyStr.concat (List.map line_xml ls))
                (ET.mkP ET.Content [ET.mkOpen "fmxmlsnippet" snippet_attrib "" cs] None)
    = Some (ET.mkP ET.Content
                   [ET.mkOpen "fmxmlsnippet" snippet_attrib ""
                              (cs ++ List.map line_elem ls)%list] None).
Proof.
  induction 1 as [|l ls R _ IH]; intros cs; cbn [List.map PyStr.concat].
  - rewrite app_nil_r. reflexivity.
  - rewrite feed_all_app, (rt_feed l R). cbn [ET.add_element ET.p_stack mbind option_bind].
    cbn [ET.o_tag ET.o_attrib ET.o_text ET.o_children ET.p_root].
    rewrite IH, <- app_assoc. reflexivity.
Qed.

Lemma fromstring_instructions (ls : list string) :
  Forall round_trips ls ->
  ET.fromstring (snippet_open ++ PyStr.concat (List.map line_xml ls) ++ snippet_close)
  = Some (ET.Element "fmxmlsnippet" snippet_attrib None (List.map line_elem ls)).
Proof.
  intros F. unfold ET.fromstring. rewrite feed_all_app.
  replace (ET.feed_all snippet_open (ET.mkP ET.Content [] None))
    with (Some (ET.mkP ET.Content [ET.mkOpen "fmxmlsnippet" snippet_attrib "" []] None))
    by (vm_compute; reflexivity).
  cbn [mbind option_bind]. rewrite feed_all_app, (feed_instructions ls F).
  cbn [mbind option_bind app].
  generalize (List.map line_elem ls). intros es. vm_compute. reflexivity.
Qed.

Lemma iter_instructions (ls : list string) :
  Forall round_trips ls ->
  ET.iter "Step" (ET.Element "fmxmlsnippet" snippet_attrib None (List.map line_elem ls))
  = List.map line_elem ls.
Proof.
  induction 1 as [|l ls R _ IH]; [reflexivity|].
  cbn [List.map].
  change (ET.iter "Step" (line_elem l)
          ++ ET.iter "Step" (ET.Element "fmxmlsnippet" snippet_attrib None
                                        (List.map line_elem ls))
          = line_elem l :: List.map line_elem ls)%list.
  rewrite (rt_iter l R), IH. reflexivity.
Qed.

Lemma decompile_step_instruction (l : string) (level : nat) :
  round_trips l ->
  exists k level',
    decompile_step level (line_elem l) = ([PyStr.repeat_str indent_str k ++ l], level').
Proof.
  intros R. unfold decompile_step.
  destruct (rt_texts l R) as [opens ->]. rewrite (rt_enable l R).
  cbn [String.eqb Ascii.eqb Bool.eqb List.map]. eauto.
Qed.

Lemma decompile_loop_instructions (ls : list string) :
  Forall round_trips ls ->
  forall lines level,
  exists out,
    decompile_loop (List.map line_elem ls) lines level = (lines ++ out)%list
    /\ Forall2 (fun o l => exists k, o = PyStr.repeat_str indent_str k ++ l) out ls.
Proof.
  induction 1 as [|l ls R _ IH]; intros lines level; cbn [List.map decompile_loop].
  - exists []. rewrite app_nil_r. split; [reflexivity | constructor].
  - destruct (decompile_step_instruction l level R) as (k & level' & ->).
    destruct (IH (lines ++ [(PyStr.repeat_str indent_str k ++ l)%string])%list level')
      as (out & -> & F2).
    exists ((PyStr.repeat_str indent_str k ++ l) :: out). split.
    + rewrite <- app_assoc. reflexivity.
    + constructor; [eauto | exact F2].
Qed.

(** The lines the decompiler prints are the instruction lines, indented. *)
Lemma canonical_lines_indented (out ls : list string) :
  Forall round_trips ls ->
  Forall2 (fun o l => exists k, o = PyStr.repeat_str indent_str k ++ l) out ls ->
  canonical_lines (PyStr.join (String "010" "") out) = ls.
Proof.
  intros F F2. unfold canonical_lines.
  destruct out as [|o out'] eqn:Eo.
  - inversion F2; subst. reflexivity.
  - rewrite <- Eo in *. rewrite split_join.
    + clear Eo. induction F2 as [|o1 l outs ls' (k & ->) _ IH]; [reflexivity|].
      inversion F as [|? ? R F']; subst.
      cbn [List.filter]. unfold nonblank at 1.
      rewrite strip_indent, (rt_strip l R), (rt_nonempty l R).
      cbn [negb List.map]. rewrite strip_indent, (rt_strip l R), (IH F'). reflexivity.
    + rewrite Eo. discriminate.
    + clear Eo. induction F2 as [|o1 l outs ls' (k & ->) _ IH]; constructor.
      * inversion F as [|? ? R F']; subst. unfold no_newline.
        rewrite all_chars_app. fold (no_newline (PyStr.repeat_str indent_str k)).
        rewrite no_newline_indent. exact (rt_no_newline l R).
      * apply IH. inversion F; assumption.
Qed.

End WholeTexts.

(** C1, amended: for every text whose non-blank lines are, up to
    indentation and trailing blanks, instruction lines of the fragment
    ([instruction_line]), the recognizer reports no error; the text composes
    when the validator accepts its nesting; and whenever it composes, the
    composed XML decompiles to a text with the same lines up to
    indentation, trailing blanks and blank lines. *)
Theorem instruction_lines_round_trip (text : string) :
  Forall instruction_line (canonical_lines text) ->
  exists steps,
    parse_text text = Some (steps, [])
    /\ (is_valid (validate_structure steps) = true -> is_Some (compose text))
    /\ forall xml,
        compose text = Some xml ->
        exists out,
          decompile_xml xml = Some out
          /\ canonical_lines out = canonical_lines text.
Proof.
  intros H.
  assert (Forall round_trips (canonical_lines text)) as F
      by (eapply Forall_impl; [apply instruction_line_round_trips | exact H]).
  destruct (parse_text_instructions text F) as (steps & P & F2).
  exists steps. split; [exact P|]. split.
  - intros V. unfold compose. rewrite P. cbn [mbind option_bind]. rewrite V.
    rewrite (generate_xml_instructions steps _ F F2). eauto.
  - intros xml C. unfold compose in C. rewrite P in C. cbn [mbind option_bind] in C.
    destruct (is_valid (validate_structure steps)); [|discriminate C].
    rewrite (generate_xml_instructions steps _ F F2) in C.
    apply (inj Some) in C. subst xml.
    unfold decompile_xml. rewrite (fromstring_instructions _ F). cbn [mbind option_bind].
    unfold decompile_root. rewrite (iter_instructions _ F).
    destruct (decompile_loop_instructions _ F [] 0) as (out & -> & F3).
    eexists. split; [reflexivity|].
    apply canonical_lines_indented; assumption.
Qed.

(** C1, amended, on a loop with a conditional inside, indented freely and
    with a blank line: its lines are instruction lines, it composes, and it
    comes back from the XML with the same lines. *)
Lemma instruction_lines_witness :
  Forall instruction_line (canonical_lines loop_text)
  /\ is_Some (compose loop_text)
  /\ exists steps,
      parse_text loop_text = Some (steps, [])
      /\ (is_valid (validate_structure steps) = true -> is_Some (compose loop_text))
      /\ forall xml,
          compose loop_text = Some xml ->
          exists out,
            decompile_xml xml = Some out
            /\ canonical_lines out = canonical_lines loop_text.
Proof.
  assert (Forall instruction_line (canonical_lines loop_text)) as F.
  { replace (canonical_lines loop_text)
      with ["Loop"; calc_line "If" "$i > Get(FoundCount)"; calc_line "Exit Loop If" "1";
            calc_line "Else If" "$list[2] = 0"; "Commit Records [ No dialog ]";
            "End If"; "End Loop"]
      by (vm_compute; reflexivity).
    repeat (constructor;
            [ first [ apply calc_instruction; [cbn; tauto | reflexivity | reflexivity]
                    | apply plain_instruction; cbn; tauto ] |]).
    constructor. }
  split; [exact F|]. split.
  - vm_compute. eexists. reflexivity.
  - apply (instruction_lines_round_trip loop_text). exact F.
Defined.
(** * Further properties of the code *)

(** ** Stripping *)

Section MoreStripFacts.
Local Open Scope string_scope.

Lemma lstrip_cases (s : string) :
  PyStr.lstrip s = "" \/ starts_nonspace (PyStr.lstrip s) = true.
Proof.
  induction s as [|x s IH]; cbn; [left; reflexivity|].
  destruct (PyStr.is_space x) eqn:E; [exact IH|].
  right. cbn. rewrite E. reflexivity.
Qed.

Lemma rstrip_cases (s : string) :
  PyStr.rstrip s = "" \/ ends_nonspace (PyStr.rstrip s) = true.
Proof.
  unfold ends_nonspace. induction s as [|x s IH]; cbn; [left; reflexivity|].
  destruct (PyStr.rstrip s) as [|y r] eqn:E.
  - destruct (PyStr.is_space x) eqn:Ex; [left; reflexivity|].
    right. cbn. rewrite Ex. reflexivity.
  - right. destruct IH as [IH|IH]; [discriminate IH|]. exact IH.
Qed.

Lemma rstrip_head (x : ascii) (s : string) :
  PyStr.is_space x = false -> exists r, PyStr.rstrip (String x s) = String x r.
Proof.
  intros E. cbn. destruct (PyStr.rstrip s); [rewrite E|]; eauto.
Qed.

Lemma strip_cases (s : string) :
  PyStr.strip s = ""
  \/ (starts_nonspace (PyStr.strip s) = true /\ ends_nonspace (PyStr.strip s) = true).
Proof.
  unfold PyStr.strip. destruct (lstrip_cases s) as [->|H]; [left; reflexivity|].
  right. split.
  - destruct (PyStr.lstrip s) as [|x r]; [discriminate H|]. cbn in H.
    apply negb_true_iff in H. destruct (rstrip_head x r H) as [r' ->].
    cbn. rewrite H. reflexivity.
  - destruct (rstrip_cases (PyStr.lstrip s)) as [E|E]; [|exact E].
    destruct (PyStr.lstrip s) as [|x r]; [discriminate H|]. cbn in H.
    apply negb_true_iff in H. destruct (rstrip_head x r H) as [r' E']. congruence.
Qed.

Lemma strip_idempotent (s : string) : PyStr.strip (PyStr.strip s) = PyStr.strip s.
Proof.
  destruct (strip_cases s) as [->|[H1 H2]]; [reflexivity|]. apply strip_fixed; assumption.
Qed.

Lemma is_empty_true (s : string) : is_empty s = true <-> s = "".
Proof. destruct s; cbn; split; congruence. Qed.

Lemma is_empty_false (s : string) : is_empty s = false <-> s <> "".
Proof. destruct s; cbn; split; congruence. Qed.

Lemma rstrip_idempotent (s : string) : PyStr.rstrip (PyStr.rstrip s) = PyStr.rstrip s.
Proof.
  destruct (rstrip_cases s) as [->|H]; [reflexivity|]. apply rstrip_ends_nonspace, H.
Qed.

Lemma lstrip_rstrip (s : string) :
  PyStr.lstrip (PyStr.rstrip s) = PyStr.rstrip (PyStr.lstrip s).
Proof.
  induction s as [|x s IH]; [reflexivity|].
  destruct (PyStr.is_space x) eqn:E.
  - cbn [PyStr.lstrip]. rewrite E. rewrite <- IH. cbn [PyStr.rstrip].
    destruct (PyStr.rstrip s) as [|y r]; [rewrite E; reflexivity|].
    cbn [PyStr.lstrip]. rewrite E. reflexivity.
  - cbn [PyStr.lstrip]. rewrite E.
    destruct (rstrip_head x s E) as [r ->]. cbn [PyStr.lstrip]. rewrite E. reflexivity.
Qed.

Lemma strip_rstrip (s : string) : PyStr.strip (PyStr.rstrip s) = PyStr.strip s.
Proof.
  unfold PyStr.strip. rewrite lstrip_rstrip, rstrip_idempotent. reflexivity.
Qed.

Lemma rstrip_app (a b : string) :
  PyStr.rstrip b <> "" -> PyStr.rstrip (a ++ b) = a ++ PyStr.rstrip b.
Proof.
  intros H. induction a as [|x a IH]; [reflexivity|].
  cbn [String.append PyStr.rstrip]. rewrite IH.
  destruct (a ++ PyStr.rstrip b) eqn:E; [|reflexivity].
  destruct a; cbn in E; [contradiction | discriminate E].
Qed.

Lemma rstrip_empty_strip (s : string) : PyStr.rstrip s = "" -> PyStr.strip s = "".
Proof.
  intros H. rewrite <- strip_rstrip, H. reflexivity.
Qed.

Lemma lstrip_suffix (s : string) : exists pre, s = pre ++ PyStr.lstrip s.
Proof.
  induction s as [|x s [pre IH]]; [exists ""; reflexivity|].
  cbn. destruct (PyStr.is_space x).
  - exists (String x pre). cbn. rewrite <- IH. reflexivity.
  - exists "". reflexivity.
Qed.

Lemma take_drop (n : nat) (s : string) : s = PyStr.take n s ++ PyStr.drop n s.
Proof.
  revert s. induction n as [|n IH]; intros [|x s]; cbn; try reflexivity.
  rewrite <- IH. reflexivity.
Qed.

Lemma startswith_app (p r : string) : PyStr.startswith (p ++ r) p = true.
Proof.
  induction p as [|x p IH]; [reflexivity|]. cbn. rewrite Ascii.eqb_refl. exact IH.
Qed.

Lemma startswith_split (s p : string) :
  PyStr.startswith s p = true -> s = p ++ PyStr.drop (String.length p) s.
Proof.
  revert s. induction p as [|a p IH]; intros s H; [reflexivity|].
  destruct s as [|b s]; [discriminate H|]. cbn in H.
  apply andb_prop in H as [E H]. apply Ascii.eqb_eq in E. subst b.
  cbn. rewrite <- (IH s H). reflexivity.
Qed.

Lemma drop_app_length (p r : string) : PyStr.drop (String.length p) (p ++ r) = r.
Proof. induction p as [|x p IH]; [reflexivity|]. exact IH. Qed.

(** A stripped line that opens with the disable marker has something
    after it. *)
Lemma marker_has_inner (t : string) :
  PyStr.strip t = t -> PyStr.startswith t "// " = true ->
  is_empty (PyStr.strip (PyStr.drop 3 t)) = false
  /\ exists pre, t = pre ++ PyStr.strip (PyStr.drop 3 t).
Proof.
  intros S M. pose proof (startswith_split t "// " M) as E. cbn [String.length] in E.
  set (u := PyStr.drop 3 t) in *.
  destruct (strip_cases t) as [Z|[_ H2]]; [rewrite S in Z; rewrite Z in M; discriminate M|].
  rewrite S in H2.
  destruct (lstrip_suffix u) as [pre Hu].
  destruct (PyStr.lstrip u) as [|x r] eqn:L.
  - exfalso. rewrite append_nil_r in Hu. unfold ends_nonspace in H2.
    rewrite E in H2.
    assert (u = "" \/ exists c, last_char u = Some c /\ PyStr.is_space c = true) as [W|(c & W & Wc)].
    { clear -L. induction u as [|y u IH]; [left; reflexivity|].
      right. cbn in L. destruct (PyStr.is_space y) eqn:Ey; [|discriminate L].
      destruct (IH L) as [->|(c & W & Wc)].
      - exists y. split; [reflexivity | exact Ey].
      - exists c. split; [|exact Wc]. cbn. destruct u; [discriminate W | exact W]. }
    + rewrite W in H2. discriminate H2.
    + rewrite last_char_app in H2 by (intros ->; discriminate W).
      rewrite W, Wc in H2. discriminate H2.
  - assert (ends_nonspace (String x r) = true) as H3.
    { unfold ends_nonspace in *. rewrite E, Hu in H2.
      rewrite <- append_assoc in H2. rewrite last_char_app in H2 by discriminate.
      exact H2. }
    unfold PyStr.strip. rewrite L, (rstrip_ends_nonspace _ H3).
    split; [reflexivity|]. exists ("// " ++ pre).
    rewrite E at 1. rewrite Hu at 1. rewrite append_assoc. reflexivity.
Qed.

End MoreStripFacts.

(** ** The recognizer on blank, disabled and unknown lines *)

Section RecognizerLines.
Local Open Scope string_scope.

Ltac plain_branches H l tac :=
  repeat match type of H with
         | context [Regex.re_match ?p l] =>
             destruct (Regex.re_match p l);
             [ try (apply (inj Some) in H; injection H as <-; tac; fail) |]
         end.

Lemma parse_plain_fields (l : string) (n : nat) (s : ParsedStep) :
  parse_plain l n = Some (RStep s) ->
  line_num s = n /\ raw_text s = l /\ enabled s = true /\ registered (step_type s) = true.
Proof.
  unfold parse_plain. intros H.
  plain_branches H l ltac:(repeat split; reflexivity).
  - destruct (_split_params _); [discriminate H|].
    apply (inj Some) in H. injection H as <-. repeat split; reflexivity.
  - discriminate H.
Qed.

Lemma parse_plain_not_blank (l : string) (n : nat) : parse_plain l n <> Some RNone.
Proof.
  unfold parse_plain. intros H.
  plain_branches H l ltac:(idtac).
  all: try discriminate H.
  destruct (_split_params _); discriminate H.
Qed.


(** [parse_line] looks at its line through [strip]. *)
Lemma parse_line_aux_strip (fuel : nat) (line : string) (n : nat) :
  parse_line_aux fuel (PyStr.strip line) n = parse_line_aux fuel line n.
Proof.
  destruct fuel as [|fuel]; [reflexivity|]. cbn [parse_line_aux].
  rewrite strip_idempotent. reflexivity.
Qed.

Lemma parse_line_strip (line : string) (n : nat) :
  parse_line (PyStr.strip line) n = parse_line line n.
Proof.
  unfold parse_line. rewrite <- (parse_line_aux_strip (S (String.length line))).
  apply parse_line_fuel; pose proof (strip_length line); lia.
Qed.

Lemma parse_line_aux_blank (fuel : nat) :
  forall line n,
    parse_line_aux fuel line n = Some RNone -> is_empty (PyStr.strip line) = true.
Proof.
  induction fuel as [|fuel IH]; intros line n H; [discriminate H|].
  cbn [parse_line_aux] in H.
  destruct (is_empty (PyStr.strip line)) eqn:B; [reflexivity|].
  destruct (PyStr.startswith (PyStr.strip line) "// ") eqn:M.
  - destruct (marker_has_inner _ (strip_idempotent line) M) as [I _].
    rewrite I in H.
    destruct (parse_line_aux fuel _ n) as [[|r|e]|] eqn:E; try discriminate H.
    apply IH in E. rewrite strip_idempotent in E. congruence.
  - destruct (PyStr.startswith (PyStr.strip line) "#"); [discriminate H|].
    exfalso. exact (parse_plain_not_blank _ _ H).
Qed.

(** X1: [parse_line] returns [None] exactly on a blank line: a line that is
    not blank gives a step or an error.  The test [if not inner] behind the
    disable marker never fires, since a stripped line cannot end in the
    blank of [// ]. *)
Theorem parse_line_none_iff_blank (line : string) (n : nat) :
  parse_line line n = Some RNone <-> is_empty (PyStr.strip line) = true.
Proof.
  split.
  - apply parse_line_aux_blank.
  - intros B. unfold parse_line. cbn [parse_line_aux]. rewrite B. reflexivity.
Qed.

Lemma strip_marker (l : string) :
  is_empty (PyStr.strip l) = false ->
  PyStr.strip ("// " ++ l) = "// " ++ PyStr.rstrip l.
Proof.
  intros B. unfold PyStr.strip. change (PyStr.lstrip ("// " ++ l)) with ("// " ++ l).
  apply rstrip_app. intros E. apply rstrip_empty_strip in E. rewrite E in B. discriminate B.
Qed.

Lemma enabled_disable (s : ParsedStep) : enabled (disable s) = false.
Proof. reflexivity. Qed.

End RecognizerLines.

Section RecognizerResults.
Local Open Scope string_scope.

(** X2: a line [// L] with [L] not blank is read as [L] is: the same step
    with [enabled] false, or the same error message (which does not show
    the marker). *)
Theorem disabled_line_parses_as_inner (l : string) (n : nat) :
  is_empty (PyStr.strip l) = false ->
  parse_line ("// " ++ l) n
  = match parse_line l n with
    | Some (RStep s) => Some (RStep (disable s))
    | r => r
    end.
Proof.
  intros B. unfold parse_line at 1. cbn [parse_line_aux].
  rewrite (strip_marker l B).
  change (is_empty ("// " ++ PyStr.rstrip l)) with false.
  rewrite (startswith_app "// "). cbn [is_empty].
  change (PyStr.drop 3 ("// " ++ PyStr.rstrip l)) with (PyStr.rstrip l).
  rewrite strip_rstrip, B.
  rewrite parse_line_aux_strip.
  rewrite (parse_line_fuel n _ (S (String.length l)) l); [reflexivity | cbn; lia | lia].
Qed.

Lemma disabled_line_witness :
  is_empty (PyStr.strip "  Loop ") = false
  /\ parse_line ("// " ++ "  Loop ") 7
     = match parse_line "  Loop " 7 with
       | Some (RStep s) => Some (RStep (disable s))
       | r => r
       end.
Proof.
  split; [reflexivity|]. apply (disabled_line_parses_as_inner "  Loop " 7). reflexivity.
Defined.

Lemma parse_line_aux_fields (fuel : nat) :
  forall line n s,
    parse_line_aux fuel line n = Some (RStep s) ->
    line_num s = n
    /\ registered (step_type s) = true
    /\ enabled s = negb (PyStr.startswith (PyStr.strip line) "// ").
Proof.
  induction fuel as [|fuel IH]; intros line n s H; [discriminate H|].
  cbn [parse_line_aux] in H.
  destruct (is_empty (PyStr.strip line)); [discriminate H|].
  destruct (PyStr.startswith (PyStr.strip line) "// ").
  - destruct (is_empty _); [discriminate H|].
    destruct (parse_line_aux fuel _ n) as [[|r|e]|] eqn:E; try discriminate H.
    apply (inj Some) in H. injection H as <-.
    destruct (IH _ _ _ E) as (L & R & _). repeat split; assumption.
  - destruct (PyStr.startswith (PyStr.strip line) "#").
    + apply (inj Some) in H. injection H as <-. repeat split; reflexivity.
    + destruct (parse_plain_fields _ _ _ H) as (L & _ & En & R). repeat split; assumption.
Qed.

(** X3: every step [parse_line] returns carries the line number it was
    given and a type registered in [STEP_DEFS], and is disabled exactly
    when the stripped line opens with the marker [// ]. *)
Theorem recognized_step_fields (line : string) (n : nat) (s : ParsedStep) :
  parse_line line n = Some (RStep s) ->
  line_num s = n
  /\ registered (step_type s) = true
  /\ enabled s = negb (PyStr.startswith (PyStr.strip line) "// ").
Proof. apply parse_line_aux_fields. Qed.

Lemma recognized_step_fields_witness :
  parse_line "// Go to Layout [ Main ]" 12
  = Some (RStep (disable (step "go_to_layout" [("layout", VStr "Main")] 12
                               "Go to Layout [ Main ]")))
  /\ line_num (disable (step "go_to_layout" [("layout", VStr "Main")] 12
                             "Go to Layout [ Main ]")) = 12
  /\ registered "go_to_layout" = true
  /\ false = negb (PyStr.startswith (PyStr.strip "// Go to Layout [ Main ]") "// ").
Proof.
  assert (parse_line "// Go to Layout [ Main ]" 12
          = Some (RStep (disable (step "go_to_layout" [("layout", VStr "Main")] 12
                                       "Go to Layout [ Main ]")))) as H
      by (vm_compute; reflexivity).
  split; [exact H|]. exact (recognized_step_fields _ _ _ H).
Defined.




End RecognizerResults.

(** ** Soundness of the matcher *)

Section MatcherSoundness.
Local Open Scope string_scope.
Import Regex.

Lemma rep_match_matches {A : Type} (k : cls) (g : bool) (cont : string -> option A)
      (s : string) :
  forall lo hi v,
    rep_match k g cont lo hi s = Some v ->
    exists w r, s = w ++ r /\ all_chars (in_cls k) w = true
                /\ lo <= String.length w /\ cont r = Some v.
Proof.
  induction s as [|x s IH]; intros lo hi v H; cbn in H.
  - destruct lo; [|discriminate H]. exists "", "". repeat split; [cbn; lia | exact H].
  - assert (forall v', rep_match k g cont (Nat.pred lo) (Nat.pred <$> hi) s = Some v' ->
                       in_cls k x = true ->
                       exists w r, String x s = w ++ r /\ all_chars (in_cls k) w = true
                                   /\ lo <= String.length w /\ cont r = Some v') as Rec.
    { intros v' H' Tx. destruct (IH _ _ _ H') as (w & r & -> & Hw & Hl & Hr).
      exists (String x w), r. cbn. rewrite Tx, Hw. repeat split; [lia | exact Hr]. }
    assert (forall v', match lo with O => cont (String x s) | S _ => None end = Some v' ->
                       exists w r, String x s = w ++ r /\ all_chars (in_cls k) w = true
                                   /\ lo <= String.length w /\ cont r = Some v') as Stop.
    { intros v' H'. destruct lo; [|discriminate H'].
      exists "", (String x s). repeat split; [cbn; lia | exact H']. }
    destruct (in_cls k x && may_take hi) eqn:T; [|apply Stop, H].
    apply andb_prop in T as [Tx _].
    destruct g.
    + destruct (rep_match k true cont (Nat.pred lo) (Nat.pred <$> hi) s) as [v'|] eqn:E.
      * apply (inj Some) in H. subst v'. apply Rec; [reflexivity | exact Tx].
      * apply Stop, H.
    + destruct (match lo with O => cont (String x s) | S _ => None end) as [v'|] eqn:E.
      * apply (inj Some) in H. subst v'. apply Stop. reflexivity.
      * apply Rec; [exact H | exact Tx].
Qed.

(** Whatever [rmatch] answers, it has matched the pattern and handed what
    is left to its continuation. *)
Lemma rmatch_sound (r : re) :
  forall s cs cont m,
    rmatch r s cs cont = Some m ->
    exists rest cs', matches r s cs rest cs' /\ cont rest cs' = Some m.
Proof.
  induction r as [l|k lo hi g|r1 IH1 r2 IH2|r1 IH1 r2 IH2|n r1 IH1|r1 IH1|];
    intros s cs cont m H; cbn [rmatch] in H; cbn [matches].
  - destruct (lit_match l s) as [rest|] eqn:E; [|discriminate H]. eauto.
  - destruct (rep_match_matches _ _ _ _ _ _ _ H) as (w & rest & -> & Hw & Hl & Hr).
    exists rest, cs. eauto 10.
  - destruct (IH1 _ _ _ _ H) as (mid & csm & M1 & H2).
    destruct (IH2 _ _ _ _ H2) as (rest & cs' & M2 & H3). eauto 10.
  - destruct (rmatch r1 s cs cont) as [m'|] eqn:E.
    + apply (inj Some) in H. subst m'.
      destruct (IH1 _ _ _ _ E) as (rest & cs' & M1 & H2). eauto.
    + destruct (IH2 _ _ _ _ H) as (rest & cs' & M2 & H2). eauto.
  - destruct (IH1 _ _ _ _ H) as (rest & cs1 & M1 & H2). eauto 10.
  - destruct (rmatch r1 s cs cont) as [m'|] eqn:E.
    + apply (inj Some) in H. subst m'.
      destruct (IH1 _ _ _ _ E) as (rest & cs' & M1 & H2). eauto.
    + eauto 10.
  - destruct s as [|c [|d s']].
    + eauto 10.
    + destruct (Ascii.eqb c "010") eqn:E; [|discriminate H].
      apply Ascii.eqb_eq in E. subst c. eauto 10.
    + discriminate H.
Qed.

Lemma consumed_app (w rest : string) : consumed (w ++ rest) rest = w.
Proof.
  unfold consumed. apply take_app_length.
Qed.

(** A match of [^KW\s*\[\s*(.+?)\s*\]$] has captured at least one
    character in its group. *)
Lemma bracketed_group (kw l : string) (m : caps) :
  re_match (Pat.bracketed kw) l = Some m ->
  exists g, m = [(1, g)] /\ is_empty g = false /\ no_newline g = true.
Proof.
  unfold re_match. intros H.
  apply rmatch_sound in H as (rest & cs' & M & H).
  apply (inj Some) in H. subst cs'.
  cbn [Pat.bracketed seq matches ws some_lazy] in M.
  destruct M as (s1 & c1 & [_ ->] & s2 & c2 & [-> _] & s3 & c3 & [_ ->]
                 & s4 & c4 & [-> _] & s5 & c5 & (c0 & [-> (w & -> & Hw & Hl)] & ->)
                 & s6 & c6 & [-> _] & s7 & c7 & [_ ->] & _ & -> & _).
  exists (consumed (w ++ s5) s5). split; [reflexivity|].
  rewrite consumed_app. split.
  - destruct w; [cbn in Hl; lia | reflexivity].
  - exact Hw.
Qed.

End MatcherSoundness.

(** ** The splitter *)

Section Splitter.
Local Open Scope string_scope.

Lemma join_snoc (sep x : string) (l : list string) :
  l <> [] -> PyStr.join sep (l ++ [x]) = PyStr.join sep l ++ sep ++ x.
Proof.
  induction l as [|a l IH]; [contradiction|]. intros _.
  destruct l as [|b l]; [reflexivity|].
  change (PyStr.join sep ((a :: b :: l) ++ [x]))
    with (a ++ sep ++ PyStr.join sep ((b :: l) ++ [x])).
  rewrite IH by discriminate.
  change (PyStr.join sep (a :: b :: l)) with (a ++ sep ++ PyStr.join sep (b :: l)).
  rewrite !append_assoc. reflexivity.
Qed.

Lemma join_push (sep cur : string) (c : ascii) (l : list string) :
  PyStr.join sep (l ++ [push_char cur c]) = PyStr.join sep (l ++ [cur]) ++ String c "".
Proof.
  destruct l as [|a l]; [reflexivity|].
  rewrite !join_snoc by discriminate. unfold push_char. rewrite !append_assoc. reflexivity.
Qed.

Lemma split_step_text (st : split_state) (c : ascii) :
  PyStr.join ";" (split_all (split_step st c))
  = PyStr.join ";" (split_all st) ++ String c "".
Proof.
  destruct st as [parts cur dp db q e]. unfold split_step, split_all.
  repeat match goal with
         | |- context [if ?b then _ else _] => destruct b eqn:?
         end; cbn [sp_parts sp_current]; try apply join_push.
  rewrite join_snoc by (destruct parts; discriminate).
  repeat match goal with
         | H : _ && _ = true |- _ => apply andb_prop in H; destruct H
         end.
  match goal with H : Ascii.eqb c ";" = true |- _ => apply Ascii.eqb_eq in H; subst c end.
  reflexivity.
Qed.

Lemma split_fold_text (s : string) :
  forall st,
    PyStr.join ";" (split_all (fold_chars split_step s st))
    = PyStr.join ";" (split_all st) ++ s.
Proof.
  induction s as [|c s IH]; intros st; cbn [fold_chars].
  - rewrite append_nil_r. reflexivity.
  - rewrite IH, split_step_text, append_assoc. reflexivity.
Qed.

Lemma split_params_empty (s : string) : _split_params s = [] <-> s = "".
Proof.
  split; [|intros ->; reflexivity].
  unfold _split_params. pose proof (split_fold_text s split_init) as T.
  unfold split_all in T. cbn [split_init sp_parts sp_current app PyStr.join] in T.
  destruct (sp_current (fold_chars split_step s split_init)) as [|x cur].
  - intros E. rewrite E in T. cbn in T. symmetry. exact T.
  - intros E. destruct (sp_parts _); discriminate E.
Qed.

(** X5: [_split_params] loses nothing but the separators it splits at: its
    parts joined with [;] give the input back, up to one trailing [;]; and
    it returns the empty list only for the empty string. *)
Theorem split_params_keeps_text (s : string) :
  (s = PyStr.join ";" (_split_params s) \/ s = PyStr.join ";" (_split_params s) ++ ";")
  /\ (_split_params s = [] <-> s = "").
Proof.
  split; [|apply split_params_empty].
  unfold _split_params. pose proof (split_fold_text s split_init) as T.
  unfold split_all in T. cbn [split_init sp_parts sp_current app] in T.
  change (PyStr.join ";" [""]) with "" in T. cbn [String.append] in T.
  destruct (sp_current (fold_chars split_step s split_init)) as [|x cur].
  - destruct (sp_parts (fold_chars split_step s split_init)) as [|p ps].
    + left. symmetry. exact T.
    + right. rewrite join_snoc in T by discriminate. symmetry. exact T.
  - left. symmetry. exact T.
Qed.

Lemma split_fold_plain (p : string) :
  forall parts cur,
    plain_param p = true ->
    fold_chars split_step p (mkSplit parts cur 0 0 false false)
    = mkSplit parts (cur ++ p) 0 0 false false.
Proof.
  unfold plain_param. induction p as [|c p IH]; intros parts cur H; cbn [fold_chars].
  - rewrite append_nil_r. reflexivity.
  - cbn [all_chars] in H. apply andb_prop in H as [Hc Hp].
    unfold plain_param_char in Hc.
    repeat match goal with
           | H : _ && _ = true |- _ => apply andb_prop in H; destruct H
           end.
    repeat match goal with
           | H : negb _ = true |- _ => apply negb_true_iff in H
           end.
    assert (split_step (mkSplit parts cur 0 0 false false) c
            = mkSplit parts (push_char cur c) 0 0 false false) as ->.
    { unfold split_step.
      repeat match goal with
             | H : Ascii.eqb c _ = false |- _ => rewrite H; clear H
             end.
      reflexivity. }
    rewrite (IH _ _ Hp). unfold push_char. rewrite append_assoc. reflexivity.
Qed.

Lemma split_fold_parts (ps : list string) :
  forall parts cur p,
    Forall (fun q => plain_param q = true) (p :: ps) ->
    fold_chars split_step (PyStr.join ";" (p :: ps)) (mkSplit parts cur 0 0 false false)
    = mkSplit (parts ++ (removelast ((cur ++ p) :: ps))) (List.last ((cur ++ p) :: ps) "")
              0 0 false false.
Proof.
  induction ps as [|q ps IH]; intros parts cur p F.
  - cbn [PyStr.join removelast List.last]. rewrite app_nil_r.
    apply split_fold_plain. inversion F; assumption.
  - change (PyStr.join ";" (p :: q :: ps)) with (p ++ ";" ++ PyStr.join ";" (q :: ps)).
    inversion F as [|? ? Hp F']; subst.
    assert (forall a b st, fold_chars split_step (a ++ b) st
                           = fold_chars split_step b (fold_chars split_step a st)) as A.
    { clear. induction a as [|x a IH]; intros b st; cbn; [reflexivity | apply IH]. }
    rewrite A, (split_fold_plain _ _ _ Hp).
    cbn [String.append fold_chars].
    change (split_step (mkSplit parts (cur ++ p) 0 0 false false) ";")
      with (mkSplit (parts ++ [cur ++ p]) "" 0 0 false false).
    rewrite (IH _ _ _ F'). cbn [String.append].
    change (removelast ((cur ++ p) :: q :: ps)) with ((cur ++ p) :: removelast (q :: ps)).
    change (List.last ((cur ++ p) :: q :: ps) "") with (List.last (q :: ps) "").
    rewrite <- app_assoc. reflexivity.
Qed.

(** X6: splitting undoes joining: for parts free of [;], quotes,
    backslashes, parentheses and brackets, the last of them not empty,
    [_split_params] gives back the parts that were joined with [;] (empty
    parts in the middle included). *)
Theorem split_params_of_join (parts : list string) :
  Forall (fun p => plain_param p = true) parts ->
  list.last parts <> Some "" ->
  _split_params (PyStr.join ";" parts) = parts.
Proof.
  intros F L0. destruct parts as [|p ps]; [reflexivity|].
  assert (List.last (p :: ps) "x" <> "") as L.
  { intros E. apply L0. clear -E. revert p E.
    induction ps as [|q ps IH]; intros p E; [cbn in E |- *; congruence|].
    apply (IH q E). }
  unfold _split_params, split_init.
  rewrite (split_fold_parts ps [] "" p F). cbn [String.append sp_current sp_parts app].
  assert (List.last (p :: ps) "" = List.last (p :: ps) "x") as E.
  { clear. revert p. induction ps as [|q ps IH]; intros p; [reflexivity|]. apply (IH q). }
  destruct (List.last (p :: ps) "") as [|x l] eqn:EL; [congruence|].
  rewrite <- EL. symmetry. apply app_removelast_last. discriminate.
Qed.

Lemma split_params_of_join_witness :
  Forall (fun p => plain_param p = true) ["Target: $result"; ""; "URL: $url"]
  /\ list.last ["Target: $result"; ""; "URL: $url"] <> Some ""
  /\ _split_params (PyStr.join ";" ["Target: $result"; ""; "URL: $url"])
     = ["Target: $result"; ""; "URL: $url"].
Proof.
  assert (Forall (fun p => plain_param p = true) ["Target: $result"; ""; "URL: $url"]) as F
      by (repeat constructor).
  assert (list.last ["Target: $result"; ""; "URL: $url"] <> Some "") as L
      by (cbn; discriminate).
  split; [exact F|]. split; [exact L|]. exact (split_params_of_join _ F L).
Defined.

End Splitter.

(** ** The recognizer never fails *)

Section RecognizerTotal.
Local Open Scope string_scope.

Lemma parse_plain_total (l : string) (n : nat) : is_Some (parse_plain l n).
Proof.
  destruct (parse_plain l n) as [r|] eqn:H; [eauto|]. exfalso.
  unfold parse_plain in H.
  repeat match type of H with
         | context [Regex.re_match ?p l] =>
             let E := fresh "E" in
             destruct (Regex.re_match p l) eqn:E;
             [ try discriminate H | clear E ]
         end.
  - destruct (_split_params _) eqn:S; [|discriminate H].
    apply split_params_empty in S.
    match goal with
    | E : Regex.re_match Pat.perform_script l = Some _ |- _ =>
        apply bracketed_group in E; destruct E as (g & -> & G & _)
    end.
    cbn in S. subst g. discriminate G.
  - discriminate H.
Qed.

Lemma parse_line_aux_total (fuel : nat) :
  forall line n, String.length line < fuel -> is_Some (parse_line_aux fuel line n).
Proof.
  induction fuel as [|fuel IH]; intros line n L; [lia|].
  cbn [parse_line_aux].
  destruct (is_empty (PyStr.strip line)); [eauto|].
  destruct (PyStr.startswith (PyStr.strip line) "// ") eqn:M.
  - destruct (is_empty _); [eauto|].
    assert (is_Some (parse_line_aux fuel (PyStr.strip (PyStr.drop 3 (PyStr.strip line))) n))
      as [r ->].
    { apply IH. apply startswith_length in M. cbn in M.
      pose proof (strip_length (PyStr.drop 3 (PyStr.strip line))) as L1.
      rewrite drop_length in L1. pose proof (strip_length line) as L2. lia. }
    destruct r; eauto.
  - destruct (PyStr.startswith (PyStr.strip line) "#"); [eauto|].
    apply parse_plain_total.
Qed.

Lemma parse_line_total (line : string) (n : nat) : is_Some (parse_line line n).
Proof. apply parse_line_aux_total. lia. Qed.

Lemma flush_total (st : acc_state) : is_Some (_flush st).
Proof.
  unfold _flush. destruct (accumulator st); [eauto|].
  destruct (parse_line_total
              (PyStr.join " "
                 (List.map PyStr.strip
                    (List.filter (fun l => negb (is_empty (PyStr.strip l))) (s :: l))))
              (start_line st)) as [r ->].
  cbn [mbind option_bind]. destruct r; eauto.
Qed.

Lemma acc_line_total (st : acc_state) (i : nat) (line : string) :
  is_Some (acc_line st i line).
Proof.
  unfold acc_line.
  destruct (accumulator st); [destruct (is_empty _); [eauto|]|];
    destruct (_count_delimiters _) as [p b];
    (destruct (balanced _); [apply flush_total | eauto]).
Qed.

Lemma acc_lines_total (lines : list string) :
  forall i st, is_Some (acc_lines i lines st).
Proof.
  induction lines as [|l lines IH]; intros i st; cbn [acc_lines]; [eauto|].
  destruct (acc_line_total st i l) as [st' ->]. cbn [mbind option_bind]. apply IH.
Qed.

(** X7: [parse_line] never raises: it answers on every line.  The only
    indexing that could fail, [parts[0]] in the [Perform Script] branch,
    reads a list that is never empty, because the group [(.+?)] it was
    split from is not. *)
Theorem parse_line_never_raises (line : string) (n : nat) :
  is_Some (parse_line line n).
Proof. apply parse_line_total. Qed.

(** X8: [parse_text] answers on every text, and [generate_xml] encodes
    whatever steps it returns: every parameter the recognizer stores has
    the type the encoder reads it at. *)
Theorem parse_text_then_generate_never_raise (text : string) :
  exists steps errors xml,
    parse_text text = Some (steps, errors) /\ generate_xml steps = Some xml.
Proof.
  assert (is_Some (parse_text text)) as [[steps errs] P].
  { unfold parse_text.
    destruct (acc_lines_total (PyStr.split_char "010" text) 1 acc_init) as [st E1].
    rewrite E1. cbn [mbind option_bind].
    destruct (flush_total st) as [st' E2]. rewrite E2. cbn [mbind option_bind].
    assert (Forall typed_step (acc_steps acc_init)) as F0 by constructor.
    pose proof (flush_typed _ _ (acc_lines_typed _ _ _ _ F0 E1) E2) as F.
    destruct (merge_comments_total _ F) as [m ->]. cbn [mbind option_bind]. eauto. }
  destruct (generate_xml_typed steps (parse_text_typed _ _ _ P)) as [xml G].
  eauto.
Qed.

End RecognizerTotal.

(** ** The balancer *)

Section Balancer.
Local Open Scope string_scope.
Local Open Scope Z_scope.

Lemma fold_chars_app {A : Type} (f : A -> ascii -> A) (a b : string) :
  forall st, fold_chars f (a ++ b) st = fold_chars f b (fold_chars f a st).
Proof. induction a as [|x a IH]; intros st; cbn; [reflexivity | apply IH]. Qed.

Lemma count_fold_quote_free (s : string) :
  forall p b,
    quote_free s = true ->
    fold_chars count_step s (mkCount p b false false)
    = mkCount (p + (count_char "(" s - count_char ")" s))
              (b + (count_char "[" s - count_char "]" s)) false false.
Proof.
  unfold quote_free. induction s as [|c s IH]; intros p b H; cbn [fold_chars count_char].
  - f_equal; lia.
  - cbn [all_chars] in H. apply andb_prop in H as [Hc Hs].
    apply andb_prop in Hc as [Hq Hb]. apply negb_true_iff in Hq, Hb.
    unfold count_step at 2. rewrite Hb, Hq.
    destruct (Ascii.eqb c "(") eqn:E1.
    { apply Ascii.eqb_eq in E1. subst c. rewrite (IH _ _ Hs). cbn. f_equal; lia. }
    destruct (Ascii.eqb c ")") eqn:E2.
    { apply Ascii.eqb_eq in E2. subst c. rewrite (IH _ _ Hs). cbn. f_equal; lia. }
    destruct (Ascii.eqb c "[") eqn:E3.
    { apply Ascii.eqb_eq in E3. subst c. rewrite (IH _ _ Hs). cbn. f_equal; lia. }
    destruct (Ascii.eqb c "]") eqn:E4.
    { apply Ascii.eqb_eq in E4. subst c. rewrite (IH _ _ Hs). cbn. f_equal; lia. }
    rewrite (IH _ _ Hs). f_equal; lia.
Qed.

Lemma count_fold_in_quote (s : string) :
  forall p b,
    quote_free s = true ->
    fold_chars count_step s (mkCount p b true false) = mkCount p b true false.
Proof.
  unfold quote_free. induction s as [|c s IH]; intros p b H; cbn [fold_chars]; [reflexivity|].
  cbn [all_chars] in H. apply andb_prop in H as [Hc Hs].
  apply andb_prop in Hc as [Hq Hb]. apply negb_true_iff in Hq, Hb.
  unfold count_step at 2. rewrite Hb, Hq. apply IH, Hs.
Qed.

(** X9: on a text without quote and backslash, [_count_delimiters] returns
    the number of [(] less the number of [)], and the number of [[] less
    the number of []]. *)
Theorem count_delimiters_quote_free (s : string) :
  quote_free s = true ->
  _count_delimiters s
  = (count_char "(" s - count_char ")" s, count_char "[" s - count_char "]" s).
Proof.
  intros H. unfold _count_delimiters, count_init.
  rewrite (count_fold_quote_free s 0 0 H). reflexivity.
Qed.

Lemma count_delimiters_quote_free_witness :
  quote_free "Max(a[1]; (b" = true
  /\ _count_delimiters "Max(a[1]; (b"
     = (count_char "(" "Max(a[1]; (b" - count_char ")" "Max(a[1]; (b",
        count_char "[" "Max(a[1]; (b" - count_char "]" "Max(a[1]; (b").
Proof.
  split; [reflexivity|]. apply (count_delimiters_quote_free "Max(a[1]; (b"). reflexivity.
Defined.

(** X10: a string literal does not count: after a text without quote and
    backslash, a quoted run without quote and backslash inside leaves the
    result of [_count_delimiters] as if it were not there, whatever
    follows. *)
Theorem count_delimiters_skips_literal (a q b : string) :
  quote_free a = true -> quote_free q = true ->
  _count_delimiters (a ++ quoted q ++ b) = _count_delimiters (a ++ b).
Proof.
  intros Ha Hq. unfold _count_delimiters, count_init, quoted.
  rewrite !fold_chars_app. rewrite (count_fold_quote_free a 0 0 Ha).
  cbn [String.append fold_chars]. rewrite fold_chars_app.
  change (count_step (mkCount ?p ?b false false) PyStr.dquote) with (mkCount p b true false).
  rewrite (count_fold_in_quote q _ _ Hq). reflexivity.
Qed.

Lemma count_delimiters_skips_literal_witness :
  quote_free "Left(" = true /\ quote_free ");[" = true
  /\ _count_delimiters ("Left(" ++ quoted ");[" ++ "; 1)")
     = _count_delimiters ("Left(" ++ "; 1)").
Proof.
  split; [reflexivity|]. split; [reflexivity|].
  apply (count_delimiters_skips_literal "Left(" ");[" "; 1)"); reflexivity.
Defined.

End Balancer.

(** ** Line numbers of the steps of [parse_text] *)

Section LineNumbers.
Local Open Scope string_scope.

Lemma ascending_weaken (lo lo' : nat) (l : list nat) :
  lo' <= lo -> ascending lo l -> ascending lo' l.
Proof. destruct l as [|x l]; cbn; [auto|]. intros L [H1 H2]. split; [lia | exact H2]. Qed.

Lemma ascending_snoc (l : list nat) :
  forall lo x, ascending lo l -> List.last l lo < x -> ascending lo (l ++ [x]).
Proof.
  induction l as [|y l IH]; intros lo x A L; cbn in *; [auto|].
  destruct A as [A1 A2]. split; [exact A1|]. apply IH; [exact A2|].
  destruct l; [exact L|]. erewrite last_default_irrelevant; exact L.
Qed.

Lemma ascending_sublist (l1 l2 : list nat) :
  sublist l1 l2 -> forall lo, ascending lo l2 -> ascending lo l1.
Proof.
  induction 1 as [|x l1 l2 S IH|x l1 l2 S IH]; intros lo A; cbn in *; [exact I| |].
  - destruct A as [A1 A2]. split; [exact A1 | apply IH, A2].
  - destruct A as [A1 A2]. apply IH. apply (ascending_weaken x lo); [lia | exact A2].
Qed.

Lemma Forall_sublist {A : Type} (P : A -> Prop) (l1 l2 : list A) :
  sublist l1 l2 -> Forall P l2 -> Forall P l1.
Proof.
  induction 1 as [|x l1 l2 S IH|x l1 l2 S IH]; intros F; [constructor| |].
  - inversion F; subst. constructor; [assumption | apply IH; assumption].
  - inversion F; subst. apply IH; assumption.
Qed.

Lemma last_below (l : list nat) (i : nat) :
  0 < i -> Forall (fun k => k < i) l -> List.last l 0 < i.
Proof.
  intros P F. induction F as [|x l Hx F IH]; [exact P|].
  destruct l; [exact Hx | exact IH].
Qed.

Lemma acc_inv_step (i : nat) (st : acc_state) :
  acc_inv i st -> acc_inv (S i) st.
Proof.
  intros (A & F & St). split; [exact A|]. split.
  - eapply Forall_impl; [|exact F]. cbn. intros; lia.
  - intros N. destruct (St N). split; lia.
Qed.

Lemma flush_inv (i : nat) (st st' : acc_state) :
  acc_inv i st -> _flush st = Some st' ->
  acc_inv i st' /\ accumulator st' = [].
Proof.
  intros (A & F & St). unfold _flush. destruct (accumulator st) eqn:E.
  - intros H. apply (inj Some) in H. subst st'. split; [|exact E].
    split; [exact A|]. split; [exact F|]. rewrite E. contradiction.
  - destruct St as [S1 S2]; [discriminate|].
    destruct (parse_line _ _) as [r|] eqn:P; cbn [mbind option_bind]; [|discriminate].
    destruct r as [|s1|e]; intros H; apply (inj Some) in H; subst st';
      (split; [|reflexivity]); unfold acc_inv, acc_nums; cbn [acc_steps accumulator];
      (split; [|split; [|contradiction]]); try assumption.
    + destruct (parse_line_aux_fields _ _ _ _ P) as [L _].
      rewrite map_app. cbn [List.map]. rewrite L. apply ascending_snoc; assumption.
    + destruct (parse_line_aux_fields _ _ _ _ P) as [L _].
      rewrite map_app. cbn [List.map]. rewrite L.
      apply Forall_app_2; [exact F | constructor; [exact S2 | constructor]].
Qed.

Lemma acc_line_inv (i : nat) (st st' : acc_state) (line : string) :
  0 < i -> acc_inv i st -> acc_line st i line = Some st' -> acc_inv (S i) st'.
Proof.
  intros P Inv. pose proof (acc_inv_step _ _ Inv) as (A & F & St).
  unfold acc_line. destruct (accumulator st) eqn:E.
  - destruct (is_empty _).
    + intros H. apply (inj Some) in H. subst st'. apply acc_inv_step, Inv.
    + destruct (_count_delimiters _) as [p b].
      match goal with
      | |- (if balanced ?s then _ else _) = _ -> _ =>
          assert (acc_inv (S i) s) as Inv1
      end.
      { split; [exact A|]. split; [exact F|]. intros _. cbn [start_line acc_nums acc_steps].
        split; [|lia]. apply last_below; [exact P|]. destruct Inv as (_ & F0 & _). exact F0. }
      destruct (balanced _).
      * intros H. apply (flush_inv _ _ _ Inv1 H).
      * intros H. apply (inj Some) in H. subst st'. exact Inv1.
  - destruct (_count_delimiters _) as [p b].
    match goal with
    | |- (if balanced ?s then _ else _) = _ -> _ =>
        assert (acc_inv (S i) s) as Inv1
    end.
    { split; [exact A|]. split; [exact F|]. intros _. cbn [start_line acc_nums acc_steps].
      apply St. discriminate. }
    destruct (balanced _).
    + intros H. apply (flush_inv _ _ _ Inv1 H).
    + intros H. apply (inj Some) in H. subst st'. exact Inv1.
Qed.

Lemma acc_lines_inv (lines : list string) :
  forall i st st',
    0 < i -> acc_inv i st -> acc_lines i lines st = Some st' ->
    acc_inv (i + List.length lines) st'.
Proof.
  induction lines as [|l lines IH]; intros i st st' P Inv; cbn [acc_lines List.length].
  - intros H. apply (inj Some) in H. subst st'. rewrite Nat.add_0_r. exact Inv.
  - destruct (acc_line st i l) as [st1|] eqn:E; cbn [mbind option_bind]; [|discriminate].
    intros H. replace (i + S (List.length lines)) with (S i + List.length lines) by lia.
    apply (IH (S i) st1); [lia | apply (acc_line_inv _ _ _ _ P Inv E) | exact H].
Qed.

(** The comment merge only drops steps: the line numbers it returns are a
    sublist of those it was given. *)
Lemma merge_loop_sublist (steps : list ParsedStep) :
  forall done prev done' prev',
    merge_loop steps (done, prev) = Some (done', prev') ->
    sublist (List.map line_num (done' ++ [prev']))
            (List.map line_num (done ++ prev :: steps)).
Proof.
  induction steps as [|s steps IH]; intros done prev done' prev'; cbn [merge_loop].
  - intros H. apply (inj Some) in H. injection H as <- <-. reflexivity.
  - destruct (merge_step (done, prev) s) as [[d1 p1]|] eqn:E; cbn [mbind option_bind];
      [|discriminate].
    intros H. apply IH in H. etransitivity; [exact H|].
    unfold merge_step in E. destruct (mergeable prev s).
    + destruct (get_str (step_params prev) _ _); cbn [mbind option_bind] in E;
        [|discriminate E].
      destruct (get_str (step_params s) _ _); cbn [mbind option_bind] in E;
        [|discriminate E].
      apply (inj Some) in E. injection E as <- <-.
      rewrite !map_app. apply sublist_app; [reflexivity|].
      cbn [List.map set_param line_num]. apply sublist_skip. apply sublist_cons. reflexivity.
    + apply (inj Some) in E. injection E as <- <-.
      rewrite <- app_assoc. reflexivity.
Qed.

Lemma merge_comments_sublist (steps merged : list ParsedStep) :
  _merge_comments steps = Some merged ->
  sublist (List.map line_num merged) (List.map line_num steps).
Proof.
  unfold _merge_comments. destruct steps as [|s0 rest].
  - intros H. apply (inj Some) in H. subst merged. reflexivity.
  - destruct (merge_loop rest ([], s0)) as [[d p]|] eqn:E; cbn [mbind option_bind];
      [|discriminate].
    intros H. apply (inj Some) in H. subst merged.
    apply (merge_loop_sublist _ _ _ _ _ E).
Qed.

(** X11: the steps [parse_text] returns carry strictly growing line
    numbers, each between 1 and the number of lines of the text. *)
Theorem parse_text_line_numbers (text : string) (steps : list ParsedStep)
        (errors : list string) :
  parse_text text = Some (steps, errors) ->
  ascending 0 (List.map line_num steps)
  /\ Forall (fun s => line_num s <= List.length (PyStr.split_char "010" text)) steps.
Proof.
  unfold parse_text.
  destruct (acc_lines _ _ _) as [st|] eqn:E1; cbn [mbind option_bind]; [|discriminate].
  destruct (_flush st) as [st'|] eqn:E2; cbn [mbind option_bind]; [|discriminate].
  destruct (_merge_comments _) as [m|] eqn:E3; cbn [mbind option_bind]; [|discriminate].
  intros H. apply (inj Some) in H. injection H as <- <-.
  assert (acc_inv 1 acc_init) as I0.
  { split; [exact I|]. split; [constructor|]. cbn. contradiction. }
  pose proof (acc_lines_inv _ _ _ _ Nat.lt_0_1 I0 E1) as I1.
  destruct (flush_inv _ _ _ I1 E2) as [(A & F & _) _].
  pose proof (merge_comments_sublist _ _ E3) as Sub.
  split; [apply (ascending_sublist _ _ Sub), A|].
  pose proof (Forall_sublist _ _ _ Sub F) as F'.
  apply (proj1 (Forall_map _ _ _)) in F'.
  eapply Forall_impl; [|exact F']. cbn. intros; lia.
Qed.

Lemma parse_text_line_numbers_witness :
  parse_text if_end_loop_text = Some (if_end_loop_steps, [])
  /\ ascending 0 (List.map line_num if_end_loop_steps)
  /\ Forall (fun s => line_num s
                       <= List.length (PyStr.split_char "010" if_end_loop_text))
            if_end_loop_steps.
Proof.
  assert (parse_text if_end_loop_text = Some (if_end_loop_steps, [])) as H
      by (vm_compute; reflexivity).
  split; [exact H|]. exact (parse_text_line_numbers _ _ _ H).
Defined.

End LineNumbers.

(** ** Blank input *)

Section BlankInput.
Local Open Scope string_scope.

Lemma lstrip_all_space (s : string) :
  all_chars PyStr.is_space s = true -> PyStr.lstrip s = "".
Proof.
  induction s as [|x s IH]; cbn; [reflexivity|].
  intros H. apply andb_prop in H as [Hx Hs]. rewrite Hx. apply IH, Hs.
Qed.

Lemma strip_all_space (s : string) :
  all_chars PyStr.is_space s = true -> PyStr.strip s = "".
Proof. intros H. unfold PyStr.strip. rewrite (lstrip_all_space s H). reflexivity. Qed.

Lemma split_all_space (s : string) :
  all_chars PyStr.is_space s = true ->
  Forall (fun l => all_chars PyStr.is_space l = true) (PyStr.split_char "010" s).
Proof.
  induction s as [|x s IH]; cbn; [repeat constructor|].
  intros H. apply andb_prop in H as [Hx Hs]. specialize (IH Hs).
  destruct (Ascii.eqb x "010"); [constructor; [reflexivity | exact IH]|].
  destruct (PyStr.split_char "010" s) as [|w ws]; [repeat constructor; cbn; rewrite Hx; reflexivity|].
  inversion IH; subst. constructor; [cbn; rewrite Hx; assumption | assumption].
Qed.

Lemma acc_lines_blank (lines : list string) :
  forall i st,
    accumulator st = [] ->
    Forall (fun l => all_chars PyStr.is_space l = true) lines ->
    acc_lines i lines st = Some st.
Proof.
  induction lines as [|l lines IH]; intros i st A F; cbn [acc_lines]; [reflexivity|].
  inversion F as [|? ? Hl F']; subst.
  unfold acc_line. rewrite A, (strip_all_space l Hl). cbn [is_empty mbind option_bind].
  apply IH; assumption.
Qed.

(** X12: a text of nothing but whitespace (the empty text included) is no
    error: [cmd_process] takes the compose route, [parse_text] finds no
    step and no error, the validator accepts with the one warning
    [No steps found], and the XML generated is the empty snippet. *)
Theorem blank_text_gives_empty_snippet (text : string) :
  all_chars PyStr.is_space text = true ->
  parse_text text = Some ([], [])
  /\ process text
     = Some (Generated (snippet_open ++ snippet_close)
                       ["Line 0: WARN — No steps found — is the input empty?"]).
Proof.
  intros H.
  assert (parse_text text = Some ([], [])) as P.
  { unfold parse_text.
    rewrite (acc_lines_blank _ 1 acc_init eq_refl (split_all_space text H)).
    reflexivity. }
  split; [exact P|].
  unfold process, _is_fm_xml. rewrite (strip_all_space text H), P. reflexivity.
Qed.

Lemma blank_text_witness :
  all_chars PyStr.is_space (String "010" ("  " ++ String "009" (String "010" ""))) = true
  /\ parse_text (String "010" ("  " ++ String "009" (String "010" ""))) = Some ([], [])
  /\ process (String "010" ("  " ++ String "009" (String "010" "")))
     = Some (Generated (snippet_open ++ snippet_close)
                       ["Line 0: WARN — No steps found — is the input empty?"]).
Proof.
  split; [reflexivity|].
  apply (blank_text_gives_empty_snippet (String "010" ("  " ++ String "009" (String "010" "")))).
  reflexivity.
Defined.

End BlankInput.

(** ** The comment merge *)

Section MergeResult.
Local Open Scope string_scope.

Lemma mergeable_same_kind_r (p s s' : ParsedStep) :
  step_type s' = step_type s -> enabled s' = enabled s ->
  mergeable p s' = mergeable p s.
Proof. unfold mergeable, is_comment. intros -> ->. reflexivity. Qed.

Lemma adjacent_cons (x : ParsedStep) (l : list ParsedStep) (d : ParsedStep) :
  adjacent_mergeable (x :: l)
  = match l with
    | [] => false
    | y :: _ => mergeable x y || adjacent_mergeable l
    end.
Proof. destruct l; reflexivity. Qed.

Lemma adjacent_snoc (l : list ParsedStep) (a b : ParsedStep) :
  adjacent_mergeable (l ++ [a; b]) = adjacent_mergeable (l ++ [a]) || mergeable a b.
Proof.
  induction l as [|x l IH].
  - cbn. rewrite orb_false_r. reflexivity.
  - destruct l as [|y l].
    + cbn. rewrite !orb_false_r. reflexivity.
    + change (mergeable x y || adjacent_mergeable ((y :: l) ++ [a; b])
              = mergeable x y || adjacent_mergeable ((y :: l) ++ [a]) || mergeable a b).
      rewrite IH, orb_assoc. reflexivity.
Qed.

Lemma adjacent_replace_last (l : list ParsedStep) (p p' : ParsedStep) :
  step_type p' = step_type p -> enabled p' = enabled p ->
  adjacent_mergeable (l ++ [p']) = adjacent_mergeable (l ++ [p]).
Proof.
  intros Ht He. induction l as [|x l IH]; [reflexivity|].
  destruct l as [|y l].
  - cbn. rewrite (mergeable_same_kind_r x p p' Ht He). reflexivity.
  - change (mergeable x y || adjacent_mergeable ((y :: l) ++ [p'])
            = mergeable x y || adjacent_mergeable ((y :: l) ++ [p])).
    rewrite IH. reflexivity.
Qed.

Lemma merge_loop_no_adjacent (steps : list ParsedStep) :
  forall done prev done' prev',
    adjacent_mergeable (done ++ [prev]) = false ->
    merge_loop steps (done, prev) = Some (done', prev') ->
    adjacent_mergeable (done' ++ [prev']) = false.
Proof.
  induction steps as [|s steps IH]; intros done prev done' prev' A; cbn [merge_loop].
  - intros H. apply (inj Some) in H. injection H as <- <-. exact A.
  - unfold merge_step. destruct (mergeable prev s) eqn:M.
    + destruct (get_str (step_params prev) _ _) as [a|]; cbn [mbind option_bind];
        [|discriminate].
      destruct (get_str (step_params s) _ _) as [b|]; cbn [mbind option_bind];
        [|discriminate].
      apply IH. rewrite <- A. apply adjacent_replace_last; reflexivity.
    + cbn [mbind option_bind]. apply IH.
      rewrite <- app_assoc. cbn [app]. rewrite adjacent_snoc, A, M. reflexivity.
Qed.

Lemma merge_comments_no_adjacent (steps merged : list ParsedStep) :
  _merge_comments steps = Some merged -> adjacent_mergeable merged = false.
Proof.
  unfold _merge_comments. destruct steps as [|s0 rest].
  - intros H. apply (inj Some) in H. subst merged. reflexivity.
  - destruct (merge_loop rest ([], s0)) as [[d p]|] eqn:E; cbn [mbind option_bind];
      [|discriminate].
    intros H. apply (inj Some) in H. subst merged.
    apply (merge_loop_no_adjacent rest [] s0 d p eq_refl E).
Qed.

(** X13: in what [_merge_comments] returns, no two neighbours are comments
    of the same enabled state; merging the result again returns it
    unchanged. *)
Theorem merge_comments_is_complete (steps merged : list ParsedStep) :
  _merge_comments steps = Some merged ->
  adjacent_mergeable merged = false
  /\ _merge_comments merged = Some merged.
Proof.
  intros H. pose proof (merge_comments_no_adjacent _ _ H) as A.
  split; [exact A | apply merge_comments_id, A].
Qed.

Lemma merge_comments_is_complete_witness :
  exists merged,
    _merge_comments comments_and_loop = Some merged
    /\ List.length merged = 3
    /\ adjacent_mergeable merged = false
    /\ _merge_comments merged = Some merged.
Proof.
  eexists. split; [vm_compute; reflexivity|]. split; [reflexivity|].
  apply (merge_comments_is_complete comments_and_loop). vm_compute. reflexivity.
Defined.

Lemma merge_loop_keeps_others (steps : list ParsedStep) :
  forall done prev done' prev',
    merge_loop steps (done, prev) = Some (done', prev') ->
    List.filter (fun s => negb (is_comment s)) (done' ++ [prev'])
    = List.filter (fun s => negb (is_comment s)) (done ++ prev :: steps).
Proof.
  induction steps as [|s steps IH]; intros done prev done' prev'; cbn [merge_loop].
  - intros H. apply (inj Some) in H. injection H as <- <-. reflexivity.
  - unfold merge_step. destruct (mergeable prev s) eqn:M.
    + destruct (get_str (step_params prev) _ _) as [a|]; cbn [mbind option_bind];
        [|discriminate].
      destruct (get_str (step_params s) _ _) as [b|]; cbn [mbind option_bind];
        [|discriminate].
      intros H. rewrite (IH _ _ _ _ H).
      unfold mergeable in M. apply andb_prop in M as [M _]. apply andb_prop in M as [Ms Mp].
      rewrite !List.filter_app. cbn [List.filter].
      change (is_comment (set_param "text" (VStr (a ++ String "010" b)) prev))
        with (is_comment prev).
      rewrite Ms, Mp. reflexivity.
    + cbn [mbind option_bind]. intros H. rewrite (IH _ _ _ _ H).
      rewrite <- app_assoc. reflexivity.
Qed.

(** X14: [_merge_comments] touches comments only: the steps that are not
    comments come back unchanged and in their order, and the list does not
    grow. *)
Theorem merge_comments_keeps_other_steps (steps merged : list ParsedStep) :
  _merge_comments steps = Some merged ->
  List.filter (fun s => negb (is_comment s)) merged
  = List.filter (fun s => negb (is_comment s)) steps
  /\ List.length merged <= List.length steps.
Proof.
  intros H. split.
  - unfold _merge_comments in H. destruct steps as [|s0 rest].
    + apply (inj Some) in H. subst merged. reflexivity.
    + destruct (merge_loop rest ([], s0)) as [[d p]|] eqn:E; cbn [mbind option_bind] in H;
        [|discriminate H].
      apply (inj Some) in H. subst merged. apply (merge_loop_keeps_others _ _ _ _ _ E).
  - pose proof (sublist_length _ _ (merge_comments_sublist _ _ H)) as L.
    rewrite !length_map in L. exact L.
Qed.

Lemma merge_comments_keeps_other_steps_witness :
  exists merged,
    _merge_comments comments_and_loop = Some merged
    /\ List.filter (fun s => negb (is_comment s)) merged
       = List.filter (fun s => negb (is_comment s)) comments_and_loop
    /\ List.length merged <= List.length comments_and_loop.
Proof.
  eexists. split; [vm_compute; reflexivity|].
  apply (merge_comments_keeps_other_steps comments_and_loop). vm_compute. reflexivity.
Defined.

End MergeResult.

(** ** The validator on nested blocks *)

Section ValidatorBlocks.
Local Open Scope string_scope.

Lemma validate_step_plain (st : val_state) (s : ParsedStep) :
  is_control s = false -> validate_step st s = st.
Proof.
  unfold is_control, control_kinds. cbn [existsb]. intros H.
  repeat (apply orb_false_elim in H; destruct H as [? H]).
  unfold validate_step.
  repeat match goal with
         | E : String.eqb (step_type s) _ = false |- _ => rewrite E; clear E
         end.
  reflexivity.
Qed.

Lemma top_app (stk : list frame) (f : frame) : top (stk ++ [f]) = Some f.
Proof. apply top_snoc. Qed.

Lemma existsb_snoc_loop (stk : list frame) (f : frame) (b : bool) :
  (b = true -> List.existsb (fun x => String.eqb (frame_type x) "loop") stk = true) ->
  b = true -> List.existsb (fun x => String.eqb (frame_type x) "loop") (stk ++ [f]) = true.
Proof. intros H B. rewrite existsb_app, (H B). reflexivity. Qed.

Lemma fold_left_app_state (a b : list ParsedStep) (st : val_state) :
  fold_left validate_step (a ++ b) st
  = fold_left validate_step b (fold_left validate_step a st).
Proof. apply fold_left_app. Qed.

Lemma nested_walks :
  (forall b l, nested b l ->
     forall errs stk,
       (b = true -> List.existsb (fun x => String.eqb (frame_type x) "loop") stk = true) ->
       fold_left validate_step l (mkVal errs stk) = mkVal errs stk)
  /\ (forall b l, branches b l ->
        forall errs stk ln,
          (b = true -> List.existsb (fun x => String.eqb (frame_type x) "loop") stk = true) ->
          exists e, fold_left validate_step l
                      (mkVal errs (stk ++ [(("if", ln, false) : frame)]))
                    = mkVal errs (stk ++ [(("if", ln, e) : frame)])).
Proof.
  apply nested_branches_ind.
  - reflexivity.
  - intros b s rest C _ IH errs stk L. cbn [fold_left].
    rewrite (validate_step_plain _ _ C). apply IH, L.
  - intros s rest T _ IH errs stk L. cbn [fold_left].
    unfold validate_step at 2. rewrite T. cbn [String.eqb Ascii.eqb Bool.eqb block_stack].
    rewrite (L eq_refl). apply IH, L.
  - intros b s e body rest Ts _ IHb Te _ IHr errs stk L. cbn [fold_left].
    unfold validate_step at 2. rewrite Ts. cbn [String.eqb Ascii.eqb Bool.eqb].
    unfold push_frame. cbn [val_errors block_stack].
    rewrite fold_left_app, IHb by (intros _; rewrite existsb_app, orb_true_r; reflexivity).
    cbn [fold_left]. unfold validate_step at 2. rewrite Te.
    cbn [String.eqb Ascii.eqb Bool.eqb block_stack]. rewrite top_snoc.
    cbn [frame_type fst String.eqb Ascii.eqb Bool.eqb negb].
    unfold pop_frame. cbn [val_errors block_stack]. rewrite removelast_last.
    apply IHr, L.
  - intros b s e body brs rest Ts _ IHb _ IHbr Te _ IHr errs stk L. cbn [fold_left].
    unfold validate_step at 2. rewrite Ts. cbn [String.eqb Ascii.eqb Bool.eqb].
    unfold push_frame. cbn [val_errors block_stack].
    rewrite fold_left_app, IHb by (intros B; rewrite existsb_app, (L B); reflexivity).
    rewrite fold_left_app. destruct (IHbr errs stk (line_num s) L) as [h ->].
    cbn [fold_left]. unfold validate_step at 2. rewrite Te.
    cbn [String.eqb Ascii.eqb Bool.eqb block_stack]. rewrite top_snoc.
    cbn [frame_type fst String.eqb Ascii.eqb Bool.eqb negb].
    unfold pop_frame. cbn [val_errors block_stack]. rewrite removelast_last.
    apply IHr, L.
  - intros b errs stk ln L. exists false. reflexivity.
  - intros b s body Ts _ IHb errs stk ln L. exists true. cbn [fold_left].
    unfold validate_step at 2. rewrite Ts. cbn [String.eqb Ascii.eqb Bool.eqb block_stack].
    rewrite top_snoc. cbn [frame_type frame_has_else frame_line fst snd
                           String.eqb Ascii.eqb Bool.eqb negb].
    unfold set_top. cbn [val_errors block_stack]. rewrite removelast_last.
    apply IHb. intros B. rewrite existsb_app, (L B). reflexivity.
  - intros b s body more Ts _ IHb _ IHm errs stk ln L. cbn [fold_left].
    unfold validate_step at 2. rewrite Ts. cbn [String.eqb Ascii.eqb Bool.eqb block_stack].
    rewrite top_snoc. cbn [frame_type frame_has_else frame_line fst snd
                           String.eqb Ascii.eqb Bool.eqb negb].
    rewrite fold_left_app, IHb by (intros B; rewrite existsb_app, (L B); reflexivity).
    apply IHm, L.
Qed.

(** X15: [validate_structure] accepts every properly nested list of steps:
    no error is reported. *)
Theorem nested_steps_are_valid (steps : list ParsedStep) :
  nested false steps ->
  errors (validate_structure steps) = []
  /\ is_valid (validate_structure steps) = true.
Proof.
  intros N. destruct nested_walks as [W _].
  assert (errors (validate_structure steps) = []) as E.
  { unfold validate_structure, structural_errors, walk. cbn [errors].
    rewrite (W false steps N [] []) by discriminate. reflexivity. }
  split; [exact E|]. unfold is_valid. rewrite E. reflexivity.
Qed.

Lemma nested_steps_witness :
  nested false nested_example
  /\ errors (validate_structure nested_example) = []
  /\ is_valid (validate_structure nested_example) = true.
Proof.
  assert (nested false nested_example) as N.
  { unfold nested_example.
    apply (nested_loop false _ (step "end_loop" [] 8 "End Loop")
             [step "if" [("calc", VStr "$i > 3")] 2 "If [ $i > 3 ]";
              step "exit_loop_if" [("calc", VStr "1")] 3 "Exit Loop If [ 1 ]";
              step "else_if" [("calc", VStr "$i = 0")] 4 "Else If [ $i = 0 ]";
              step "new_record" [] 5 "New Record/Request";
              step "else" [] 6 "Else";
              step "end_if" [] 7 "End If"] []);
      [reflexivity | | reflexivity | constructor].
    apply (nested_if true _ (step "end_if" [] 7 "End If")
             [step "exit_loop_if" [("calc", VStr "1")] 3 "Exit Loop If [ 1 ]"]
             [step "else_if" [("calc", VStr "$i = 0")] 4 "Else If [ $i = 0 ]";
              step "new_record" [] 5 "New Record/Request";
              step "else" [] 6 "Else"] []);
      [reflexivity | | | reflexivity | constructor].
    - apply nested_exit; [reflexivity | constructor].
    - apply (branches_else_if true _ [step "new_record" [] 5 "New Record/Request"]
               [step "else" [] 6 "Else"]); [reflexivity | |].
      + apply nested_plain; [reflexivity | constructor].
      + apply (branches_else true _ []); [reflexivity | constructor]. }
  split; [exact N|]. exact (nested_steps_are_valid _ N).
Defined.

Lemma walk_filter_control (steps : list ParsedStep) :
  forall st,
    fold_left validate_step (List.filter is_control steps) st
    = fold_left validate_step steps st.
Proof.
  induction steps as [|s steps IH]; intros st; cbn [List.filter fold_left]; [reflexivity|].
  destruct (is_control s) eqn:C; cbn [fold_left].
  - apply IH.
  - rewrite (validate_step_plain _ _ C). apply IH.
Qed.

(** X16: [validate_structure] looks at the seven block steps only: leaving
    every other step out of the list changes none of the errors it
    reports. *)
Theorem validator_ignores_other_steps (steps : list ParsedStep) :
  errors (validate_structure (List.filter is_control steps))
  = errors (validate_structure steps).
Proof.
  unfold validate_structure, structural_errors, walk. cbn [errors].
  rewrite walk_filter_control. reflexivity.
Qed.

End ValidatorBlocks.

(** ** The encoder *)

Section Encoder.
Local Open Scope string_scope.

(** X17: the element [step_to_xml] writes for a step type that has an
    encoder opens with the id and the display name that [STEP_DEFS]
    registers for the type (the encoder spells them out instead of reading
    the registry). *)
Theorem encoder_agrees_with_registry (s : ParsedStep) (xml : string) :
  has_encoder (step_type s) = true ->
  step_to_xml s = Some xml ->
  exists id name rest,
    lookup_def (step_type s) = Some (id, name)
    /\ xml = step_open (PyStr.of_nat id) name ++ rest.
Proof.
  intros K H. unfold step_to_xml in H.
  repeat match type of H with
         | (if String.eqb (step_type s) ?k then _ else _) = _ =>
             let E := fresh "E" in
             destruct (String.eqb (step_type s) k) eqn:E;
             [ apply String.eqb_eq in E; rewrite E |]
         end;
    try (repeat match type of H with
                | context [get_str ?p ?k ?d] => destruct (get_str p k d); [|discriminate H]
                | context [get_list ?p ?k ?d] => destruct (get_list p k d); [|discriminate H]
                end;
         cbn [mbind option_bind] in H;
         repeat match type of H with
                | context [if ?b then _ else _] => destruct b
                end;
         apply (inj Some) in H; subst xml;
         eexists _, _, _; (split; reflexivity)).
  exfalso. unfold has_encoder, encoded_kinds in K. cbn [existsb] in K.
  repeat match goal with
         | E : String.eqb (step_type s) _ = false |- _ => rewrite E in K; clear E
         end.
  discriminate K.
Qed.

Lemma encoder_agrees_with_registry_witness :
  has_encoder (step_type go_to_record_step) = true
  /\ exists xml,
      step_to_xml go_to_record_step = Some xml
      /\ exists id name rest,
          lookup_def (step_type go_to_record_step) = Some (id, name)
          /\ xml = step_open (PyStr.of_nat id) name ++ rest.
Proof.
  split; [reflexivity|]. eexists. split; [vm_compute; reflexivity|].
  apply (encoder_agrees_with_registry go_to_record_step); [reflexivity|].
  vm_compute. reflexivity.
Defined.

Lemma disabled_flips_enable_witness :
  has_encoder (step_type go_to_record_step) = true
  /\ exists xml,
      step_xml (enable go_to_record_step) = Some xml
      /\ exists rest, xml = tag_enabled ++ rest
                      /\ step_xml (disable go_to_record_step) = Some (tag_disabled ++ rest).
Proof.
  split; [reflexivity|]. eexists. split; [vm_compute; reflexivity|].
  apply (disabled_flips_enable_attribute go_to_record_step); [reflexivity|].
  vm_compute. reflexivity.
Defined.

(** X19: [step_to_xml] never writes the target of an [Insert from URL]
    step: whatever is stored under [target], the element is the same. *)
Theorem insert_from_url_drops_target (s : ParsedStep) (v : pyval) :
  step_type s = "insert_from_url" ->
  step_to_xml (set_param "target" v s) = step_to_xml s.
Proof.
  intros T. unfold step_to_xml. cbn [set_param step_type step_params]. rewrite T.
  cbn [String.eqb Ascii.eqb Bool.eqb].
  unfold get_str. rewrite !lookup_insert_ne by discriminate. reflexivity.
Qed.

Lemma insert_from_url_drops_target_witness :
  step_type insert_from_url_step = "insert_from_url"
  /\ parse_line "Insert from URL [ Target: $result ; URL: $url ]" 1
     = Some (RStep insert_from_url_step)
  /\ step_to_xml (set_param "target" (VStr "$other") insert_from_url_step)
     = step_to_xml insert_from_url_step.
Proof.
  split; [reflexivity|]. split; [vm_compute; reflexivity|].
  apply (insert_from_url_drops_target insert_from_url_step). reflexivity.
Defined.

Lemma take_app_exact (a b : string) : PyStr.take (String.length a) (a ++ b) = a.
Proof. induction a as [|x a IH]; cbn; [destruct b; reflexivity|]. rewrite IH. reflexivity. Qed.

(** X20: [_strip_outer_quotes] takes off exactly the pair of quotes that
    [quoted] puts around a string, whatever the string holds. *)
Theorem strip_outer_quotes_of_quoted (s : string) :
  _strip_outer_quotes (quoted s) = s.
Proof.
  assert (PyStr.strip (quoted s) = quoted s) as E.
  { apply strip_fixed; [reflexivity|]. unfold quoted.
    change (String PyStr.dquote (s ++ String PyStr.dquote ""))
      with ((String PyStr.dquote s) ++ String PyStr.dquote "").
    apply ends_nonspace_app. reflexivity. }
  unfold _strip_outer_quotes. rewrite E. unfold quoted at 1.
  assert (last_char (quoted s) = Some PyStr.dquote) as L.
  { unfold quoted.
    change (String PyStr.dquote (s ++ String PyStr.dquote ""))
      with ((String PyStr.dquote s) ++ String PyStr.dquote "").
    rewrite last_char_app by discriminate. reflexivity. }
  rewrite L. rewrite Ascii.eqb_refl.
  assert (String.length (quoted s) = S (S (String.length s))) as Len.
  { unfold quoted. cbn [String.length]. rewrite append_length. cbn. lia. }
  rewrite Len. cbn [Nat.leb andb].
  rewrite bool_decide_eq_true_2 by reflexivity.
  unfold quoted. cbn [PyStr.drop]. replace (S (S (String.length s)) - 2) with (String.length s) by lia.
  apply take_app_exact.
Qed.

End Encoder.

(** ** A comment through the XML and back *)

Section CommentRoundTrip.
Local Open Scope string_scope.

Lemma replace_char_app (old : ascii) (new a b : string) :
  PyStr.replace_char old new (a ++ b)
  = PyStr.replace_char old new a ++ PyStr.replace_char old new b.
Proof.
  induction a as [|x a IH]; cbn; [reflexivity|].
  rewrite IH. destruct (Ascii.eqb x old); [rewrite append_assoc|]; reflexivity.
Qed.

Lemma escape_comment_cons (c : ascii) (s : string) :
  escape_comment (String c s) = escape_char c ++ escape_comment s.
Proof.
  unfold escape_comment, escape_char.
  change (String c s) with (String c "" ++ s).
  rewrite !replace_char_app.
  f_equal.
  destruct (Ascii.eqb c "&") eqn:E1.
  { apply Ascii.eqb_eq in E1. subst c. reflexivity. }
  destruct (Ascii.eqb c "<") eqn:E2.
  { apply Ascii.eqb_eq in E2. subst c. reflexivity. }
  destruct (Ascii.eqb c ">") eqn:E3.
  { apply Ascii.eqb_eq in E3. subst c. reflexivity. }
  destruct (Ascii.eqb c "010") eqn:E4.
  { apply Ascii.eqb_eq in E4. subst c. reflexivity. }
  destruct (Ascii.eqb c PyStr.dquote) eqn:E5.
  { apply Ascii.eqb_eq in E5. subst c. reflexivity. }
  cbn [PyStr.replace_char]. rewrite E1. cbn [PyStr.replace_char]. rewrite E2.
  cbn [PyStr.replace_char]. rewrite E3. cbn [PyStr.replace_char]. rewrite E4.
  cbn [PyStr.replace_char]. rewrite E5. reflexivity.
Qed.

Lemma comment_char_xml (c : ascii) : comment_char c = true -> ET.is_xml_char c = true.
Proof.
  unfold comment_char. intros H. apply orb_prop in H as [H|H].
  - apply printable_xml_char, H.
  - apply Ascii.eqb_eq in H. subst c. reflexivity.
Qed.

(** The escaped form of one character puts that character into the text
    of the open element. *)
Lemma escape_char_feed (c : ascii) (m : ET.mode) (tg t : string)
      (atts : gmap string string) (stack : list ET.open_elem) (root : option ET.element) :
  content_like m -> comment_char c = true ->
  exists m',
    content_like m'
    /\ ET.feed_all (escape_char c) (ET.mkP m (ET.mkOpen tg atts t [] :: stack) root)
       = Some (ET.mkP m' (ET.mkOpen tg atts (t ++ String c "") [] :: stack) root).
Proof.
  intros M C. unfold escape_char.
  destruct (Ascii.eqb c "&") eqn:E1.
  { apply Ascii.eqb_eq in E1. subst c. exists ET.Content. split; [left; reflexivity|].
    destruct M as [->|[k ->]]; reflexivity. }
  destruct (Ascii.eqb c "<") eqn:E2.
  { apply Ascii.eqb_eq in E2. subst c. exists ET.Content. split; [left; reflexivity|].
    destruct M as [->|[k ->]]; reflexivity. }
  destruct (Ascii.eqb c ">") eqn:E3.
  { apply Ascii.eqb_eq in E3. subst c. exists ET.Content. split; [left; reflexivity|].
    destruct M as [->|[k ->]]; reflexivity. }
  destruct (Ascii.eqb c "010") eqn:E4.
  { apply Ascii.eqb_eq in E4. subst c. exists ET.Content. split; [left; reflexivity|].
    destruct M as [->|[k ->]]; reflexivity. }
  destruct (Ascii.eqb c PyStr.dquote) eqn:E5.
  { apply Ascii.eqb_eq in E5. subst c. exists ET.Content. split; [left; reflexivity|].
    destruct M as [->|[k ->]]; reflexivity. }
  cbn [ET.feed_all]. unfold ET.feed. rewrite (comment_char_xml c C). cbn [negb ET.p_mode].
  assert (forall seen,
             ET.content_char seen (ET.mkP m (ET.mkOpen tg atts t [] :: stack) root) c
             = Some (ET.mkP (if Ascii.eqb c "]" then ET.Brackets (S seen) else ET.Content)
                            (ET.mkOpen tg atts (t ++ String c "") [] :: stack) root)) as CC.
  { intros seen. unfold ET.content_char. rewrite E2, E1. reflexivity. }
  exists (if Ascii.eqb c "]" then
            ET.Brackets (S (match m with ET.Brackets k => k | _ => 0 end))
          else ET.Content).
  split; [destruct (Ascii.eqb c "]"); [right; eauto | left; reflexivity]|].
  destruct M as [->|[k ->]].
  - rewrite CC. reflexivity.
  - rewrite E3. cbn [andb]. rewrite CC. reflexivity.
Qed.

Lemma escape_comment_feed (text : string) :
  forall (m : ET.mode) (tg t : string) (atts : gmap string string)
         (stack : list ET.open_elem) (root : option ET.element),
    content_like m -> all_chars comment_char text = true ->
    exists m',
      content_like m'
      /\ ET.feed_all (escape_comment text) (ET.mkP m (ET.mkOpen tg atts t [] :: stack) root)
         = Some (ET.mkP m' (ET.mkOpen tg atts (t ++ text) [] :: stack) root).
Proof.
  induction text as [|c text IH]; intros m tg t atts stack root M H.
  - exists m. rewrite append_nil_r. split; [exact M | reflexivity].
  - cbn [all_chars] in H. apply andb_prop in H as [Hc Ht].
    rewrite escape_comment_cons, feed_all_app.
    destruct (escape_char_feed c m tg t atts stack root M Hc) as (m1 & M1 & ->).
    cbn [mbind option_bind].
    destruct (IH m1 tg (t ++ String c "") atts stack root M1 Ht) as (m2 & M2 & ->).
    exists m2. split; [exact M2|]. rewrite append_assoc. reflexivity.
Qed.

End CommentRoundTrip.

Section CommentRoundTrip2.
Local Open Scope string_scope.

Lemma comment_step_xml (s : ParsedStep) (text : string) :
  step_type s = "comment" ->
  step_params s !! "text" = Some (VStr text) ->
  step_xml s
  = Some ((if enabled s then step_open "89" "# (comment)"
           else PyStr.qq "<Step enable='False' id='89' name='# (comment)'>")
          ++ "<Text>" ++ escape_comment text ++ "</Text></Step>").
Proof.
  intros T P. unfold step_xml, step_to_xml. rewrite T.
  cbn [String.eqb Ascii.eqb Bool.eqb]. unfold get_str. rewrite P.
  cbn [mbind option_bind]. destruct (enabled s); reflexivity.
Qed.

Lemma comment_feed (en : bool) (text : string) :
  all_chars comment_char text = true ->
  ET.fromstring
    (snippet_open
     ++ ((if en then step_open "89" "# (comment)"
          else PyStr.qq "<Step enable='False' id='89' name='# (comment)'>")
         ++ "<Text>" ++ escape_comment text ++ "</Text></Step>")
     ++ snippet_close)
  = Some (ET.Element "fmxmlsnippet" snippet_attrib None [comment_elem en text]).
Proof.
  intros H. unfold ET.fromstring.
  set (head := if en then step_open "89" "# (comment)"
               else PyStr.qq "<Step enable='False' id='89' name='# (comment)'>").
  replace (snippet_open ++ (head ++ "<Text>" ++ escape_comment text ++ "</Text></Step>")
           ++ snippet_close)
    with ((snippet_open ++ head ++ "<Text>")
          ++ escape_comment text ++ ("</Text></Step>" ++ snippet_close))
    by (rewrite !append_assoc; reflexivity).
  rewrite feed_all_app.
  assert (ET.feed_all (snippet_open ++ head ++ "<Text>") (ET.mkP ET.Content [] None)
          = Some (ET.mkP ET.Content
                    [ET.mkOpen "Text" ∅ "" [];
                     ET.mkOpen "Step"
                       (dict_of [("enable", if en then "True" else "False"); ("id", "89");
                                 ("name", "# (comment)")]) "" [];
                     ET.mkOpen "fmxmlsnippet" snippet_attrib "" []] None)) as ->.
  { subst head. destruct en; vm_compute; reflexivity. }
  cbn [mbind option_bind]. rewrite feed_all_app.
  destruct (escape_comment_feed text ET.Content "Text" "" ∅
              [ET.mkOpen "Step"
                 (dict_of [("enable", if en then "True" else "False"); ("id", "89");
                           ("name", "# (comment)")]) "" [];
               ET.mkOpen "fmxmlsnippet" snippet_attrib "" []] None
              (or_introl eq_refl) H) as (m' & M' & ->).
  cbn [mbind option_bind String.append].
  destruct M' as [->|[k ->]]; reflexivity.
Qed.

Lemma comment_elem_text (en : bool) (text : string) :
  or_str (_get_text (comment_elem en text) "Text") "" = PyStr.strip text.
Proof.
  unfold _get_text, comment_elem. cbn [ET.find ET.children List.find ET.tag String.eqb
                                        Ascii.eqb Bool.eqb mbind option_bind ET.text].
  destruct text as [|c text]; [reflexivity|].
  cbn [is_empty or_str]. destruct (PyStr.strip (String c text)); reflexivity.
Qed.

(** X21: a comment survives the XML: for a comment step whose text is
    printable ASCII and line feeds, the snippet [generate_xml] writes is
    read back by [decompile_xml] as one [# ] line per line of the stripped
    text, behind the marker [// ] if the step is disabled.  The five
    characters the generator escapes come back as themselves. *)
Theorem comment_survives_xml (s : ParsedStep) (text : string) :
  step_type s = "comment" ->
  step_params s !! "text" = Some (VStr text) ->
  all_chars comment_char text = true ->
  exists xml,
    generate_xml [s] = Some xml
    /\ decompile_xml xml
       = Some (PyStr.join (String "010" "") (comment_lines (enabled s) text)).
Proof.
  intros T P H. eexists. split.
  - unfold generate_xml. cbn [generate_loop]. rewrite (comment_step_xml s text T P).
    cbn [mbind option_bind app PyStr.concat]. rewrite append_nil_r. reflexivity.
  - unfold decompile_xml. rewrite (comment_feed (enabled s) text H).
    cbn [mbind option_bind]. f_equal. unfold decompile_root. f_equal.
    change (ET.iter "Step" (ET.Element "fmxmlsnippet" snippet_attrib None
                                       [comment_elem (enabled s) text]))
      with [comment_elem (enabled s) text].
    cbn [decompile_loop]. unfold decompile_step.
    assert (step_texts (comment_elem (enabled s) text)
            = (List.map (fun cl => "# " ++ cl)
                        (PyStr.split_char "010" (PyStr.strip text)), false)) as ->.
    { unfold step_texts.
      change (ET.get (comment_elem (enabled s) text) "id" "") with "89".
      cbn [String.eqb Ascii.eqb Bool.eqb]. rewrite comment_elem_text. reflexivity. }
    change (ET.get (comment_elem (enabled s) text) "id" "") with "89".
    cbn [indent_before String.eqb Ascii.eqb Bool.eqb orb PyStr.repeat_str app].
    unfold comment_lines. rewrite List.map_map.
    apply List.map_ext. intros l.
    destruct (enabled s); reflexivity.
Qed.

Lemma comment_survives_xml_witness :
  step_type escaped_comment_step = "comment"
  /\ all_chars comment_char (PyStr.qq "a < b && 'c' ]]> d" ++ nl ++ "next") = true
  /\ exists xml,
      generate_xml [escaped_comment_step] = Some xml
      /\ decompile_xml xml
         = Some (PyStr.join (String "010" "")
                   (comment_lines true (PyStr.qq "a < b && 'c' ]]> d" ++ nl ++ "next"))).
Proof.
  split; [reflexivity|]. split; [reflexivity|].
  apply (comment_survives_xml escaped_comment_step
           (PyStr.qq "a < b && 'c' ]]> d" ++ nl ++ "next")); reflexivity.
Defined.

End CommentRoundTrip2.

(** ** The command line *)

Section CommandLineFacts.
Local Open Scope string_scope.

(** X22: what [generate_xml] returns is always taken for FileMaker XML by
    [_is_fm_xml], so [cmd_process] routes the tool's own output to the
    decompiler. *)
Theorem generated_xml_is_detected (steps : list ParsedStep) (xml : string) :
  generate_xml steps = Some xml ->
  _is_fm_xml xml = true
  /\ process xml = (plain_text ← decompile_xml xml; Some (Decompiled plain_text)).
Proof.
  intros H. unfold generate_xml in H. rewrite generate_loop_spec in H.
  destruct (mapM step_xml steps) as [encs|]; [|discriminate H].
  cbn [mbind option_bind] in H. apply (inj Some) in H. rewrite concat_envelope in H.
  assert (_is_fm_xml xml = true) as D.
  { subst xml. unfold _is_fm_xml.
    rewrite strip_fixed; [reflexivity | reflexivity |].
    apply ends_nonspace_app, ends_nonspace_app. reflexivity. }
  split; [exact D|]. unfold process. rewrite D. reflexivity.
Qed.

Lemma generated_xml_is_detected_witness :
  exists xml,
    generate_xml nested_example = Some xml
    /\ _is_fm_xml xml = true
    /\ process xml = (plain_text ← decompile_xml xml; Some (Decompiled plain_text)).
Proof.
  eexists. split; [vm_compute; reflexivity|].
  apply (generated_xml_is_detected nested_example). vm_compute. reflexivity.
Defined.

End CommandLineFacts.

Section CommandLineArguments.

Lemma last_input_app (a b : list string) (d : option string) :
  last_input (a ++ b) d = last_input b (last_input a d).
Proof.
  unfold last_input, input_args. rewrite List.filter_app, last_app.
  destruct (list.last (List.filter _ b)); reflexivity.
Qed.

Lemma last_input_cons (a : string) (args : list string) (d : option string) :
  last_input (a :: args) d
  = last_input args (if is_clipboard_flag a then d else Some a).
Proof.
  unfold last_input, input_args. cbn [List.filter].
  destruct (is_clipboard_flag a); cbn [negb]; [reflexivity|].
  destruct (List.filter _ args) as [|x l]; [reflexivity|].
  change (list.last (a :: x :: l)) with (list.last (x :: l)).
  destruct (list.last (x :: l)) eqn:E; [reflexivity|].
  exfalso. revert x E. induction l as [|y l IH]; intros x E; [discriminate E|].
  apply (IH y E).
Qed.

Lemma scan_args_plain (args : list string) :
  forall o f,
    no_output_flag args ->
    scan_args args false o f = (o, last_input args f).
Proof.
  induction args as [|a args IH]; intros o f N; [reflexivity|].
  inversion N as [|? ? Ha N']; subst. cbn [scan_args]. rewrite Ha. cbn [andb].
  rewrite last_input_cons.
  destruct (is_clipboard_flag a); cbn [negb]; apply (IH _ _ N').
Qed.

Lemma scan_args_app (pre rest : list string) :
  forall o f,
    no_output_flag pre ->
    scan_args (pre ++ rest) false o f = scan_args rest false o (last_input pre f).
Proof.
  induction pre as [|a pre IH]; intros o f N; [reflexivity|].
  inversion N as [|? ? Ha N']; subst. cbn [app scan_args]. rewrite Ha. cbn [andb].
  rewrite last_input_cons.
  destruct (is_clipboard_flag a); cbn [negb]; apply (IH _ _ N').
Qed.

(** X23: how [cmd_process] reads its arguments.  An output flag counts only
    when an argument follows it: that argument becomes the output file and
    is never looked at again (not as an input path, not as a flag); the
    input path is the last argument left that is not [-c] or
    [--clipboard]; and an output flag in the last place is itself taken
    for the input path. *)
Theorem cmd_process_reads_arguments (pre post : list string) (flag v : string) :
  no_output_flag pre -> no_output_flag post -> is_output_flag flag = true ->
  scan_args (pre ++ post) false None None = (None, last_input (pre ++ post) None)
  /\ scan_args (pre ++ flag :: v :: post) false None None
     = (Some v, last_input (pre ++ post) None)
  /\ scan_args (pre ++ [flag]) false None None = (None, Some flag).
Proof.
  intros Npre Npost F. split; [|split].
  - apply scan_args_plain. apply Forall_app_2; assumption.
  - rewrite (scan_args_app pre _ None None Npre). cbn [scan_args]. rewrite F.
    cbn [List.length Nat.eqb negb andb List.head].
    rewrite (scan_args_plain post _ _ Npost), last_input_app. reflexivity.
  - rewrite (scan_args_app pre _ None None Npre). cbn [scan_args]. rewrite F.
    cbn [List.length Nat.eqb negb andb].
    assert (is_clipboard_flag flag = false) as ->.
    { unfold is_output_flag in F. apply orb_prop in F as [F|F];
        apply String.eqb_eq in F; subst flag; reflexivity. }
    reflexivity.
Qed.

Lemma cmd_process_reads_arguments_witness :
  no_output_flag ["-c"; "in.txt"] /\ no_output_flag ["notes.txt"; "--clipboard"]
  /\ is_output_flag "-o" = true
  /\ cmd_options (["-c"; "in.txt"] ++ "-o" :: "-c" :: ["notes.txt"; "--clipboard"])
     = mkOptions true (Some "-c") (Some "notes.txt")
  /\ scan_args (["-c"; "in.txt"] ++ ["notes.txt"; "--clipboard"]) false None None
     = (None, last_input (["-c"; "in.txt"] ++ ["notes.txt"; "--clipboard"]) None)
  /\ scan_args (["-c"; "in.txt"] ++ "-o" :: "-c" :: ["notes.txt"; "--clipboard"])
               false None None
     = (Some "-c", last_input (["-c"; "in.txt"] ++ ["notes.txt"; "--clipboard"]) None)
  /\ scan_args (["-c"; "in.txt"] ++ ["-o"]) false None None = (None, Some "-o").
Proof.
  assert (no_output_flag ["-c"; "in.txt"]) as N1 by (repeat constructor).
  assert (no_output_flag ["notes.txt"; "--clipboard"]) as N2 by (repeat constructor).
  split; [exact N1|]. split; [exact N2|]. split; [reflexivity|]. split; [reflexivity|].
  exact (cmd_process_reads_arguments _ _ "-o" "-c" N1 N2 eq_refl).
Defined.

End CommandLineArguments.

(** ** Set Variable lines through the round trip *)

Section SetVariableMatch.
Local Open Scope string_scope.
Import Regex.

(** A greedy repetition takes a whole run of its class when the
    continuation accepts what follows the run. *)
Lemma rep_match_greedy_run {A : Type} (k : cls) (cont : string -> option A)
      (b : ascii) (s : string) (v : A) (w : string) :
  forall lo,
    all_chars (in_cls k) w = true -> in_cls k b = false -> lo <= String.length w ->
    cont (String b s) = Some v ->
    rep_match k true cont lo None (w ++ String b s) = Some v.
Proof.
  induction w as [|x w IH]; intros lo Hw Hb Hl Hc.
  - cbn in Hl. assert (lo = 0) as -> by lia. cbn. rewrite Hb. exact Hc.
  - cbn in Hw. apply andb_prop in Hw as [Hx Hw].
    cbn [String.append rep_match]. rewrite Hx. cbn [andb may_take fmap option_fmap option_map].
    rewrite (IH (Nat.pred lo) Hw Hb); [reflexivity | cbn in Hl; lia | exact Hc].
Qed.

Lemma ident_not_space (x : ascii) : ident_char x = true -> PyStr.is_space x = false.
Proof.
  unfold ident_char. cbn [in_cls]. intros H.
  destruct (PyStr.is_space x) eqn:S; [|reflexivity]. exfalso.
  unfold PyStr.is_space, PyStr.is_alpha, PyStr.is_upper, PyStr.is_lower, PyStr.is_digit in *.
  repeat match goal with
         | H : _ || _ = true |- _ => apply orb_prop in H; destruct H
         | H : _ && _ = true |- _ => apply andb_prop in H; destruct H
         | H : (_ <=? _)%N = true |- _ => apply N.leb_le in H
         | H : Ascii.eqb _ _ = true |- _ => apply Ascii.eqb_eq in H; subst x; cbn in *
         end; try lia.
Qed.

Lemma ident_not_dollar (x : ascii) : ident_char x = true -> Ascii.eqb x "$" = false.
Proof.
  intros H. destruct (Ascii.eqb x "$") eqn:E; [|reflexivity].
  apply Ascii.eqb_eq in E. subst x. discriminate H.
Qed.

End SetVariableMatch.

Section SetVariableMatch2.
Local Open Scope string_scope.
Import Regex.

Lemma variable_name_cases (name : string) :
  variable_name name = true ->
  exists d x r,
    name = d ++ String x r /\ (d = "$" \/ d = "$$")
    /\ all_chars ident_char (String x r) = true.
Proof.
  destruct name as [|a [|b [|c r]]]; cbn; try discriminate.
  - destruct a as [[] [] [] [] [] [] [] []]; discriminate.
  - intros H. exists "$", b, "".
    destruct a as [[] [] [] [] [] [] [] []]; try discriminate H.
    destruct b as [[] [] [] [] [] [] [] []]; try discriminate H; auto.
  - intros H.
    destruct (Ascii.eqb a "$") eqn:Ea.
    + apply Ascii.eqb_eq in Ea. subst a.
      destruct (Ascii.eqb b "$") eqn:Eb.
      * apply Ascii.eqb_eq in Eb. subst b. exists "$$", c, r. auto.
      * exists "$", b, (String c r). split; [reflexivity|]. split; [auto|].
        destruct b as [[] [] [] [] [] [] [] []]; try exact H; discriminate Eb.
    + exfalso. destruct a as [[] [] [] [] [] [] [] []]; try discriminate H; discriminate Ea.
Qed.

End SetVariableMatch2.

Section SetVariableMatch3.
Local Open Scope string_scope.
Import Regex.

Lemma lazy_group_closing (n : nat) (x : ascii) (c : string) (cs : caps) :
  all_chars printable (String x c) = true ->
  ends_nonspace (String x c) = true ->
  rmatch (Cat (Grp n some_lazy) Pat.closing) (String x c ++ " ]") cs (fun _ cs' => Some cs')
  = Some ((n, String x c) :: cs).
Proof.
  intros Pp Pe. apply printable_is_dot in Pp. cbn [all_chars] in Pp.
  apply andb_prop in Pp as [Dx Dc].
  cbn [rmatch]. unfold some_lazy.
  change (String x c ++ " ]") with (String x (c ++ " ]")).
  rewrite rmatch_rep, (rep_match_lazy_first _ _ _ _ Dx).
  apply rep_match_lazy_walk; [exact Dc | |]; cbv beta.
  - intros s1 s2 E N. apply closing_refuses; [exact N|].
    unfold ends_nonspace in *. rewrite E in Pe.
    change (String x (s1 ++ s2)) with (String x s1 ++ s2) in Pe.
    rewrite last_char_app in Pe by exact N. exact Pe.
  - unfold consumed.
    change (String x (c ++ " ]")) with (String x c ++ " ]").
    rewrite take_app_length. reflexivity.
Qed.

Lemma dollars_match {A : Type} (cont : string -> option A) (d : string) (x : ascii)
      (s : string) (v : A) :
  d = "$" \/ d = "$$" -> Ascii.eqb x "$" = false ->
  cont (String x s) = Some v ->
  rep_match (c_chr "$") true cont 1 (Some 2) (d ++ String x s) = Some v.
Proof.
  intros [-> | ->] E H; cbn; rewrite E; cbn; rewrite H; reflexivity.
Qed.

Lemma set_variable_match (name c : string) :
  variable_name name = true -> plain_calc c = true ->
  re_match Pat.set_variable (set_variable_line name c) = Some [(2, c); (1, name)].
Proof.
  intros Hn P. destruct (variable_name_cases name Hn) as (d & x & r & -> & Hd & Hi).
  unfold plain_calc in P.
  apply andb_prop in P as [P _]. apply andb_prop in P as [P Pe].
  apply andb_prop in P as [Pp Ps].
  destruct c as [|y c]; [discriminate Ps|].
  assert (in_cls c_space y = false) as Sy by (cbn in Ps |- *; apply negb_true_iff, Ps).
  cbn [all_chars] in Hi. apply andb_prop in Hi as [Hx Hr].
  unfold re_match, set_variable_line.
  change Pat.set_variable
    with (Cat (Lit "Set Variable") (Cat ws (Cat (Lit "[") (Cat ws
            (Cat (Grp 1 (Cat (Rep (c_chr "$") 1 (Some 2) true) (Rep c_word_dot 1 None true)))
               (Cat ws (Cat (Lit ";") (Cat ws (Cat (Lit "Value:") (Cat ws
                  (Cat (Grp 2 some_lazy) Pat.closing))))))))))).
  cbn [rmatch].
  set (T := " ; Value: " ++ String y c ++ " ]").
  change ("Set Variable [ " ++ (d ++ String x r) ++ T)
    with ("Set Variable" ++ String " " (String "[" (String " " ((d ++ String x r) ++ T)))).
  rewrite lit_match_prefix. cbv iota beta. unfold ws at 1. rewrite rmatch_rep.
  apply rep_match_greedy_one; [reflexivity | reflexivity |].
  change (lit_match "[" (String "[" (String " " ((d ++ String x r) ++ T))))
    with (Some (String " " ((d ++ String x r) ++ T))).
  cbv iota beta. unfold ws at 1. rewrite rmatch_rep.
  assert (exists z, (d ++ String x r) ++ T = String "$" z) as [z Ez]
      by (destruct Hd as [-> | ->]; eexists; reflexivity).
  rewrite Ez. apply rep_match_greedy_one; [reflexivity | reflexivity |].
  rewrite <- Ez. rewrite append_assoc.
  change (String x r ++ T) with (String x (r ++ T)).
  apply dollars_match; [exact Hd | apply ident_not_dollar, Hx |].
  change (String x (r ++ T)) with (String x r ++ String " " (String ";" (String " " ("Value: " ++ String y c ++ " ]")))).
  apply rep_match_greedy_run;
    [cbn [all_chars]; apply andb_true_intro; split; [exact Hx | exact Hr]
    | reflexivity | cbn; lia |].
  rewrite <- (append_assoc d (String x r)), consumed_app.
  unfold ws at 1. rewrite rmatch_rep.
  apply rep_match_greedy_one; [reflexivity | reflexivity |].
  change (lit_match ";" (String ";" (String " " ("Value: " ++ String y c ++ " ]"))))
    with (Some (String " " ("Value: " ++ String y c ++ " ]"))).
  cbv iota beta. unfold ws at 1. rewrite rmatch_rep.
  change (String " " ("Value: " ++ String y c ++ " ]"))
    with (String " " (String "V" ("alue: " ++ String y c ++ " ]"))).
  apply rep_match_greedy_one; [reflexivity | reflexivity |].
  change (lit_match "Value:" (String "V" ("alue: " ++ String y c ++ " ]")))
    with (Some (String " " (String y (c ++ " ]")))).
  cbv iota beta. unfold ws at 1. rewrite rmatch_rep.
  apply rep_match_greedy_one; [reflexivity | exact Sy |].
  exact (lazy_group_closing 2 y c [(1, d ++ String x r)] Pp Pe).
Qed.

End SetVariableMatch3.

Section SetVariableLines.
Local Open Scope string_scope.

Variables (name c : string).
Hypothesis Hname : variable_name name = true.
Hypothesis Hc : plain_calc c = true.

Lemma sv_parse (n : nat) :
  parse_plain (set_variable_line name c) n = Some (RStep (set_variable_step name c n)).
Proof.
  unfold parse_plain.
  replace (Regex.re_match Pat.set_error_capture (set_variable_line name c))
    with (@None Regex.caps) by (vm_compute; reflexivity).
  replace (Regex.re_match Pat.allow_user_abort (set_variable_line name c))
    with (@None Regex.caps) by (vm_compute; reflexivity).
  rewrite (set_variable_match name c Hname Hc). reflexivity.
Qed.

Lemma sv_line_step (n : nat) :
  line_step (set_variable_line name c) n = set_variable_step name c n.
Proof. unfold line_step. rewrite (sv_parse n). reflexivity. Qed.

Lemma sv_step_xml (n : nat) :
  step_xml (set_variable_step name c n) = Some (set_variable_xml name c).
Proof. vm_compute. reflexivity. Qed.

Lemma sv_line_xml : line_xml (set_variable_line name c) = set_variable_xml name c.
Proof. unfold line_xml. rewrite sv_line_step, sv_step_xml. reflexivity. Qed.

Lemma text_char_xml (x : ascii) : text_char x = true -> ET.is_xml_char x = true.
Proof.
  unfold text_char. intros H. do 3 (apply andb_prop in H as [H _]).
  apply printable_xml_char, H.
Qed.

(** Characters that need no escape go into the text of the open element
    one by one. *)
Lemma text_feed (s : string) :
  forall (tg t : string) (atts : gmap string string)
         (stack : list ET.open_elem) (root : option ET.element),
    all_chars text_char s = true ->
    ET.feed_all s (ET.mkP ET.Content (ET.mkOpen tg atts t [] :: stack) root)
    = Some (ET.mkP ET.Content (ET.mkOpen tg atts (t ++ s) [] :: stack) root).
Proof.
  induction s as [|x s IH]; intros tg t atts stack root H.
  - rewrite append_nil_r. reflexivity.
  - cbn [all_chars] in H. apply andb_prop in H as [Hx Hs].
    cbn [ET.feed_all]. unfold ET.feed. rewrite (text_char_xml x Hx).
    cbn [negb ET.p_mode]. unfold ET.content_char.
    unfold text_char in Hx.
    apply andb_prop in Hx as [Hx H3]. apply andb_prop in Hx as [Hx H2].
    apply andb_prop in Hx as [_ H1].
    apply negb_true_iff in H1, H2, H3. rewrite H1, H2.
    cbn [ET.add_text ET.p_stack ET.o_children mbind option_bind ET.o_tag ET.o_attrib
                     ET.o_text ET.p_root].
    rewrite H3. rewrite IH by exact Hs.
    unfold push_char. rewrite append_assoc. reflexivity.
Qed.

Lemma ident_text_char (x : ascii) : ident_char x = true -> text_char x = true.
Proof.
  unfold ident_char, text_char, printable. cbn [Regex.in_cls]. intros H.
  unfold PyStr.is_alpha, PyStr.is_upper, PyStr.is_lower, PyStr.is_digit in H.
  repeat match goal with
         | H : _ || _ = true |- _ => apply orb_prop in H; destruct H
         | H : _ && _ = true |- _ => apply andb_prop in H; destruct H
         | H : (_ <=? _)%N = true |- _ => apply N.leb_le in H
         | H : Ascii.eqb _ _ = true |- _ => apply Ascii.eqb_eq in H; subst x; reflexivity
         end;
    (repeat (apply andb_true_intro; split);
     [ apply N.leb_le; lia | apply N.ltb_lt; lia
     | apply negb_true_iff, Ascii.eqb_neq; intros ->; cbn in *; lia
     | apply negb_true_iff, Ascii.eqb_neq; intros ->; cbn in *; lia
     | apply negb_true_iff, Ascii.eqb_neq; intros ->; cbn in *; lia ]).
Qed.

Lemma name_text : all_chars text_char name = true.
Proof.
  destruct (variable_name_cases name Hname) as (d & x & r & -> & Hd & Hi).
  rewrite all_chars_app. apply andb_true_intro. split.
  - destruct Hd as [-> | ->]; reflexivity.
  - apply (all_chars_weaken ident_char); [apply ident_text_char | exact Hi].
Qed.

Lemma name_shape : exists r, name = String "$" r.
Proof.
  destruct (variable_name_cases name Hname) as (d & x & r & -> & [-> | ->] & _);
    eexists; reflexivity.
Qed.

Lemma name_strip : PyStr.strip name = name.
Proof.
  destruct (variable_name_cases name Hname) as (d & x & r & -> & Hd & Hi).
  apply strip_fixed.
  - destruct Hd as [-> | ->]; reflexivity.
  - apply ends_nonspace_app. unfold ends_nonspace.
    assert (forall s y, all_chars ident_char (String y s) = true ->
                        exists z, last_char (String y s) = Some z /\ ident_char z = true) as L.
    { clear. induction s as [|a s IH]; intros y H.
      - exists y. cbn in H. apply andb_prop in H as [H _]. auto.
      - cbn [all_chars] in H. apply andb_prop in H as [_ H].
        destruct (IH a H) as (z & Hz & Iz). exists z. split; [exact Hz | exact Iz]. }
    destruct (L r x Hi) as (z & -> & Iz). rewrite (ident_not_space z Iz). reflexivity.
Qed.


Lemma sv_calc_nonempty : exists y r, c = String y r.
Proof.
  unfold plain_calc in Hc. apply andb_prop in Hc as [H _].
  apply andb_prop in H as [H _]. apply andb_prop in H as [_ H].
  destruct c as [|y r]; [discriminate H | eauto].
Qed.

Lemma sv_feed (o : ET.open_elem) (stack : list ET.open_elem) (root : option ET.element) :
  ET.feed_all (set_variable_xml name c) (ET.mkP ET.Content (o :: stack) root)
  = ET.add_element (set_variable_elem name c) (ET.mkP ET.Content (o :: stack) root).
Proof.
  set (atts := dict_of [("enable", "True"); ("id", "141"); ("name", "Set Variable")]
               : gmap string string).
  set (head := step_open "141" "Set Variable" ++ "<Value><Calculation><![CDATA[").
  set (mid := "</Calculation></Value><Repetition><Calculation><![CDATA[1]]>"
              ++ "</Calculation></Repetition><Name>").
  assert (set_variable_xml name c = head ++ c ++ "]]>" ++ mid ++ name ++ "</Name></Step>") as ->.
  { unfold set_variable_xml, calc, _cdata, head, mid. rewrite !append_assoc. reflexivity. }
  assert (ET.feed_all head (ET.mkP ET.Content (o :: stack) root)
          = Some (ET.mkP (ET.CData 0)
                    (ET.mkOpen "Calculation" ∅ "" [] :: ET.mkOpen "Value" ∅ "" []
                       :: ET.mkOpen "Step" atts "" [] :: o :: stack) root)) as Hhead
      by (vm_compute; reflexivity).
  rewrite feed_all_app, Hhead. cbn [mbind option_bind].
  destruct (cdata_feed c 0 "" "Calculation" ∅
              (ET.mkOpen "Value" ∅ "" [] :: ET.mkOpen "Step" atts "" [] :: o :: stack) root)
    as (k & t & Hk & Hf & Ht);
    [lia | apply (calc_printable c Hc) | apply (calc_no_terminator c Hc) |].
  rewrite feed_all_app, Hf. cbn [mbind option_bind].
  rewrite feed_all_app, (cdata_end k t _ _ _ _ Hk). cbn [mbind option_bind].
  rewrite Ht. cbn [pending PyStr.repeat_str String.append].
  destruct sv_calc_nonempty as (y & r & Ec).
  assert (ET.feed_all mid
            (ET.mkP ET.Content
               (ET.mkOpen "Calculation" ∅ c [] :: ET.mkOpen "Value" ∅ "" []
                  :: ET.mkOpen "Step" atts "" [] :: o :: stack) root)
          = Some (ET.mkP ET.Content
                    (ET.mkOpen "Name" ∅ "" []
                       :: ET.mkOpen "Step" atts ""
                            [ET.Element "Value" ∅ None [ET.Element "Calculation" ∅ (Some c) []];
                             ET.Element "Repetition" ∅ None
                               [ET.Element "Calculation" ∅ (Some "1") []]]
                       :: o :: stack) root)) as Hmid
      by (rewrite Ec; vm_compute; reflexivity).
  rewrite feed_all_app, Hmid. cbn [mbind option_bind].
  rewrite feed_all_app, (text_feed name _ _ _ _ _ name_text). cbn [mbind option_bind String.append].
  destruct name_shape as [r' En]. rewrite En. destruct o. vm_compute. reflexivity.
Qed.

Lemma sv_line_elem : line_elem (set_variable_line name c) = set_variable_elem name c.
Proof.
  unfold line_elem, ET.fromstring. rewrite sv_line_xml.
  set (atts := dict_of [("enable", "True"); ("id", "141"); ("name", "Set Variable")]
               : gmap string string).
  set (head := step_open "141" "Set Variable" ++ "<Value><Calculation><![CDATA[").
  set (mid := "</Calculation></Value><Repetition><Calculation><![CDATA[1]]>"
              ++ "</Calculation></Repetition><Name>").
  assert (set_variable_xml name c = head ++ c ++ "]]>" ++ mid ++ name ++ "</Name></Step>") as ->.
  { unfold set_variable_xml, calc, _cdata, head, mid. rewrite !append_assoc. reflexivity. }
  assert (ET.feed_all head (ET.mkP ET.Content [] None)
          = Some (ET.mkP (ET.CData 0)
                    [ET.mkOpen "Calculation" ∅ "" []; ET.mkOpen "Value" ∅ "" [];
                     ET.mkOpen "Step" atts "" []] None)) as Hhead
      by (vm_compute; reflexivity).
  rewrite feed_all_app, Hhead. cbn [mbind option_bind].
  destruct (cdata_feed c 0 "" "Calculation" ∅
              [ET.mkOpen "Value" ∅ "" []; ET.mkOpen "Step" atts "" []] None)
    as (k & t & Hk & Hf & Ht);
    [lia | apply (calc_printable c Hc) | apply (calc_no_terminator c Hc) |].
  rewrite feed_all_app, Hf. cbn [mbind option_bind].
  rewrite feed_all_app, (cdata_end k t _ _ _ _ Hk). cbn [mbind option_bind].
  rewrite Ht. cbn [pending PyStr.repeat_str String.append].
  destruct sv_calc_nonempty as (y & r & Ec).
  assert (ET.feed_all mid
            (ET.mkP ET.Content
               [ET.mkOpen "Calculation" ∅ c []; ET.mkOpen "Value" ∅ "" [];
                ET.mkOpen "Step" atts "" []] None)
          = Some (ET.mkP ET.Content
                    [ET.mkOpen "Name" ∅ "" [];
                     ET.mkOpen "Step" atts ""
                       [ET.Element "Value" ∅ None [ET.Element "Calculation" ∅ (Some c) []];
                        ET.Element "Repetition" ∅ None
                          [ET.Element "Calculation" ∅ (Some "1") []]]] None)) as Hmid
      by (rewrite Ec; vm_compute; reflexivity).
  rewrite feed_all_app, Hmid. cbn [mbind option_bind].
  rewrite feed_all_app, (text_feed name _ _ _ _ _ name_text). cbn [mbind option_bind String.append].
  destruct name_shape as [r' En]. rewrite En. vm_compute. reflexivity.
Qed.

Lemma sv_step_texts :
  step_texts (set_variable_elem name c) = ([set_variable_line name c], false).
Proof.
  destruct sv_calc_nonempty as (y & r & Ec). destruct name_shape as [r' En].
  unfold step_texts.
  change (ET.get (set_variable_elem name c) "id" "") with "141".
  cbn [String.eqb Ascii.eqb Bool.eqb].
  assert (_get_text (set_variable_elem name c) "Name" = Some name) as ->.
  { change (Some (PyStr.strip (or_str (Some name) "")) = Some name).
    replace (or_str (Some name) "") with name by (rewrite En; reflexivity).
    rewrite name_strip. reflexivity. }
  assert (_get_calc (set_variable_elem name c) "Value" = Some c) as ->.
  { change (Some (PyStr.strip (or_str (Some c) "")) = Some c).
    replace (or_str (Some c) "") with c by (rewrite Ec; reflexivity).
    rewrite (calc_strip c Hc). reflexivity. }
  replace (or_str (Some name) "$?") with name by (rewrite En; reflexivity).
  replace (or_str (Some c) "") with c by (rewrite Ec; reflexivity).
  reflexivity.
Qed.

Lemma set_variable_line_round_trips :
  complete_line (set_variable_line name c) = true ->
  round_trips (set_variable_line name c).
Proof.
  intros Hcomplete.
  constructor.
  - apply strip_fixed; [reflexivity|].
    unfold set_variable_line.
    replace ("Set Variable [ " ++ name ++ " ; Value: " ++ c ++ " ]")
      with (("Set Variable [ " ++ name ++ " ; Value: " ++ c) ++ " ]")
      by (rewrite !append_assoc; reflexivity).
    apply ends_nonspace_app. reflexivity.
  - reflexivity.
  - split; reflexivity.
  - unfold set_variable_line, no_newline. rewrite !all_chars_app.
    assert (forall s, all_chars printable s = true ->
                      all_chars (fun ch => negb (Ascii.eqb ch "010")) s = true) as W.
    { intros s. apply all_chars_weaken. intros ch H. unfold printable in H.
      apply andb_prop in H as [H _]. apply N.leb_le in H.
      apply negb_true_iff, Ascii.eqb_neq. intros ->. cbn in H. lia. }
    rewrite (W c (calc_printable c Hc)).
    rewrite (W name); [reflexivity|].
    apply (all_chars_weaken text_char); [|apply name_text].
    intros ch H. unfold text_char in H. do 3 (apply andb_prop in H as [H _]). exact H.
  - exact Hcomplete.
  - intros n. rewrite sv_line_step. apply sv_parse.
  - intros n. rewrite sv_line_step. reflexivity.
  - intros n. rewrite sv_line_step, sv_line_xml. apply sv_step_xml.
  - intros o stack root. rewrite sv_line_xml, sv_line_elem. apply sv_feed.
  - rewrite sv_line_elem. reflexivity.
  - rewrite sv_line_elem. eexists. apply sv_step_texts.
  - rewrite sv_line_elem. reflexivity.
Qed.

End SetVariableLines.

(** ** Lines that name a layout or a script *)

Section NameLines.
Local Open Scope string_scope.
Import Regex.

Lemma bracketed_match_text (kw c : string) :
  all_chars printable c = true -> starts_nonspace c = true -> ends_nonspace c = true ->
  re_match (Pat.bracketed kw) (calc_line kw c) = Some [(1, c)].
Proof.
  intros Pp Ps Pe.
  destruct c as [|x c]; [discriminate Ps|].
  assert (in_cls c_space x = false) as Sx by (cbn in Ps |- *; apply negb_true_iff, Ps).
  unfold re_match, calc_line.
  change (Pat.bracketed kw)
    with (Cat (Lit kw) (Cat ws (Cat (Lit "[") (Cat ws (Cat (Grp 1 some_lazy) Pat.closing))))).
  cbn [rmatch]. rewrite lit_match_prefix.
  change (" [ " ++ String x c ++ " ]")
    with (String " " (String "[" (String " " (String x c ++ " ]")))).
  unfold ws at 1. rewrite rmatch_rep.
  apply rep_match_greedy_one; [reflexivity | reflexivity |].
  change (lit_match "[" (String "[" (String " " (String x c ++ " ]"))))
    with (Some (String " " (String x c ++ " ]"))).
  cbv iota beta. unfold ws at 1. rewrite rmatch_rep.
  apply rep_match_greedy_one; [reflexivity | exact Sx |].
  exact (lazy_group_closing 1 x c [] Pp Pe).
Qed.

Variable name : string.
Hypothesis Hname : plain_name name = true.

Lemma pn_chars : all_chars name_char name = true.
Proof.
  unfold plain_name in Hname. apply andb_prop in Hname as [H _].
  apply andb_prop in H as [H _]. exact H.
Qed.

Lemma pn_starts : starts_nonspace name = true.
Proof.
  unfold plain_name in Hname. apply andb_prop in Hname as [H _].
  apply andb_prop in H as [_ H]. exact H.
Qed.

Lemma pn_ends : ends_nonspace name = true.
Proof. unfold plain_name in Hname. apply andb_prop in Hname as [_ H]. exact H. Qed.

Lemma pn_nonempty : exists x r, name = String x r.
Proof. generalize pn_starts. destruct name as [|x r]; [discriminate | eauto]. Qed.

Lemma pn_strip : PyStr.strip name = name.
Proof. apply strip_fixed; [apply pn_starts | apply pn_ends]. Qed.

Lemma name_char_text (x : ascii) : name_char x = true -> text_char x = true.
Proof. unfold name_char. intros H. do 2 (apply andb_prop in H as [H _]). exact H. Qed.

Lemma name_char_printable (x : ascii) : name_char x = true -> printable x = true.
Proof.
  intros H. apply name_char_text in H. unfold text_char in H.
  do 3 (apply andb_prop in H as [H _]). exact H.
Qed.

Lemma pn_text : all_chars text_char name = true.
Proof. apply (all_chars_weaken name_char); [apply name_char_text | apply pn_chars]. Qed.

Lemma pn_printable : all_chars printable name = true.
Proof. apply (all_chars_weaken name_char); [apply name_char_printable | apply pn_chars]. Qed.

Lemma quoted_printable : all_chars printable (quoted name) = true.
Proof.
  unfold quoted. cbn [all_chars]. rewrite all_chars_app, pn_printable. reflexivity.
Qed.

Lemma quoted_ends : ends_nonspace (quoted name) = true.
Proof.
  unfold quoted.
  change (String PyStr.dquote (name ++ String PyStr.dquote ""))
    with ((String PyStr.dquote name) ++ String PyStr.dquote "").
  apply ends_nonspace_app. reflexivity.
Qed.

Lemma quoted_strip : PyStr.strip (quoted name) = quoted name.
Proof. apply strip_fixed; [reflexivity | apply quoted_ends]. Qed.

Lemma quoted_match (kw : string) :
  re_match (Pat.bracketed kw) (calc_line kw (quoted name)) = Some [(1, quoted name)].
Proof.
  apply bracketed_match_text; [apply quoted_printable | reflexivity | apply quoted_ends].
Qed.

Lemma strip_outer_quotes_quoted (s : string) : _strip_outer_quotes (quoted s) = s.
Proof.
  assert (PyStr.strip (quoted s) = quoted s) as E.
  { apply strip_fixed; [reflexivity|]. unfold quoted.
    change (String PyStr.dquote (s ++ String PyStr.dquote ""))
      with ((String PyStr.dquote s) ++ String PyStr.dquote "").
    apply ends_nonspace_app. reflexivity. }
  unfold _strip_outer_quotes. rewrite E. unfold quoted at 1.
  assert (last_char (quoted s) = Some PyStr.dquote) as L.
  { unfold quoted.
    change (String PyStr.dquote (s ++ String PyStr.dquote ""))
      with ((String PyStr.dquote s) ++ String PyStr.dquote "").
    rewrite last_char_app by discriminate. reflexivity. }
  rewrite L. rewrite Ascii.eqb_refl.
  assert (String.length (quoted s) = S (S (String.length s))) as Len.
  { unfold quoted. cbn [String.length]. rewrite append_length. cbn. lia. }
  rewrite Len. cbn [Nat.leb andb].
  rewrite bool_decide_eq_true_2 by reflexivity.
  unfold quoted. cbn [PyStr.drop].
  replace (S (S (String.length s)) - 2) with (String.length s) by lia.
  apply take_app_exact.
Qed.


Lemma name_char_cases (x : ascii) :
  name_char x = true ->
  Ascii.eqb x PyStr.dquote = false /\ Ascii.eqb x "\" = false
  /\ Ascii.eqb x "<" = false /\ Ascii.eqb x "&" = false
  /\ Ascii.eqb x "009" = false /\ Ascii.eqb x "010" = false
  /\ ET.is_xml_char x = true.
Proof.
  intros H. pose proof (name_char_printable x H) as P.
  pose proof (printable_xml_char x P) as X.
  unfold name_char, text_char in H.
  repeat match goal with
         | H : _ && _ = true |- _ => apply andb_prop in H; destruct H
         | H : negb _ = true |- _ => apply negb_true_iff in H
         end.
  unfold printable in P. apply andb_prop in P as [P1 _]. apply N.leb_le in P1.
  repeat split; try assumption;
    apply Ascii.eqb_neq; intros ->; cbn in P1; lia.
Qed.

(** Inside an attribute value, such characters are added to the value. *)
Lemma attr_feed (s : string) :
  forall (tg an v : string) (atts : gmap string string)
         (stack : list ET.open_elem) (root : option ET.element),
    all_chars name_char s = true ->
    ET.feed_all s (ET.mkP (ET.AttrVal tg atts an PyStr.dquote v) stack root)
    = Some (ET.mkP (ET.AttrVal tg atts an PyStr.dquote (v ++ s)) stack root).
Proof.
  induction s as [|x s IH]; intros tg an v atts stack root H.
  - rewrite append_nil_r. reflexivity.
  - cbn [all_chars] in H. apply andb_prop in H as [Hx Hs].
    destruct (name_char_cases x Hx) as (Q & _ & L & A & T & N & X).
    cbn [ET.feed_all]. unfold ET.feed. rewrite X. cbn [negb ET.p_mode].
    rewrite Q, L, T, N, A. cbn [orb ET.with_mode mbind option_bind ET.p_stack ET.p_root].
    rewrite IH by exact Hs. unfold push_char. rewrite append_assoc. reflexivity.
Qed.

Lemma split_fold_in_quote (s : string) :
  forall parts cur,
    all_chars name_char s = true ->
    fold_chars split_step s (mkSplit parts cur 0 0 true false)
    = mkSplit parts (cur ++ s) 0 0 true false.
Proof.
  induction s as [|x s IH]; intros parts cur H; cbn [fold_chars].
  - rewrite append_nil_r. reflexivity.
  - cbn [all_chars] in H. apply andb_prop in H as [Hx Hs].
    destruct (name_char_cases x Hx) as (Q & B & _).
    unfold split_step at 2. rewrite B, Q. cbn [andb].
    rewrite (IH _ _ Hs). unfold push_char. rewrite append_assoc. reflexivity.
Qed.

Lemma split_params_quoted : _split_params (quoted name) = [quoted name].
Proof.
  unfold _split_params, quoted, split_init. cbn [fold_chars].
  change (split_step (mkSplit [] "" 0 0 false false) PyStr.dquote)
    with (mkSplit [] (String PyStr.dquote "") 0 0 true false).
  rewrite fold_chars_app, (split_fold_in_quote name _ _ pn_chars).
  cbn [fold_chars String.append].
  change (split_step (mkSplit [] (String PyStr.dquote name) 0 0 true false) PyStr.dquote)
    with (mkSplit [] (push_char (String PyStr.dquote name) PyStr.dquote) 0 0 false false).
  reflexivity.
Qed.

Ltac other_patterns_fail l :=
  repeat match goal with
         | |- context [Regex.re_match ?p l] =>
             replace (Regex.re_match p l) with (@None Regex.caps)
               by (vm_compute; reflexivity)
         end.

Lemma gl_parse (n : nat) :
  parse_plain (go_to_layout_line name) n
  = Some (RStep (step "go_to_layout" [("layout", VStr (quoted name))] n
                      (go_to_layout_line name))).
Proof.
  unfold parse_plain.
  change (Regex.re_match Pat.go_to_layout (go_to_layout_line name))
    with (re_match (Pat.bracketed "Go to Layout") (calc_line "Go to Layout" (quoted name))).
  rewrite (quoted_match "Go to Layout").
  other_patterns_fail (go_to_layout_line name).
  change (grp 1 [(1, quoted name)]) with (quoted name). rewrite quoted_strip. reflexivity.
Qed.

Lemma ps_parse (n : nat) :
  parse_plain (perform_script_line name) n
  = Some (RStep (step "perform_script"
                      [("script_name", VStr (quoted name)); ("parameter", VStr "")] n
                      (perform_script_line name))).
Proof.
  unfold parse_plain.
  change (Regex.re_match Pat.perform_script (perform_script_line name))
    with (re_match (Pat.bracketed "Perform Script")
                   (calc_line "Perform Script" (quoted name))).
  rewrite (quoted_match "Perform Script").
  other_patterns_fail (perform_script_line name).
  change (grp 1 [(1, quoted name)]) with (quoted name).
  rewrite split_params_quoted, quoted_strip. reflexivity.
Qed.

Lemma gl_step_xml (n : nat) :
  step_xml (step "go_to_layout" [("layout", VStr (quoted name))] n (go_to_layout_line name))
  = Some (go_to_layout_xml name).
Proof.
  unfold step_xml, step_to_xml.
  cbn [step step_type step_params String.eqb Ascii.eqb Bool.eqb enabled].
  change (get_str (dict [("layout", VStr (quoted name))]) "layout" "")
    with (Some (quoted name)).
  cbn [mbind option_bind]. rewrite strip_outer_quotes_quoted.
  destruct pn_nonempty as (x & r & ->). reflexivity.
Qed.

Lemma ps_step_xml (n : nat) :
  step_xml (step "perform_script"
                 [("script_name", VStr (quoted name)); ("parameter", VStr "")] n
                 (perform_script_line name))
  = Some (perform_script_xml name).
Proof.
  unfold step_xml, step_to_xml.
  cbn [step step_type step_params String.eqb Ascii.eqb Bool.eqb enabled].
  change (get_str (dict [("script_name", VStr (quoted name)); ("parameter", VStr "")])
                  "script_name" "")
    with (Some (quoted name)).
  change (get_str (dict [("script_name", VStr (quoted name)); ("parameter", VStr "")])
                  "parameter" "")
    with (Some "").
  cbn [mbind option_bind is_empty]. rewrite strip_outer_quotes_quoted. reflexivity.
Qed.

Lemma gl_feed (stack : list ET.open_elem) (root : option ET.element) :
  stack <> [] \/ root = None ->
  ET.feed_all (go_to_layout_xml name) (ET.mkP ET.Content stack root)
  = ET.add_element (go_to_layout_elem name) (ET.mkP ET.Content stack root).
Proof.
  intros Hctx.
  set (atts := dict_of [("enable", "True"); ("id", "6"); ("name", "Go to Layout")]
               : gmap string string).
  set (head := step_open "6" "Go to Layout"
               ++ PyStr.qq "<LayoutDestination value='ByName'></LayoutDestination>"
               ++ PyStr.qq "<Layout id='0' name='").
  assert (go_to_layout_xml name = head ++ name ++ PyStr.qq "'></Layout></Step>") as ->.
  { unfold go_to_layout_xml, head. rewrite !append_assoc. reflexivity. }
  assert (ET.feed_all head (ET.mkP ET.Content stack root)
          = Some (ET.mkP (ET.AttrVal "Layout" (dict_of [("id", "0")]) "name" PyStr.dquote "")
                    (ET.mkOpen "Step" atts ""
                       [ET.Element "LayoutDestination" (dict_of [("value", "ByName")]) None []]
                       :: stack) root)) as Hhead.
  { destruct stack as [|o stack'];
      [destruct Hctx as [Hctx | ->]; [contradiction|]|]; vm_compute; reflexivity. }
  rewrite feed_all_app, Hhead. cbn [mbind option_bind].
  rewrite feed_all_app, (attr_feed name _ _ _ _ _ _ pn_chars).
  cbn [mbind option_bind String.append].
  destruct stack as [|o stack'].
  - destruct Hctx as [Hctx | ->]; [contradiction|]. vm_compute. reflexivity.
  - destruct o. vm_compute. reflexivity.
Qed.

Lemma ps_feed (stack : list ET.open_elem) (root : option ET.element) :
  stack <> [] \/ root = None ->
  ET.feed_all (perform_script_xml name) (ET.mkP ET.Content stack root)
  = ET.add_element (perform_script_elem name) (ET.mkP ET.Content stack root).
Proof.
  intros Hctx.
  set (atts := dict_of [("enable", "True"); ("id", "1"); ("name", "Perform Script")]
               : gmap string string).
  set (head := step_open "1" "Perform Script" ++ "<Text>").
  assert (perform_script_xml name = head ++ name ++ "</Text></Step>") as ->.
  { unfold perform_script_xml, head. rewrite !append_assoc. reflexivity. }
  assert (ET.feed_all head (ET.mkP ET.Content stack root)
          = Some (ET.mkP ET.Content
                    (ET.mkOpen "Text" ∅ "" [] :: ET.mkOpen "Step" atts "" [] :: stack)
                    root)) as Hhead.
  { destruct stack as [|o stack'];
      [destruct Hctx as [Hctx | ->]; [contradiction|]|]; vm_compute; reflexivity. }
  rewrite feed_all_app, Hhead. cbn [mbind option_bind].
  rewrite feed_all_app, (text_feed name _ _ _ _ _ pn_text).
  cbn [mbind option_bind String.append].
  destruct pn_nonempty as (x & r & ->).
  destruct stack as [|o stack'].
  - destruct Hctx as [Hctx | ->]; [contradiction|]. vm_compute. reflexivity.
  - destruct o. vm_compute. reflexivity.
Qed.

Lemma quoted_line (kw : string) :
  calc_line kw (quoted name) = kw ++ PyStr.qq " [ '" ++ name ++ PyStr.qq "' ]".
Proof.
  unfold calc_line, quoted. cbn [String.append PyStr.qq Ascii.eqb Bool.eqb].
  rewrite !append_assoc. reflexivity.
Qed.

Lemma gl_step_texts :
  step_texts (go_to_layout_elem name) = ([go_to_layout_line name], false).
Proof.
  unfold go_to_layout_line. rewrite quoted_line.
  destruct pn_nonempty as (x & r & ->). vm_compute. reflexivity.
Qed.

Lemma ps_step_texts :
  step_texts (perform_script_elem name) = ([perform_script_line name], false).
Proof.
  unfold perform_script_line. rewrite quoted_line.
  unfold step_texts.
  change (ET.get (perform_script_elem name) "id" "") with "1".
  cbn [String.eqb Ascii.eqb Bool.eqb andb].
  change (ET.find (perform_script_elem name) "Script") with (@None ET.element).
  change (_get_calc_direct (perform_script_elem name)) with (@None string).
  assert (_get_text (perform_script_elem name) "Text" = Some name) as ->.
  { change (Some (PyStr.strip (or_str (Some name) "")) = Some name).
    replace (or_str (Some name) "") with name
      by (destruct pn_nonempty as (x & r & ->); reflexivity).
    rewrite pn_strip. reflexivity. }
  replace (or_str (Some name) "?") with name
    by (destruct pn_nonempty as (x & r & ->); reflexivity).
  cbn [or_str is_empty]. reflexivity.
Qed.


Lemma name_quote_free : quote_free name = true.
Proof.
  unfold quote_free. apply (all_chars_weaken name_char); [|apply pn_chars].
  intros x H. destruct (name_char_cases x H) as (Q & B & _). rewrite Q, B. reflexivity.
Qed.

Lemma name_no_newline : no_newline name = true.
Proof.
  unfold no_newline. apply (all_chars_weaken name_char); [|apply pn_chars].
  intros x H. destruct (name_char_cases x H) as (_ & _ & _ & _ & _ & N & _).
  rewrite N. reflexivity.
Qed.

Lemma quoted_line_facts (kw : string) :
  starts_nonspace kw = true -> no_newline kw = true ->
  _count_delimiters kw = (0, 0)%Z -> quote_free kw = true ->
  PyStr.strip (calc_line kw (quoted name)) = calc_line kw (quoted name)
  /\ no_newline (calc_line kw (quoted name)) = true
  /\ complete_line (calc_line kw (quoted name)) = true.
Proof.
  intros Ks Kn Kc Kq. split; [|split].
  - apply strip_fixed.
    + unfold calc_line. destruct kw; [discriminate Ks | exact Ks].
    + unfold calc_line.
      replace (kw ++ " [ " ++ quoted name ++ " ]") with ((kw ++ " [ " ++ quoted name) ++ " ]")
        by (rewrite !append_assoc; reflexivity).
      apply ends_nonspace_app. reflexivity.
  - unfold calc_line, quoted, no_newline in *. rewrite !all_chars_app, Kn.
    cbn [all_chars]. rewrite all_chars_app. fold (no_newline name).
    rewrite name_no_newline. reflexivity.
  - unfold complete_line, calc_line, _count_delimiters, count_init, quoted.
    rewrite fold_chars_app.
    assert (fold_chars count_step kw (mkCount 0 0 false false) = mkCount 0 0 false false) as ->.
    { rewrite (count_fold_quote_free kw 0 0 Kq).
      unfold _count_delimiters, count_init in Kc.
      rewrite (count_fold_quote_free kw 0 0 Kq) in Kc. cbn in Kc.
      injection Kc as -> ->. reflexivity. }
    cbn [String.append fold_chars].
    change (count_step (count_step (count_step (count_step (mkCount 0 0 false false) " ")
                                               "[") " ") PyStr.dquote)
      with (mkCount 0 1 true false).
    rewrite !fold_chars_app, (count_fold_in_quote name _ _ name_quote_free). reflexivity.
Qed.

Lemma gl_line_xml : line_xml (go_to_layout_line name) = go_to_layout_xml name.
Proof. unfold line_xml, line_step. rewrite (gl_parse 0), gl_step_xml. reflexivity. Qed.

Lemma ps_line_xml : line_xml (perform_script_line name) = perform_script_xml name.
Proof. unfold line_xml, line_step. rewrite (ps_parse 0), ps_step_xml. reflexivity. Qed.

Lemma gl_line_elem : line_elem (go_to_layout_line name) = go_to_layout_elem name.
Proof.
  unfold line_elem. rewrite gl_line_xml. unfold ET.fromstring.
  rewrite (gl_feed [] None) by (right; reflexivity). reflexivity.
Qed.

Lemma ps_line_elem : line_elem (perform_script_line name) = perform_script_elem name.
Proof.
  unfold line_elem. rewrite ps_line_xml. unfold ET.fromstring.
  rewrite (ps_feed [] None) by (right; reflexivity). reflexivity.
Qed.

Lemma go_to_layout_line_round_trips : round_trips (go_to_layout_line name).
Proof.
  destruct (quoted_line_facts "Go to Layout") as (F1 & F2 & F3); try reflexivity.
  constructor.
  - exact F1.
  - reflexivity.
  - split; reflexivity.
  - exact F2.
  - exact F3.
  - intros n. unfold line_step. rewrite (gl_parse n). reflexivity.
  - intros n. unfold line_step. rewrite (gl_parse n). reflexivity.
  - intros n. rewrite gl_line_xml. unfold line_step. rewrite (gl_parse n). apply gl_step_xml.
  - intros o stack root. rewrite gl_line_elem, gl_line_xml.
    apply gl_feed. left. discriminate.
  - rewrite gl_line_elem. reflexivity.
  - rewrite gl_line_elem. eexists. apply gl_step_texts.
  - rewrite gl_line_elem. reflexivity.
Qed.

Lemma perform_script_line_round_trips : round_trips (perform_script_line name).
Proof.
  destruct (quoted_line_facts "Perform Script") as (F1 & F2 & F3); try reflexivity.
  constructor.
  - exact F1.
  - reflexivity.
  - split; reflexivity.
  - exact F2.
  - exact F3.
  - intros n. unfold line_step. rewrite (ps_parse n). reflexivity.
  - intros n. unfold line_step. rewrite (ps_parse n). reflexivity.
  - intros n. rewrite ps_line_xml. unfold line_step. rewrite (ps_parse n). apply ps_step_xml.
  - intros o stack root. rewrite ps_line_elem, ps_line_xml.
    apply ps_feed. left. discriminate.
  - rewrite ps_line_elem. reflexivity.
  - rewrite ps_line_elem. eexists. apply ps_step_texts.
  - rewrite ps_line_elem. reflexivity.
Qed.

End NameLines.

(** ** The round trip on the larger fragment *)

Lemma script_line_round_trips (l : string) : script_line l -> round_trips l.
Proof.
  intros [l' H | name c Hn Hc Hl | name Hn | name Hn].
  - apply instruction_line_round_trips, H.
  - apply set_variable_line_round_trips; assumption.
  - apply go_to_layout_line_round_trips, Hn.
  - apply perform_script_line_round_trips, Hn.
Qed.

(** X24: the round trip beyond the control-flow lines.  For every text
    whose non-blank lines are, up to indentation and trailing blanks,
    instruction lines of the fragment or lines [Set Variable [ NAME ;
    Value: c ]], [Go to Layout [ "name" ]] or [Perform Script [ "name" ]],
    the recognizer reports no error, the text composes when the validator
    accepts its nesting, and whenever it composes the composed XML
    decompiles to a text with the same lines up to indentation, trailing
    blanks and blank lines. *)
Theorem script_lines_round_trip (text : string) :
  Forall script_line (canonical_lines text) ->
  exists steps,
    parse_text text = Some (steps, [])
    /\ (is_valid (validate_structure steps) = true -> is_Some (compose text))
    /\ forall xml,
        compose text = Some xml ->
        exists out,
          decompile_xml xml = Some out
          /\ canonical_lines out = canonical_lines text.
Proof.
  intros H.
  assert (Forall round_trips (canonical_lines text)) as F
      by (eapply Forall_impl; [apply script_line_round_trips | exact H]).
  destruct (parse_text_instructions text F) as (steps & P & F2).
  exists steps. split; [exact P|]. split.
  - intros V. unfold compose. rewrite P. cbn [mbind option_bind]. rewrite V.
    rewrite (generate_xml_instructions steps _ F F2). eauto.
  - intros xml C. unfold compose in C. rewrite P in C. cbn [mbind option_bind] in C.
    destruct (is_valid (validate_structure steps)); [|discriminate C].
    rewrite (generate_xml_instructions steps _ F F2) in C.
    apply (inj Some) in C. subst xml.
    unfold decompile_xml. rewrite (fromstring_instructions _ F). cbn [mbind option_bind].
    unfold decompile_root. rewrite (iter_instructions _ F).
    destruct (decompile_loop_instructions _ F [] 0) as (out & -> & F3).
    eexists. split; [reflexivity|].
    apply canonical_lines_indented; assumption.
Qed.

Lemma script_lines_witness :
  Forall script_line (canonical_lines script_text)
  /\ is_Some (compose script_text)
  /\ exists steps,
      parse_text script_text = Some (steps, [])
      /\ (is_valid (validate_structure steps) = true -> is_Some (compose script_text))
      /\ forall xml,
          compose script_text = Some xml ->
          exists out,
            decompile_xml xml = Some out
            /\ canonical_lines out = canonical_lines script_text.
Proof.
  assert (Forall script_line (canonical_lines script_text)) as F.
  { replace (canonical_lines script_text)
      with [set_variable_line "$i" "0"; go_to_layout_line "Invoices (list)"; "Loop";
            set_variable_line "$i" "$i + 1"; calc_line "Exit Loop If" "$i > Get(FoundCount)";
            perform_script_line "Mark; paid"; "End Loop"]
      by (vm_compute; reflexivity).
    repeat (constructor;
            [ first [ apply script_set_variable; reflexivity
                    | apply script_go_to_layout; reflexivity
                    | apply script_perform_script; reflexivity
                    | apply script_instruction, calc_instruction;
                      [cbn; tauto | reflexivity | reflexivity]
                    | apply script_instruction, plain_instruction; cbn; tauto ] |]).
    constructor. }
  split; [exact F|]. split.
  - vm_compute. eexists. reflexivity.
  - apply (script_lines_round_trip script_text). exact F.
Defined.

(** ** Composing what was decompiled *)

Section Recompose.
Local Open Scope string_scope.

Lemma same_shape_error (st st' : val_state) (ln ln' : nat) (m m' : string) :
  same_shape st st' -> same_shape (add_error ln m st) (add_error ln' m' st').
Proof.
  intros [E F]. split; [|exact F]. cbn. rewrite !length_app, E. reflexivity.
Qed.

Lemma same_shape_top (st st' : val_state) :
  same_shape st st' ->
  match top (block_stack st), top (block_stack st') with
  | None, None => True
  | Some f, Some f' => same_frame f f'
  | _, _ => False
  end.
Proof.
  intros [_ F]. unfold top. induction F as [|f f' l l' H F IH]; [exact I|].
  destruct F as [|g g' l l' Hg F]; [exact H|]. exact IH.
Qed.

Lemma Forall2_removelast {A B : Type} (R : A -> B -> Prop) (l : list A) (l' : list B) :
  Forall2 R l l' -> Forall2 R (removelast l) (removelast l').
Proof.
  induction 1 as [|x y l l' H F IH]; [constructor|].
  destruct F as [|x' y' l l' H' F]; [constructor|].
  cbn [removelast] in *. constructor; assumption.
Qed.

Lemma same_shape_exists_loop (st st' : val_state) :
  same_shape st st' ->
  List.existsb (fun b => String.eqb (frame_type b) "loop") (block_stack st)
  = List.existsb (fun b => String.eqb (frame_type b) "loop") (block_stack st').
Proof.
  intros [_ F]. induction F as [|f f' l l' [H _] F IH]; [reflexivity|].
  cbn. rewrite H, IH. reflexivity.
Qed.

Lemma validate_step_same_shape (st st' : val_state) (s s' : ParsedStep) :
  step_type s = step_type s' -> same_shape st st' ->
  same_shape (validate_step st s) (validate_step st' s').
Proof.
  intros T S. pose proof (same_shape_top _ _ S) as Tp.
  pose proof (same_shape_exists_loop _ _ S) as Lp.
  unfold validate_step. rewrite <- T, <- Lp.
  assert (forall f f', same_shape (push_frame f st) (push_frame f' st') \/ True) as _ by auto.
  assert (forall ty ln ln' b, same_shape (push_frame (ty, ln, b) st)
                                         (push_frame (ty, ln', b) st')) as Push.
  { intros ty ln ln' b. destruct S as [E F]. split; [exact E|]. cbn.
    apply Forall2_app; [exact F|]. constructor; [split; reflexivity | constructor]. }
  assert (same_shape (pop_frame st) (pop_frame st')) as Pop.
  { destruct S as [E F]. split; [exact E|]. cbn. apply Forall2_removelast, F. }
  assert (forall ty ln ln' b, same_shape (set_top (ty, ln, b) st)
                                         (set_top (ty, ln', b) st')) as Set_.
  { intros ty ln ln' b. destruct S as [E F]. split; [exact E|]. cbn.
    apply Forall2_app; [apply Forall2_removelast, F|].
    constructor; [split; reflexivity | constructor]. }
  repeat match goal with
         | |- context [String.eqb (step_type s) ?k] =>
             destruct (String.eqb (step_type s) k)
         end;
    try apply Push; try exact S;
    try (destruct (top (block_stack st)) as [f|], (top (block_stack st')) as [f'|];
         try contradiction;
         [ destruct Tp as [Tf Te]; rewrite <- ?Tf, <- ?Te;
           repeat match goal with
                  | |- context [if ?b then _ else _] => destruct b
                  end;
           first [ apply same_shape_error, S | exact S | apply Pop | apply Set_ ]
         | apply same_shape_error, S ]).
  destruct (List.existsb _ _); [exact S | apply same_shape_error, S].
Qed.

Lemma walk_same_shape (steps steps' : list ParsedStep) :
  Forall2 (fun s s' => step_type s = step_type s') steps steps' ->
  forall st st', same_shape st st' ->
                 same_shape (fold_left validate_step steps st)
                            (fold_left validate_step steps' st').
Proof.
  induction 1 as [|s s' l l' H F IH]; intros st st' S; [exact S|].
  cbn [fold_left]. apply IH, validate_step_same_shape; assumption.
Qed.

(** Whether the validator accepts depends on the step types only. *)
Lemma is_valid_same_types (steps steps' : list ParsedStep) :
  Forall2 (fun s s' => step_type s = step_type s') steps steps' ->
  is_valid (validate_structure steps) = is_valid (validate_structure steps').
Proof.
  intros F.
  destruct (walk_same_shape _ _ F (mkVal [] []) (mkVal [] [])) as [E S];
    [split; [reflexivity | constructor]|].
  unfold is_valid, validate_structure, structural_errors, walk. cbn [errors].
  rewrite !length_map, !length_app, !length_map, E.
  rewrite (Forall2_length S). reflexivity.
Qed.

Lemma line_step_type (l : string) (n n' : nat) :
  round_trips l -> step_type (line_step l n) = step_type (line_step l n').
Proof.
  intros R. pose proof (rt_parse l R n) as H. pose proof (rt_parse l R n') as H'.
  generalize dependent (line_step l n'). generalize dependent (line_step l n).
  intros s H s' H'. unfold parse_plain in H, H'.
  repeat match type of H with
         | context [Regex.re_match ?p l] =>
             destruct (Regex.re_match p l);
             [ try (apply (inj Some) in H; injection H as <-;
                    apply (inj Some) in H'; injection H' as <-; reflexivity) |]
         end.
  - destruct (_split_params _); [discriminate H|].
    apply (inj Some) in H. injection H as <-.
    apply (inj Some) in H'. injection H' as <-. reflexivity.
  - discriminate H.
Qed.

Lemma steps_of_same_lines (ls : list string) (steps steps' : list ParsedStep) :
  Forall round_trips ls ->
  Forall2 (fun s l => exists n, s = line_step l n) steps ls ->
  Forall2 (fun s l => exists n, s = line_step l n) steps' ls ->
  Forall2 (fun s s' => step_type s = step_type s') steps steps'.
Proof.
  intros F F2. revert steps'.
  induction F2 as [|s l ss ls' (n & ->) _ IH]; intros steps' F2'.
  - inversion F2'. constructor.
  - inversion F2' as [|s' ? ss' ? (n' & ->) F2'']; subst.
    inversion F as [|? ? R F']; subst.
    constructor; [apply line_step_type, R | apply IH; assumption].
Qed.

(** The decompiler on the XML composed from lines that round-trip. *)
Lemma decompile_composed (ls : list string) :
  Forall round_trips ls ->
  exists out,
    decompile_xml (snippet_open ++ PyStr.concat (List.map line_xml ls) ++ snippet_close)
    = Some out
    /\ canonical_lines out = ls.
Proof.
  intros F. unfold decompile_xml. rewrite (fromstring_instructions _ F).
  cbn [mbind option_bind]. unfold decompile_root. rewrite (iter_instructions _ F).
  destruct (decompile_loop_instructions _ F [] 0) as (out & -> & F3).
  eexists. split; [reflexivity|]. apply canonical_lines_indented; assumption.
Qed.

End Recompose.

(** X25: decompiling and composing again gives the same XML.  For every
    text of the fragment of X24 (instruction lines, [Set Variable],
    [Go to Layout] and [Perform Script] lines), if the text composes to
    [xml] then [xml] decompiles to a text that composes to [xml] again:
    the indentation the decompiler adds and the line numbers it changes
    alter neither what the validator decides nor the XML generated. *)
Theorem recompose_gives_same_xml (text xml : string) :
  Forall script_line (canonical_lines text) ->
  compose text = Some xml ->
  exists out, decompile_xml xml = Some out /\ compose out = Some xml.
Proof.
  intros H C.
  assert (Forall round_trips (canonical_lines text)) as F
      by (eapply Forall_impl; [apply script_line_round_trips | exact H]).
  destruct (parse_text_instructions text F) as (steps & P & F2).
  unfold compose in C. rewrite P in C. cbn [mbind option_bind] in C.
  destruct (is_valid (validate_structure steps)) eqn:V; [|discriminate C].
  rewrite (generate_xml_instructions steps _ F F2) in C.
  apply (inj Some) in C. subst xml.
  destruct (decompile_composed _ F) as (out & D & L).
  exists out. split; [exact D|].
  rewrite <- L in F.
  destruct (parse_text_instructions out F) as (steps' & P' & F2').
  unfold compose. rewrite P'. cbn [mbind option_bind].
  rewrite L in F, F2'.
  rewrite <- (is_valid_same_types steps steps'), V
    by (eapply steps_of_same_lines; eassumption).
  apply (generate_xml_instructions steps' _ F F2').
Qed.

Lemma recompose_witness :
  Forall script_line (canonical_lines script_text)
  /\ exists xml,
      compose script_text = Some xml
      /\ exists out, decompile_xml xml = Some out /\ compose out = Some xml.
Proof.
  assert (Forall script_line (canonical_lines script_text)) as F.
  { replace (canonical_lines script_text)
      with [set_variable_line "$i" "0"; go_to_layout_line "Invoices (list)"; "Loop";
            set_variable_line "$i" "$i + 1"; calc_line "Exit Loop If" "$i > Get(FoundCount)";
            perform_script_line "Mark; paid"; "End Loop"]
      by (vm_compute; reflexivity).
    repeat (constructor;
            [ first [ apply script_set_variable; reflexivity
                    | apply script_go_to_layout; reflexivity
                    | apply script_perform_script; reflexivity
                    | apply script_instruction, calc_instruction;
                      [cbn; tauto | reflexivity | reflexivity]
                    | apply script_instruction, plain_instruction; cbn; tauto ] |]).
    constructor. }
  split; [exact F|].
  destruct (compose script_text) as [xml|] eqn:C; [|vm_compute in C; discriminate C].
  exists xml. split; [reflexivity|].
  apply (recompose_gives_same_xml script_text xml F C).
Defined.

(** ** What the validator accepts is properly nested *)

Section ValidatorComplete.

Lemma nested_app_both :
  (forall b x, nested b x -> nested b x /\ forall y, nested b y -> nested b (x ++ y))
  /\ (forall b x, branches b x -> branches b x).
Proof.
  apply nested_branches_ind.
  - intros b. split; [constructor | intros y Hy; exact Hy].
  - intros b s rest C _ [N IH]. split; [constructor; assumption|].
    intros y Hy. cbn. constructor; [exact C | apply IH, Hy].
  - intros s rest T _ [N IH]. split; [constructor; assumption|].
    intros y Hy. cbn. apply nested_exit; [exact T | apply IH, Hy].
  - intros b s e body rest Ts _ [Nb _] Te _ [Nr IH].
    split; [apply nested_loop; assumption|].
    intros y Hy. cbn. rewrite <- app_assoc. cbn.
    apply nested_loop; [assumption .. | apply IH, Hy].
  - intros b s e body brs rest Ts _ [Nb _] _ Br Te _ [Nr IH].
    split; [apply nested_if; assumption|].
    intros y Hy. cbn. rewrite <- !app_assoc. cbn.
    apply nested_if; [assumption .. | apply IH, Hy].
  - constructor.
  - intros b s body T _ [N _]. constructor; assumption.
  - intros b s body more T _ [N _] _ Br. constructor; assumption.
Qed.

Lemma nested_app (b : bool) (x y : list ParsedStep) :
  nested b x -> nested b y -> nested b (x ++ y).
Proof. intros Hx Hy. destruct nested_app_both as [H _]. apply (H b x Hx), Hy. Qed.

Lemma closes_prepend (rstk : list frame) (blk r : list ParsedStep) :
  nested (List.existsb is_loop_frame rstk) blk -> closes rstk r -> closes rstk (blk ++ r).
Proof.
  destruct rstk as [|f below]; intros N C.
  - apply nested_app; assumption.
  - destruct C as (body & brs & e & rest & -> & Nb & Cr & K).
    exists (blk ++ body), brs, e, rest. rewrite <- app_assoc.
    repeat split; try assumption. apply nested_app; assumption.
Qed.

Lemma errors_grow_step (st : val_state) (s : ParsedStep) :
  val_errors (validate_step st s) = [] -> val_errors st = [].
Proof.
  unfold validate_step.
  repeat match goal with
         | |- context [if ?b then _ else _] => destruct b
         | |- context [match top ?l with _ => _ end] => destruct (top l)
         end; cbn; intros H; try exact H;
    apply app_eq_nil in H; destruct H as [_ H]; discriminate H.
Qed.

Lemma errors_grow (steps : list ParsedStep) (st : val_state) :
  val_errors (fold_left validate_step steps st) = [] -> val_errors st = [].
Proof.
  revert st. induction steps as [|s rest IH]; intros st H; [exact H|].
  cbn in H. apply IH in H. apply errors_grow_step in H. exact H.
Qed.

Lemma top_rev (stk : list frame) (f : frame) :
  top stk = Some f -> exists below, stk = below ++ [f] /\ rev stk = f :: rev below.
Proof.
  unfold top. intros H. destruct (exists_last (l := stk)) as (below & x & E).
  - intros ->. discriminate H.
  - subst stk. rewrite list.last_snoc in H. injection H as ->.
    exists below. split; [reflexivity | apply rev_unit].
Qed.

Lemma exists_loop_rev (stk : list frame) :
  List.existsb is_loop_frame (rev stk)
  = List.existsb (fun b => String.eqb (frame_type b) "loop") stk.
Proof.
  induction stk as [|f stk IH]; [reflexivity|].
  cbn [rev]. rewrite existsb_app, IH. cbn. unfold is_loop_frame.
  rewrite orb_false_r. apply orb_comm.
Qed.

Lemma frame_eqb_if (f : frame) :
  negb (String.eqb (frame_type f) "if") = false -> frame_type f = "if"%string.
Proof. intros H. apply negb_false_iff, String.eqb_eq in H. exact H. Qed.

Lemma frame_eqb_loop (f : frame) :
  negb (String.eqb (frame_type f) "loop") = false -> frame_type f = "loop"%string.
Proof. intros H. apply negb_false_iff, String.eqb_eq in H. exact H. Qed.

Lemma not_loop_below (f : frame) (below : list frame) :
  frame_type f = "if"%string ->
  List.existsb is_loop_frame (f :: below) = List.existsb is_loop_frame below.
Proof. intros T. cbn. unfold is_loop_frame at 1. rewrite T. reflexivity. Qed.

Lemma loop_above (f : frame) (below : list frame) :
  frame_type f = "loop"%string -> List.existsb is_loop_frame (f :: below) = true.
Proof. intros T. cbn. unfold is_loop_frame at 1. rewrite T. reflexivity. Qed.

(** One step of the walk, read backwards: what is to come before the step
    is the step followed by what is to come after it. *)
Lemma closes_step (st : val_state) (s : ParsedStep) (rest : list ParsedStep) :
  val_errors (validate_step st s) = [] ->
  closes (rev (block_stack (validate_step st s))) rest ->
  closes (rev (block_stack st)) (s :: rest).
Proof.
  unfold validate_step.
  destruct (String.eqb (step_type s) "if") eqn:E1.
  { apply String.eqb_eq in E1. intros _ C. cbn [push_frame block_stack] in C.
    rewrite rev_unit in C.
    destruct C as (body & brs & e & r & -> & Nb & Cr & [(T & _) | (_ & Te & Br)]);
      [discriminate T|].
    cbn [frame_has_else snd] in Br. rewrite not_loop_below in Nb by reflexivity.
    replace (s :: body ++ brs ++ e :: r) with ((s :: body ++ brs ++ e :: []) ++ r)
      by (cbn; rewrite <- !app_assoc; reflexivity).
    apply closes_prepend; [|exact Cr].
    apply nested_if; try assumption. constructor. }
  destruct (String.eqb (step_type s) "else_if") eqn:E2.
  { apply String.eqb_eq in E2.
    destruct (top (block_stack st)) as [f|] eqn:Tp;
      [|cbn; intros H; apply app_eq_nil in H; destruct H as [_ H]; discriminate H].
    destruct (negb (String.eqb (frame_type f) "if")) eqn:Tf;
      [cbn; intros H; apply app_eq_nil in H; destruct H as [_ H]; discriminate H|].
    destruct (frame_has_else f) eqn:He;
      [cbn; intros H; apply app_eq_nil in H; destruct H as [_ H]; discriminate H|].
    apply frame_eqb_if in Tf. intros _ C.
    destruct (top_rev _ _ Tp) as (below & _ & R). rewrite R in *.
    destruct C as (body & brs & e & r & -> & Nb & Cr & [(T & _) | (_ & Te & Br)]);
      [congruence|].
    rewrite He in Br.
    exists [], (s :: body ++ brs), e, r.
    split; [cbn; rewrite <- app_assoc; reflexivity|].
    split; [constructor|]. split; [exact Cr|]. right.
    split; [exact Tf|]. split; [exact Te|]. rewrite He.
    rewrite not_loop_below in Nb by exact Tf.
    apply branches_else_if; assumption. }
  destruct (String.eqb (step_type s) "else") eqn:E3.
  { apply String.eqb_eq in E3.
    destruct (top (block_stack st)) as [f|] eqn:Tp;
      [|cbn; intros H; apply app_eq_nil in H; destruct H as [_ H]; discriminate H].
    destruct (negb (String.eqb (frame_type f) "if")) eqn:Tf;
      [cbn; intros H; apply app_eq_nil in H; destruct H as [_ H]; discriminate H|].
    destruct (frame_has_else f) eqn:He;
      [cbn; intros H; apply app_eq_nil in H; destruct H as [_ H]; discriminate H|].
    apply frame_eqb_if in Tf. intros _ C.
    destruct (top_rev _ _ Tp) as (below & Eb & R). rewrite R.
    cbn [set_top block_stack] in C. rewrite Eb, removelast_last, rev_unit in C.
    destruct C as (body & brs & e & r & -> & Nb & Cr & [(T & _) | (_ & Te & Br)]);
      [discriminate T|].
    cbn [frame_has_else snd] in Br. subst brs.
    rewrite not_loop_below in Nb by reflexivity.
    exists [], (s :: body), e, r.
    split; [reflexivity|].
    split; [constructor|]. split; [exact Cr|]. right.
    split; [exact Tf|]. split; [exact Te|]. rewrite He.
    apply branches_else; assumption. }
  destruct (String.eqb (step_type s) "end_if") eqn:E4.
  { apply String.eqb_eq in E4.
    destruct (top (block_stack st)) as [f|] eqn:Tp;
      [|cbn; intros H; apply app_eq_nil in H; destruct H as [_ H]; discriminate H].
    destruct (negb (String.eqb (frame_type f) "if")) eqn:Tf;
      [cbn; intros H; apply app_eq_nil in H; destruct H as [_ H]; discriminate H|].
    apply frame_eqb_if in Tf. intros _ C.
    destruct (top_rev _ _ Tp) as (below & Eb & R). rewrite R.
    cbn [pop_frame block_stack] in C. rewrite Eb, removelast_last in C.
    exists [], [], s, rest.
    split; [reflexivity|].
    split; [constructor|]. split; [exact C|]. right.
    split; [exact Tf|]. split; [exact E4|].
    destruct (frame_has_else f); [reflexivity | constructor]. }
  destruct (String.eqb (step_type s) "loop") eqn:E5.
  { apply String.eqb_eq in E5. intros _ C. cbn [push_frame block_stack] in C.
    rewrite rev_unit in C.
    destruct C as (body & brs & e & r & -> & Nb & Cr & [(_ & -> & Te) | (T & _)]);
      [|discriminate T].
    rewrite loop_above in Nb by reflexivity.
    replace (s :: body ++ [] ++ e :: r) with ((s :: body ++ e :: []) ++ r)
      by (cbn; rewrite <- !app_assoc; reflexivity).
    apply closes_prepend; [|exact Cr].
    apply nested_loop; try assumption. constructor. }
  destruct (String.eqb (step_type s) "exit_loop_if") eqn:E6.
  { apply String.eqb_eq in E6.
    destruct (List.existsb _ (block_stack st)) eqn:L;
      [|cbn; intros H; apply app_eq_nil in H; destruct H as [_ H]; discriminate H].
    intros _ C. rewrite <- exists_loop_rev in L.
    change (s :: rest) with ([s] ++ rest). apply closes_prepend; [|exact C].
    rewrite L. apply nested_exit; [exact E6 | constructor]. }
  destruct (String.eqb (step_type s) "end_loop") eqn:E7.
  { apply String.eqb_eq in E7.
    destruct (top (block_stack st)) as [f|] eqn:Tp;
      [|cbn; intros H; apply app_eq_nil in H; destruct H as [_ H]; discriminate H].
    destruct (negb (String.eqb (frame_type f) "loop")) eqn:Tf;
      [cbn; intros H; apply app_eq_nil in H; destruct H as [_ H]; discriminate H|].
    apply frame_eqb_loop in Tf. intros _ C.
    destruct (top_rev _ _ Tp) as (below & Eb & R). rewrite R.
    cbn [pop_frame block_stack] in C. rewrite Eb, removelast_last in C.
    exists [], [], s, rest.
    split; [reflexivity|].
    split; [constructor|]. split; [exact C|]. left.
    split; [exact Tf|]. split; [reflexivity | exact E7]. }
  intros _ C. change (s :: rest) with ([s] ++ rest). apply closes_prepend; [|exact C].
  apply nested_plain; [|constructor].
  unfold is_control, control_kinds. cbn [existsb].
  rewrite E1, E2, E3, E4, E5, E6, E7. reflexivity.
Qed.

Lemma closes_walk (steps : list ParsedStep) (st : val_state) :
  val_errors (fold_left validate_step steps st) = [] ->
  block_stack (fold_left validate_step steps st) = [] ->
  closes (rev (block_stack st)) steps.
Proof.
  revert st. induction steps as [|s rest IH]; intros st E B.
  - cbn in B. rewrite B. constructor.
  - cbn [fold_left] in E, B. apply closes_step.
    + apply (errors_grow rest), E.
    + apply IH; assumption.
Qed.

End ValidatorComplete.

(** X26: [validate_structure] accepts properly nested lists of steps only.
    If it reports no error on [steps] then [steps] is properly nested:
    every [if] is closed by its [end_if] after any number of [else_if]
    branches and at most one, final, [else] branch, every [loop] by its
    [end_loop], and every [exit_loop_if] stands inside some loop.  With
    X15 the validator accepts exactly the properly nested lists. *)
Theorem valid_steps_are_nested (steps : list ParsedStep) :
  is_valid (validate_structure steps) = true -> nested false steps.
Proof.
  unfold is_valid, validate_structure, structural_errors. cbn [errors].
  rewrite length_map. intros H. apply Nat.eqb_eq, length_zero_iff_nil in H.
  apply app_eq_nil in H. destruct H as [E B].
  apply map_eq_nil in B.
  apply (closes_walk steps (mkVal [] []) E B).
Qed.

Lemma valid_steps_witness :
  is_valid (validate_structure nested_example) = true /\ nested false nested_example.
Proof.
  split; [reflexivity|].
  apply (valid_steps_are_nested nested_example). reflexivity.
Defined.

(** ** When a text composes *)

Section ComposeCriterion.

Lemma parse_text_total (text : string) : is_Some (parse_text text).
Proof.
  unfold parse_text.
  destruct (acc_lines_total (PyStr.split_char "010" text) 1 acc_init) as [st E1].
  rewrite E1. cbn [mbind option_bind].
  destruct (flush_total st) as [st' E2]. rewrite E2. cbn [mbind option_bind].
  assert (Forall typed_step (acc_steps acc_init)) as F0 by constructor.
  pose proof (flush_typed _ _ (acc_lines_typed _ _ _ _ F0 E1) E2) as F.
  destruct (merge_comments_total _ F) as [m ->]. cbn [mbind option_bind]. eauto.
Qed.

Lemma is_valid_iff_nested (steps : list ParsedStep) :
  is_valid (validate_structure steps) = true <-> nested false steps.
Proof.
  split.
  - unfold is_valid, validate_structure, structural_errors. cbn [errors].
    rewrite length_map. intros H. apply Nat.eqb_eq, length_zero_iff_nil in H.
    apply app_eq_nil in H. destruct H as [E B]. apply map_eq_nil in B.
    apply (closes_walk steps (mkVal [] []) E B).
  - intros N. destruct nested_walks as [W _].
    unfold is_valid, validate_structure, structural_errors, walk. cbn [errors].
    rewrite (W false steps N [] []) by discriminate. reflexivity.
Qed.

End ComposeCriterion.

(** X27: when the compose route of [cmd_process] produces XML.  A text is
    turned into XML exactly when [parse_text] reports no error on it and
    the steps it returns are properly nested; in every other case the
    route stops before [generate_xml], and [generate_xml] itself never
    fails on steps that [parse_text] returned. *)
Theorem compose_iff_recognized_and_nested (text : string) :
  is_Some (compose text)
  <-> exists steps, parse_text text = Some (steps, []) /\ nested false steps.
Proof.
  unfold compose. destruct (parse_text_total text) as [[steps errs] P].
  rewrite P. cbn [mbind option_bind]. split.
  - intros [xml H]. destruct errs as [|e errs]; [|discriminate H].
    exists steps. split; [reflexivity|]. apply is_valid_iff_nested.
    destruct (is_valid _); [reflexivity | discriminate H].
  - intros (steps' & E & N). injection E as <- ->.
    apply is_valid_iff_nested in N. rewrite N.
    apply (generate_xml_typed steps (parse_text_typed _ _ _ P)).
Qed.

(** ** Where the validator's errors point *)

Section ValidatorLines.
Variable P : nat -> Prop.

Lemma Forall_removelast {A : Type} (Q : A -> Prop) (l : list A) :
  Forall Q l -> Forall Q (removelast l).
Proof.
  induction 1 as [|x l H F IH]; [constructor|].
  destruct l as [|y l]; [constructor|].
  cbn [removelast] in *. constructor; assumption.
Qed.

Lemma Forall_top (Q : frame -> Prop) (l : list frame) (f : frame) :
  Forall Q l -> top l = Some f -> Q f.
Proof.
  intros F T. destruct (top_rev _ _ T) as (below & -> & _).
  apply List.Forall_app in F. destruct F as [_ F]. inversion F; assumption.
Qed.

Lemma lines_in_step (st : val_state) (s : ParsedStep) :
  P (line_num s) -> lines_in P st -> lines_in P (validate_step st s).
Proof.
  intros Ps [E B].
  assert (forall m, lines_in P (add_error (line_num s) m st)) as Err.
  { intros m. split; [|exact B]. cbn. apply Forall_app_2; [exact E|].
    constructor; [exact Ps | constructor]. }
  assert (forall ty b, lines_in P (push_frame (ty, line_num s, b) st)) as Push.
  { intros ty b. split; [exact E|]. cbn. apply Forall_app_2; [exact B|].
    constructor; [exact Ps | constructor]. }
  assert (lines_in P (pop_frame st)) as Pop.
  { split; [exact E|]. cbn. apply Forall_removelast, B. }
  unfold validate_step.
  repeat match goal with
         | |- context [String.eqb (step_type s) ?k] =>
             destruct (String.eqb (step_type s) k)
         end;
    try apply Push; try apply Err; try (split; assumption);
    try (destruct (top (block_stack st)) as [f|] eqn:T; [|apply Err];
         repeat match goal with
                | |- context [if ?b then _ else _] => destruct b
                end;
         first [ apply Err | split; assumption | apply Pop | idtac ]).
  - split; [exact E|]. cbn. apply Forall_app_2; [apply Forall_removelast, B|].
    constructor; [|constructor]. apply (Forall_top _ _ _ B T).
  - destruct (List.existsb _ _); [split; assumption | apply Err].
Qed.

Lemma lines_in_walk (steps : list ParsedStep) (st : val_state) :
  Forall (fun s => P (line_num s)) steps -> lines_in P st ->
  lines_in P (fold_left validate_step steps st).
Proof.
  intros F. revert st. induction F as [|s rest Ps _ IH]; intros st L; [exact L|].
  cbn [fold_left]. apply IH, lines_in_step; assumption.
Qed.

End ValidatorLines.

(** X28: every error of [validate_structure] points at a step of the list
    it was given: each entry of [errors] reads [Line N: ERROR — ...] where
    [N] is the line number of one of the steps, also for the blocks found
    unclosed at the end. *)
Theorem validator_errors_point_at_steps (steps : list ParsedStep) :
  Forall (fun e => exists s msg,
              In s steps
              /\ e = ("Line " ++ PyStr.of_nat (line_num s) ++ ": ERROR — " ++ msg)%string)
         (errors (validate_structure steps)).
Proof.
  unfold validate_structure, structural_errors, walk. cbn [errors].
  destruct (lines_in_walk (fun n => exists s, In s steps /\ n = line_num s)
              steps (mkVal [] [])) as [E B].
  - apply List.Forall_forall. intros s Hs. exists s. split; [exact Hs | reflexivity].
  - split; constructor.
  - apply List.Forall_forall. intros e He. apply in_map_iff in He.
    destruct He as (d & <- & Hd). apply in_app_or in Hd.
    assert (exists s, In s steps /\ diag_line d = line_num s) as (s & Hs & L).
    { destruct Hd as [Hd | Hd].
      - apply (proj1 (List.Forall_forall _ _) E d Hd).
      - apply in_map_iff in Hd. destruct Hd as (f & <- & Hf).
        apply (proj1 (List.Forall_forall _ _) B f Hf). }
    exists s, (diag_message d). split; [exact Hs|].
    unfold error_text. rewrite L. reflexivity.
Qed.

(** ** One line for each step *)

Section OneLinePerStep.
Local Open Scope string_scope.

Lemma step_texts_single (e : ET.element) :
  String.eqb (ET.get e "id" "") "89" = false ->
  exists t opens, step_texts e = ([t], opens).
Proof.
  intros H. unfold step_texts. rewrite H.
  repeat first
    [ eexists _, _; reflexivity
    | lazymatch goal with
      | |- exists _ _, ?X = _ =>
          lazymatch X with
          | if ?b then _ else _ => destruct b
          | match ?o with Some _ => _ | None => _ end => destruct o
          end
      end ].
Qed.

Lemma decompile_loop_app (elems : list ET.element) :
  forall lines level,
    decompile_loop elems lines level = (lines ++ decompile_loop elems [] level)%list.
Proof.
  induction elems as [|e rest IH]; intros lines level; cbn [decompile_loop].
  - rewrite app_nil_r. reflexivity.
  - destruct (decompile_step level e) as [new l'].
    rewrite (IH (lines ++ new)%list), (IH ([] ++ new)%list), app_assoc. reflexivity.
Qed.

Lemma decompile_step_entries (e : ET.element) (level : nat) :
  List.length (fst (decompile_step level e)) = entries_of_step e.
Proof.
  unfold decompile_step, entries_of_step.
  destruct (String.eqb (ET.get e "id" "") "89") eqn:H.
  - unfold step_texts. rewrite H. cbn [fst]. rewrite !length_map. reflexivity.
  - destruct (step_texts_single e H) as (t & opens & ->). reflexivity.
Qed.

End OneLinePerStep.

(** X29: the decompiler writes one entry of [lines] for each [Step]
    element, whatever the element holds, and for a comment one entry per
    line of its text: unknown steps, steps with missing children and
    disabled steps all give exactly one entry. *)
Theorem decompiler_entries_per_step (elems : list ET.element) (level : nat) :
  List.length (decompile_loop elems [] level)
  = list_sum (List.map entries_of_step elems).
Proof.
  revert level. induction elems as [|e rest IH]; intros level; [reflexivity|].
  cbn [decompile_loop List.map list_sum].
  pose proof (decompile_step_entries e level) as H.
  destruct (decompile_step level e) as [new l'].
  rewrite decompile_loop_app, length_app, IH. cbn [fst] in H. rewrite <- H.
  reflexivity.
Qed.
